(** * tmxlib.fileio: the TMX reader and writer

    A shallow embedding of [tmxlib/fileio.py] (Python 2): the functions that
    turn an lxml element tree into a map, its tilesets and its layers, and
    back.  Python [str] values (text and binary buffers alike) are [string],
    and so is the [unicode] text the reader makes of an attribute that
    lxml handed out as a [str]; Python [int] values are [Z]; dictionaries
    are [gmap]s; an exception is a value of [exn] carried by the [result]
    monad. *)

From Stdlib Require Import ZArith String Ascii DecimalString HexadecimalString Floats Lia.
From Stdlib Require Import DecimalPos DecimalZ.
From stdpp Require Import gmap strings list sorting.

#[local] Open Scope string_scope.
#[local] Open Scope Z_scope.

(** ** Exceptions *)

(** The exceptions the module can raise.  An [AssertionError] carries the
    message of the [assert] statement (without the formatted operand), or,
    for an [assert] that has none, the text of the asserted expression as
    the traceback shows it. *)
Inductive exn : Type :=
| AssertionError (msg : string)
| KeyError (key : string)
| ValueError (msg : string)
| TypeError (msg : string)
| UnboundLocalError (name : string)
| OverflowError (msg : string)
| StructError (msg : string)
| UnicodeEncodeError (msg : string)
| LibraryError (msg : string).

Inductive result (A : Type) : Type :=
| OK (a : A)
| Raise (e : exn).
Arguments OK {A} a.
Arguments Raise {A} e.

Definition bind {A B : Type} (c : result A) (k : A -> result B) : result B :=
  match c with
  | OK a => k a
  | Raise e => Raise e
  end.

Notation "'try' x <- c 'in' k" := (bind c (fun x => k))
  (at level 10, x pattern, c at level 100, k at level 200,
   format "'try'  x  <-  c  'in' '//' k").

(** [assert cond, msg] *)
Definition assert (cond : bool) (msg : string) : result unit :=
  if cond then OK tt else Raise (AssertionError msg).

(** A [for] loop whose body may raise: the state is threaded through. *)
Fixpoint for_each {S A : Type} (body : S -> A -> result S) (s : S) (l : list A) : result S :=
  match l with
  | [] => OK s
  | x :: l' => try s' <- body s x in for_each body s' l'
  end.

Definition is_OK {A : Type} (r : result A) : bool :=
  match r with OK _ => true | Raise _ => false end.

(** ** Python built-ins used by the module *)

Definition ord (c : ascii) : Z := Z.of_N (N_of_ascii c).
Definition chr (n : Z) : ascii := ascii_of_N (Z.to_N n).

(** Truth value of a [str]. *)
Definition truthy (s : string) : bool := negb (String.eqb s "").

(** [s[n:]] *)
Fixpoint str_drop (n : nat) (s : string) : string :=
  match n, s with
  | O, _ => s
  | S n', String _ s' => str_drop n' s'
  | S _, EmptyString => EmptyString
  end.

(** [s[:n]] *)
Fixpoint str_take (n : nat) (s : string) : string :=
  match n, s with
  | S n', String c s' => String c (str_take n' s')
  | _, _ => EmptyString
  end.

(** [s[start::step]] for a positive [step], written [S k]. *)
Fixpoint str_stride (skip k : nat) (s : string) : string :=
  match s with
  | EmptyString => EmptyString
  | String c s' =>
      match skip with
      | O => String c (str_stride k k s')
      | S skip' => str_stride skip' k s'
      end
  end.
Definition str_slice_step (start step : nat) (s : string) : string :=
  str_stride start (Nat.pred step) s.

Fixpoint str_repeat (c : ascii) (n : nat) : string :=
  match n with
  | O => EmptyString
  | S n' => String c (str_repeat c n')
  end.

(** [s.ljust(width, fill)]: pads on the right. *)
Definition ljust (width : nat) (fill : ascii) (s : string) : string :=
  s +:+ str_repeat fill (width - String.length s).

(** [''.join(parts)] *)
Definition join (parts : list string) : string :=
  fold_right String.append EmptyString parts.

(** [str(n)] for an [int]. *)
Definition str (n : Z) : string :=
  DecimalString.NilZero.string_of_int (Z.to_int n).

Definition is_space (c : ascii) : bool :=
  let n := ord c in (n =? 32) || ((9 <=? n) && (n <=? 13)).

Fixpoint lstrip (s : string) : string :=
  match s with
  | String c s' => if is_space c then lstrip s' else s
  | EmptyString => EmptyString
  end.

Fixpoint rstrip (s : string) : string :=
  match s with
  | String c s' =>
      match rstrip s' with
      | EmptyString => if is_space c then EmptyString else String c EmptyString
      | r => String c r
      end
  | EmptyString => EmptyString
  end.

Definition strip (s : string) : string := rstrip (lstrip s).

(** [int(s)] for a [str]: surrounding whitespace is dropped, then an
    optional sign and decimal digits are expected (the literals [str]
    prints, and their usual variations). *)
Definition int (s : string) : result Z :=
  let body := strip s in
  let digits :=
    match body with
    | String "+" (String "-" _) | String "+" (String "+" _) => EmptyString
    | String "+" r => r
    | _ => body
    end in
  match DecimalString.NilZero.int_of_string digits with
  | Some d => OK (Z.of_int d)
  | None => Raise (ValueError "invalid literal for int() with base 10")
  end.

(** [hex(p)] for an [int]. *)
Definition hex (p : Z) : string :=
  (if p <? 0 then "-0x" else "0x")
  +:+ HexadecimalString.NilZero.string_of_uint (N.to_hex_uint (Z.abs_N p)).

(** ** Colours *)

Definition hex_digit_value (c : ascii) : option Z :=
  let n := ord c in
  if (48 <=? n) && (n <=? 57) then Some (n - 48)
  else if (97 <=? n) && (n <=? 102) then Some (n - 87)
  else if (65 <=? n) && (n <=? 70) then Some (n - 55)
  else None.

(** [binascii.unhexlify(p)]: pairs of hexadecimal digits to bytes. *)
Fixpoint unhexlify (p : string) : result string :=
  match p with
  | EmptyString => OK EmptyString
  | String _ EmptyString => Raise (TypeError "Odd-length string")
  | String a (String b rest) =>
      match hex_digit_value a, hex_digit_value b with
      | Some h, Some l =>
          try r <- unhexlify rest in OK (String (chr (16 * h + l)) r)
      | _, _ => Raise (TypeError "Non-hexadecimal digit found")
      end
  end.

(** [ord(s)] for a [str], which must have length one. *)
Definition ord_str (s : string) : result Z :=
  match s with
  | String c EmptyString => OK (ord c)
  | _ => Raise (TypeError "ord() expected a character")
  end.

Definition startswith (c : ascii) (s : string) : bool :=
  match s with
  | String c' _ => Ascii.eqb c c'
  | EmptyString => false
  end.

Fixpoint map_result {A B : Type} (f : A -> result B) (l : list A) : result (list B) :=
  match l with
  | [] => OK []
  | x :: l' => try y <- f x in try ys <- map_result f l' in OK (y :: ys)
  end.

Definition from_rgb (string : string) : result (list Z) :=
  let string := if startswith "#" string then str_drop 1 string else string in
  try parts <-
    (if (String.length string =? 3)%nat then
       let dup i := let c := str_take 1 (str_drop i string) in c +:+ c in
       OK [dup 0%nat; dup 1%nat; dup 2%nat]
     else if (String.length string =? 6)%nat then
       OK [str_take 2 string; str_take 2 (str_drop 2 string);
           str_take 2 (str_drop 4 string)]
     else Raise (UnboundLocalError "parts")) in
  map_result (fun p => try b <- unhexlify p in ord_str b) parts.

(** [to_rgb]; the [print rgb] statement writes to standard output and
    leaves the returned value alone. *)
Definition to_rgb (rgb : list Z) : string :=
  join (map (fun p => ljust 2 "0" (str_drop 2 (hex p))) rgb).

(** ** Library codecs: [base64], [struct], [array], the gzip header *)

Definition b64_table : string :=
  "ABCDEFGHIJKLMNOPQRSTUVWXYZabcdefghijklmnopqrstuvwxyz0123456789+/".

Definition b64_char (n : Z) : ascii :=
  match String.get (Z.to_nat n) b64_table with
  | Some c => c
  | None => "="%char
  end.

(** [base64.b64encode]: three bytes become four characters of the
    alphabet, a shorter last group is padded with [=]. *)
Fixpoint b64encode (s : string) : string :=
  match s with
  | EmptyString => EmptyString
  | String a EmptyString =>
      let x := ord a in
      String (b64_char (x / 4)) (String (b64_char (x mod 4 * 16)) "==")
  | String a (String b EmptyString) =>
      let x := ord a in
      let y := ord b in
      String (b64_char (x / 4))
        (String (b64_char (x mod 4 * 16 + y / 16))
           (String (b64_char (y mod 16 * 4)) "="))
  | String a (String b (String c rest)) =>
      let x := ord a in
      let y := ord b in
      let z := ord c in
      String (b64_char (x / 4))
        (String (b64_char (x mod 4 * 16 + y / 16))
           (String (b64_char (y mod 16 * 4 + z / 64))
              (String (b64_char (z mod 64)) (b64encode rest))))
  end.

(** [binascii]'s decoding table: the value of a character of the
    alphabet, 0 for the pad character, nothing for any other. *)
Definition b64_value (c : ascii) : option Z :=
  let n := ord c in
  if (65 <=? n) && (n <=? 90) then Some (n - 65)
  else if (97 <=? n) && (n <=? 122) then Some (n - 71)
  else if (48 <=? n) && (n <=? 57) then Some (n + 4)
  else if n =? 43 then Some 62
  else if n =? 47 then Some 63
  else if n =? 61 then Some 0
  else None.

Definition b64_skipped (c : ascii) : bool :=
  let n := ord c in
  (127 <? n) || (n =? 13) || (n =? 10) || (n =? 32).

Definition is_pad (c : ascii) : bool := ord c =? 61.

(** The ([num]+1)-th character of [s] that the table knows. *)
Fixpoint binascii_find_valid (s : string) (num : nat) : option ascii :=
  match s with
  | EmptyString => None
  | String c s' =>
      if (ord c <=? 127) && bool_decide (is_Some (b64_value c)) then
        match num with
        | O => Some c
        | S num' => binascii_find_valid s' num'
        end
      else binascii_find_valid s' num
  end.

(** [binascii.a2b_base64]: characters outside the alphabet are skipped, a
    pad character that is in place ends the input, and bits left over at
    the end are an error. *)
Fixpoint a2b_base64 (s : string) (quad_pos leftchar leftbits : Z) : result string :=
  match s with
  | EmptyString =>
      if leftbits =? 0 then OK EmptyString
      else Raise (TypeError "Incorrect padding")
  | String c rest =>
      if b64_skipped c then a2b_base64 rest quad_pos leftchar leftbits
      else if is_pad c then
        if (quad_pos <? 2)
           || ((quad_pos =? 2)
               && negb (match binascii_find_valid s 1 with
                        | Some c' => is_pad c'
                        | None => false
                        end))
        then a2b_base64 rest quad_pos leftchar leftbits
        else OK EmptyString
      else
        match b64_value c with
        | None => a2b_base64 rest quad_pos leftchar leftbits
        | Some v =>
            let quad_pos := (quad_pos + 1) mod 4 in
            let leftchar := leftchar * 64 + v in
            let leftbits := leftbits + 6 in
            if 8 <=? leftbits then
              let leftbits := leftbits - 8 in
              try r <- a2b_base64 rest quad_pos (leftchar mod 2 ^ leftbits) leftbits in
              OK (String (chr (leftchar / 2 ^ leftbits mod 256)) r)
            else a2b_base64 rest quad_pos leftchar leftbits
        end
  end.

(** [base64.b64decode(data)]; [data] is the text of an element, which is
    [None] when the element has no text. *)
Definition b64decode (data : option string) : result string :=
  match data with
  | Some s => a2b_base64 s 0 0 0
  | None => Raise (TypeError "must be string or buffer, not None")
  end.

(** One [I] item of [struct.pack] with byte order [<]. *)
Definition pack_I (v : Z) : result string :=
  if (0 <=? v) && (v <=? 4294967295) then
    OK (String (chr (v mod 256))
          (String (chr (v / 256 mod 256))
             (String (chr (v / 65536 mod 256))
                (String (chr (v / 16777216 mod 256)) EmptyString))))
  else Raise (StructError "'I' format requires 0 <= number <= 4294967295").

(** [struct.pack('<%sI' % len(data), *data)] *)
Fixpoint struct_pack (data : list Z) : result string :=
  match data with
  | [] => OK EmptyString
  | v :: data' =>
      try b <- pack_I v in
      try r <- struct_pack data' in
      OK (b +:+ r)
  end.

(** [array.array('l', values)]: every item must fit a C [long], which has
    [sizeof_long] bytes on the platform. *)
Definition array_l (sizeof_long : Z) (values : list Z) : result (list Z) :=
  let bound := 2 ^ (8 * sizeof_long - 1) in
  if forallb (fun v => (- bound <=? v) && (v <? bound)) values then OK values
  else Raise (OverflowError "Python int too large to convert to C long").

(** The ten bytes [gzip.GzipFile] writes before the compressed stream when
    the file has no name: magic, method, flags, the modification time as
    32 bits (least significant byte first), extra flags and system. *)
Definition gzip_header (mtime : Z) : result string :=
  try m <- pack_I mtime in
  OK (String (chr 31) (String (chr 139) (String (chr 8) (String (chr 0)
        (m +:+ String (chr 2) (String (chr 255) EmptyString)))))).

(** ** The element tree *)

(** An lxml element: tag, attribute dictionary, text and children. *)
#[local] Set Warnings "-register-all".
Inductive Element : Type :=
  mkElement {
    tag : string;
    attrib : gmap string string;
    text : option string;
    children : list Element
  }.

Fixpoint all_chars (p : ascii -> bool) (s : string) : bool :=
  match s with
  | EmptyString => true
  | String c s' => p c && all_chars p s'
  end.

(** The characters lxml takes in a byte string: those of ASCII that are
    XML characters, which leaves out the control characters other than
    tab, line feed and carriage return. *)
Definition xml_char (c : ascii) : bool :=
  let n := ord c in
  (n =? 9) || (n =? 10) || (n =? 13) || ((32 <=? n) && (n <=? 127)).

Definition xml_compatible (s : string) : bool := all_chars xml_char s.

(** The [ValueError] lxml raises for a string it does not take. *)
Definition not_xml : exn := ValueError "All strings must be XML compatible".

(** The check every string handed to lxml goes through (an attribute
    value, the text of an element): a byte string that is not plain XML
    text is refused. *)
Definition utf8 (s : string) : result string :=
  if xml_compatible s then OK s else Raise not_xml.

(** The values of a dictionary of attributes all pass the check. *)
Definition xml_values (attrib : gmap string string) : bool :=
  bool_decide (map_Forall (fun _ value => xml_compatible value = true) attrib).

(** [etree.Element(tag, attrib=dict(...))]: the value of every attribute
    is checked.  The tags and the attribute names the module passes are
    literals that are XML names. *)
Definition Element_new (tag : string) (attrib : gmap string string) : result Element :=
  if xml_values attrib then OK (mkElement tag attrib None []) else Raise not_xml.

(** A dictionary display [dict(k1=v1, ...)]. *)
Definition dict (items : list (string * string)) : gmap string string :=
  list_to_map items.

(** [element.attrib[key] = value] *)
Definition set_attrib (key value : string) (e : Element) : result Element :=
  try value <- utf8 value in
  OK (mkElement (tag e) (<[key := value]> (attrib e)) (text e) (children e)).

(** [element.text = data] *)
Definition set_text (data : string) (e : Element) : result Element :=
  try data <- utf8 data in
  OK (mkElement (tag e) (attrib e) (Some data) (children e)).

(** [str(value)] for the name or the type of an object.  The reader
    stores them as [unicode] text, which [str] encodes as ASCII: a
    character beyond ASCII raises [UnicodeEncodeError].  (A byte string
    passes [str] as it is, and lxml then refuses one that is not ASCII:
    the object is not written either way.) *)
Definition str_unicode (value : string) : result string :=
  if all_chars (fun c => ord c <? 128) value then OK value
  else Raise (UnicodeEncodeError "'ascii' codec can't encode character").

(** [parent.append(child)] *)
Definition append (parent child : Element) : Element :=
  mkElement (tag parent) (attrib parent) (text parent) (children parent ++ [child]).

(** [attrib.pop(key)]: the value and the dictionary without the key. *)
Definition pop (key : string) (d : gmap string string)
  : result (string * gmap string string) :=
  match d !! key with
  | Some v => OK (v, delete key d)
  | None => Raise (KeyError key)
  end.

(** [attrib.pop(key, default)]: nothing stands for the default. *)
Definition pop_default (key : string) (d : gmap string string)
  : option string * gmap string string :=
  (d !! key, delete key d).

(** [not attrib] *)
Definition is_empty (d : gmap string string) : bool :=
  bool_decide (d = ∅).

(** Does the tree hold an element with this tag? *)
Fixpoint has_tag (t : string) (e : Element) : bool :=
  String.eqb (tag e) t || existsb (has_tag t) (children e).


(** ** The document model *)

(** Modelled from the spec: the class [tmxlib.Image] is not part of
    [fileio.py]; its fields are those of the spec's Image entity.  [trans]
    is the sequence of colour components [from_rgb] returns ([to_rgb]
    iterates over it); an empty [trans] attribute, which the reader keeps
    as the empty string, is the empty sequence. *)
Record Image : Type := mkImage {
  image_source : string;
  image_trans : option (list Z);
  image_size : Z * Z
}.

(** Modelled from the spec: the class [tmxlib.Tileset] is not part of
    [fileio.py]; the fields are those of the spec's Tileset entity, with
    [source] set for a tileset loaded by reference and [_read_first_gid]
    the value the reader records. *)
Record Tileset : Type := mkTileset {
  tileset_name : string;
  tileset_tile_size : Z * Z;
  tileset_margin : Z;
  tileset_spacing : Z;
  tileset_image : option Image;
  tileset_tile_properties : gmap Z (gmap string string);
  tileset_source : option string;
  tileset_read_first_gid : option Z
}.

(** Modelled from the spec: the class [tmxlib.ArrayMapLayer] is not part
    of [fileio.py]; the fields are those of the spec's TileLayer entity.
    [encoding], [compression] and [mtime] are read with [getattr] and a
    default: the outer [option] says whether the attribute is there, the
    inner one whether its value is a string or [None]. *)
Record ArrayMapLayer : Type := mkArrayMapLayer {
  tiles_name : string;
  tiles_opacity : float;
  tiles_visible : bool;
  tiles_properties : gmap string string;
  tiles_data : list Z;
  tiles_encoding : option (option string);
  tiles_compression : option (option string);
  tiles_mtime : option Z
}.

(** Modelled from the spec: the class [tmxlib.MapObject] is not part of
    [fileio.py]; the fields and their defaults are those of the spec's
    MapObject entity ([value] is the global tile id).  [name] and [type]
    hold text as the reader stores it, [unicode(attr)]. *)
Record MapObject : Type := mkMapObject {
  object_pos : Z * Z;
  object_size : Z * Z;
  object_value : option Z;
  object_name : option string;
  object_type : option string
}.

(** Modelled from the spec: the class [tmxlib.ObjectLayer] is not part of
    [fileio.py]; the fields are those of the spec's ObjectLayer entity. *)
Record ObjectLayer : Type := mkObjectLayer {
  objects_name : string;
  objects_opacity : float;
  objects_visible : bool;
  objects_properties : gmap string string;
  objects : list MapObject
}.

(** [layer.type] is ['tiles'] or ['objects']. *)
Inductive Layer : Type :=
| Tiles (layer : ArrayMapLayer)
| Objects (layer : ObjectLayer).

(** Modelled from the spec: the class [tmxlib.Map] is not part of
    [fileio.py]; the fields are those of the spec's Document entity.  A
    layer's [map] attribute is the map that holds it, so the functions
    that read [layer.map] take that map as an argument. *)
Record Map : Type := mkMap {
  map_size : Z * Z;
  map_tile_size : Z * Z;
  map_orientation : string;
  map_base_path : option string;
  map_properties : gmap string string;
  map_tilesets : list Tileset;
  map_layers : list Layer
}.

(** [tmxlib.Map(size=..., tile_size=..., orientation=..., base_path=...)] *)
Definition Map_new (size tile_size : Z * Z) (orientation : string)
    (base_path : option string) : Map :=
  mkMap size tile_size orientation base_path ∅ [] [].

(** ** What the module takes from outside *)

(** The platform and the libraries the module calls: the size of a C
    [long] (for [array.array('l')]), the clock ([time.time()], read by
    [gzip] when it is given no [mtime]), [zlib], the compressed stream and
    trailer [gzip.GzipFile] writes after its header and what it reads back,
    [float] and [str] on floating-point numbers, [os.path], the loading of
    an external tileset ([Tileset.open]), and two members of the classes
    above that are computed, not stored: the number of tiles of a tileset
    and the size of the tile an object refers to. *)
Record Env : Type := mkEnv {
  sizeof_long : Z;
  time_time : Z;
  zlib_compress : string -> string;
  zlib_decompress : string -> result string;
  gzip_body : string -> string;
  gzip_read : string -> result string;
  float_of_str : string -> result float;
  str_of_float : float -> string;
  os_path_isabs : string -> bool;
  os_path_join : string -> string -> string;
  Tileset_open : string -> result Tileset;
  num_tiles : Tileset -> Z;
  object_tile_size : Map -> MapObject -> option (Z * Z)
}.

Section fileio.

Variable env : Env.

(** Modelled from the spec: the method [Tileset.first_gid(map)] is not
    part of [fileio.py].  The first global tile id of the tileset at
    position [i] of the map's tilesets is 1 plus the numbers of tiles of
    the tilesets before it. *)
Definition first_gid (map : Map) (i : nat) : Z :=
  1 + foldr Z.add 0 (num_tiles env <$> take i (map_tilesets map)).

(** *** Properties *)

Definition read_property (properties : gmap string string) (prop : Element)
  : result (gmap string string) :=
  try _ <- assert (String.eqb (tag prop) "property") "prop.tag == 'property'" in
  try (name, a) <- pop "name" (attrib prop) in
  try (value, a) <- pop "value" a in
  let properties := <[name := value]> properties in
  try _ <- assert (is_empty a) "Unexpected property attributes" in
  OK properties.

Definition read_properties (elem : Element) : result (gmap string string) :=
  try _ <- assert (String.eqb (tag elem) "properties") "elem.tag == 'properties'" in
  let properties : gmap string string := ∅ in
  try _ <- assert (is_empty (attrib elem)) "Unexpected properties attributes" in
  for_each read_property properties (children elem).

(** [props.items()] is [map_to_list props]: the order in which a
    dictionary hands out its items is the implementation's. *)
Definition append_properties (parent : Element) (props : gmap string string)
  : result Element :=
  if is_empty props then OK parent
  else
    try element <- Element_new "properties" ∅ in
    try element <-
      for_each
        (fun element '(key, value) =>
           try property <-
             Element_new "property" (dict [("name", key); ("value", value)]) in
           OK (append element property))
        element (map_to_list props) in
    OK (append parent element).

(** *** Images *)

Definition int_default (s : option string) (default : Z) : result Z :=
  match s with
  | Some s => int s
  | None => OK default
  end.

Definition read_image (elem : Element) (base_path : option string) : result Image :=
  let '(trans, a) := pop_default "trans" (attrib elem) in
  try trans <-
    match trans with
    | Some t =>
        if truthy t then try rgb <- from_rgb t in OK (Some rgb)
        else OK (Some [])
    | None => OK None
    end in
  try (source, a) <- pop "source" a in
  let '(width, a) := pop_default "width" a in
  try width <- int_default width 0 in
  let '(height, a) := pop_default "height" a in
  try height <- int_default height 0 in
  try _ <- assert (is_empty a) "Unexpected image attributes" in
  OK (mkImage source trans (width, height)).

Definition write_image (image : Image) (base_path : option string) : result Element :=
  try element <- Element_new "image" (dict [("source", image_source image)]) in
  try element <-
    (if negb (snd (image_size image) =? 0)
     then set_attrib "height" (str (snd (image_size image))) element
     else OK element) in
  try element <-
    (if negb (fst (image_size image) =? 0)
     then set_attrib "width" (str (fst (image_size image))) element
     else OK element) in
  match image_trans image with
  | Some (c :: rgb) => set_attrib "trans" (to_rgb (c :: rgb)) element
  | _ => OK element
  end.

(** *** Tilesets *)

Definition update_tile_properties (id : Z) (props : gmap string string)
    (tileset : Tileset) : Tileset :=
  let tp := tileset_tile_properties tileset in
  mkTileset (tileset_name tileset) (tileset_tile_size tileset)
    (tileset_margin tileset) (tileset_spacing tileset) (tileset_image tileset)
    (<[id := props ∪ default ∅ (tp !! id)]> tp)
    (tileset_source tileset) (tileset_read_first_gid tileset).

Definition set_image (image : Image) (tileset : Tileset) : Tileset :=
  mkTileset (tileset_name tileset) (tileset_tile_size tileset)
    (tileset_margin tileset) (tileset_spacing tileset) (Some image)
    (tileset_tile_properties tileset)
    (tileset_source tileset) (tileset_read_first_gid tileset).

(** The body of [for subsubelem in subelem] under a [tile] element;
    [tileset.tile_properties[id]] yields the tile's bag, an empty one when
    the tile had none. *)
Definition read_tile_child (subelem : Element) (id : Z) (tileset : Tileset)
    (subsubelem : Element) : result Tileset :=
  if String.eqb (tag subsubelem) "properties" then
    try props <- read_properties subsubelem in
    OK (update_tile_properties id props tileset)
  else Raise (AssertionError "Unknown tag").

(** The body of [for subelem in elem] in [read_tileset]. *)
Definition read_tileset_child (base_path : option string) (tileset : Tileset)
    (subelem : Element) : result Tileset :=
  if String.eqb (tag subelem) "image" then
    try _ <- assert (match tileset_image tileset with None => true | Some _ => false end)
               "tileset.image == None" in
    try image <- read_image subelem base_path in
    OK (set_image image tileset)
  else if String.eqb (tag subelem) "tile" then
    try (id, _) <- pop "id" (attrib subelem) in
    try id <- int id in
    for_each (read_tile_child subelem id) tileset (children subelem)
  else Raise (AssertionError "Unknown tag").

Definition read_tileset (elem : Element) (base_path : option string) : result Tileset :=
  let '(source, a) := pop_default "source" (attrib elem) in
  if match source with Some s => truthy s | None => false end then
    let source := default EmptyString source in
    try real_source <-
      match base_path with
      | None =>
          if negb (os_path_isabs env source)
          then Raise (ValueError "Cannot load external tileset from relative path")
          else OK source
      | Some b => if truthy b then OK (os_path_join env b source) else OK source
      end in
    try (first_gid, a) <- pop "firstgid" a in
    try first_gid <- int first_gid in
    try _ <- assert (is_empty a) "Unexpected tileset attributes" in
    try tileset <- Tileset_open env real_source in
    OK (mkTileset (tileset_name tileset) (tileset_tile_size tileset)
          (tileset_margin tileset) (tileset_spacing tileset)
          (tileset_image tileset) (tileset_tile_properties tileset)
          (Some source) (Some first_gid))
  else
    try (name, a) <- pop "name" a in
    try (tilewidth, a) <- pop "tilewidth" a in
    try tilewidth <- int tilewidth in
    try (tileheight, a) <- pop "tileheight" a in
    try tileheight <- int tileheight in
    let '(margin, a) := pop_default "margin" a in
    try margin <- int_default margin 0 in
    let '(spacing, a) := pop_default "spacing" a in
    try spacing <- int_default spacing 0 in
    let '(firstgid, a) := pop_default "firstgid" a in
    try firstgid <- int_default firstgid 0 in
    let tileset :=
      mkTileset name (tilewidth, tileheight) margin spacing None ∅ None
        (Some firstgid) in
    try _ <- assert (is_empty a) "Unexpected tileset attributes" in
    for_each (read_tileset_child base_path) tileset (children elem).

(** [sorted(tileset.tile_properties.items())]: the keys differ, so the
    items are ordered by tile number. *)
Definition item_le (x y : Z * gmap string string) : Prop := fst x <= fst y.

#[local] Instance item_le_dec : RelDecision item_le.
Proof. intros x y. unfold item_le. apply _. Defined.

Definition sorted_items (tp : gmap Z (gmap string string))
  : list (Z * gmap string string) :=
  merge_sort item_le (map_to_list tp).

(** In the source the [tile] element is appended to its parent before it
    gets its [properties] child; the parent holds a reference to it, so
    it shows the child. *)
Definition write_tile (element : Element) (item : Z * gmap string string)
  : result Element :=
  let '(tile_no, props) := item in
  if negb (is_empty props) then
    try tile_elem <- Element_new "tile" (dict [("id", str tile_no)]) in
    try tile_elem <- append_properties tile_elem props in
    OK (append element tile_elem)
  else OK element.

Definition int_truthy (n : option Z) : bool :=
  match n with
  | Some n => negb (n =? 0)
  | None => false
  end.

Definition write_tileset (tileset : Tileset) (base_path : option string)
    (first_gid : option Z) : result Element :=
  match tileset_source tileset with
  | Some source =>
      let attrib := dict [("source", source)] in
      let attrib :=
        if int_truthy first_gid
        then <["firstgid" := str (default 0 first_gid)]> attrib
        else attrib in
      Element_new "tileset" attrib
  | None =>
      let attrib :=
        dict [("name", tileset_name tileset);
              ("tileheight", str (snd (tileset_tile_size tileset)));
              ("tilewidth", str (fst (tileset_tile_size tileset)))] in
      let attrib :=
        if int_truthy first_gid
        then <["firstgid" := str (default 0 first_gid)]> attrib
        else attrib in
      try element <- Element_new "tileset" attrib in
      try element <-
        (if negb (tileset_spacing tileset =? 0)
         then set_attrib "spacing" (str (tileset_spacing tileset)) element
         else OK element) in
      try element <-
        (if negb (tileset_margin tileset =? 0)
         then set_attrib "margin" (str (tileset_margin tileset)) element
         else OK element) in
      try element <-
        match tileset_image tileset with
        | Some image =>
            try image <- write_image image None in
            OK (append element image)
        | None => OK element
        end in
      for_each write_tile element (sorted_items (tileset_tile_properties tileset))
  end.

(** *** Tile layers *)

(** [zip(a, b, c, d)]: as long as the shortest. *)
Fixpoint zip4 (a b c d : string) : list (ascii * ascii * ascii * ascii) :=
  match a, b, c, d with
  | String x a', String y b', String z c', String w d' =>
      (x, y, z, w) :: zip4 a' b' c' d'
  | _, _, _, _ => []
  end.

(** The list the source builds from the decompressed data:
    [ord(a) + (ord(b) << 8) + (ord(c) << 16) + (ord(d) << 24)] for
    [a, b, c, d] in the [zip] of the four slices [data[x::4]], [x] in
    [range(4)]. *)
Definition tile_ids (data : string) : list Z :=
  map (fun '(a, b, c, d) =>
         ord a + Z.shiftl (ord b) 8 + Z.shiftl (ord c) 16 + Z.shiftl (ord d) 24)
    (zip4 (str_slice_step 0 4 data) (str_slice_step 1 4 data)
          (str_slice_step 2 4 data) (str_slice_step 3 4 data)).

Definition set_tile_properties (props : gmap string string)
    (layer : ArrayMapLayer) : ArrayMapLayer :=
  mkArrayMapLayer (tiles_name layer) (tiles_opacity layer) (tiles_visible layer)
    props (tiles_data layer) (tiles_encoding layer) (tiles_compression layer)
    (tiles_mtime layer).

Definition set_tile_data (data : list Z) (encoding compression : option string)
    (layer : ArrayMapLayer) : ArrayMapLayer :=
  mkArrayMapLayer (tiles_name layer) (tiles_opacity layer) (tiles_visible layer)
    (tiles_properties layer) data (Some encoding) (Some compression)
    (tiles_mtime layer).

(** The [data] branch of the loop of [tile_layer_from_element], first
    part: the text is decoded, then decompressed as the [compression]
    attribute says.  The result is the byte string and the value the
    layer's [compression] gets. *)
Definition read_data_bytes (subelem : Element) : result (string * option string) :=
  let data := text subelem in
  try (encoding, a) <- pop "encoding" (attrib subelem) in
  try data <-
    (if String.eqb encoding "base64" then b64decode data
     else Raise (AssertionError "Bad encoding")) in
  let '(compression, a) := pop_default "compression" a in
  match compression with
  | Some c =>
      if String.eqb c "gzip" then
        try data <- gzip_read env data in OK (data, Some "gzip")
      else if String.eqb c "zlib" then
        try data <- zlib_decompress env data in OK (data, Some "zlib")
      else if truthy c then Raise (AssertionError "Bad compression")
      else OK (data, None)
  | None => OK (data, None)
  end.

(** Second part: the bytes become the layer's array of tile ids. *)
Definition read_data (subelem : Element) (layer : ArrayMapLayer) : result ArrayMapLayer :=
  try (data, compression) <- read_data_bytes subelem in
  try ids <- array_l (sizeof_long env) (tile_ids data) in
  OK (set_tile_data ids (Some "base64") compression layer).

(** The body of the loop of [tile_layer_from_element]; the state is the
    layer and [data_set]. *)
Definition read_tile_layer_child (state : ArrayMapLayer * bool) (subelem : Element)
  : result (ArrayMapLayer * bool) :=
  let '(layer, data_set) := state in
  if String.eqb (tag subelem) "properties" then
    try props <- read_properties subelem in
    OK (set_tile_properties (props ∪ tiles_properties layer) layer, data_set)
  else if String.eqb (tag subelem) "data" then
    try _ <- assert (negb data_set) "data_set is False" in
    try layer <- read_data subelem layer in
    OK (layer, true)
  else Raise (AssertionError "Unknown tag").

Definition float_default (s : option string) : result float :=
  match s with
  | Some s => float_of_str env s
  | None => OK 1%float
  end.

(** The attributes every layer element has: [name], [opacity],
    [visible], [width] and [height], and nothing else. *)
Definition read_layer_attrib (kind : string) (elem : Element) (map : Map)
  : result (string * float * bool) :=
  try (name, a) <- pop "name" (attrib elem) in
  let '(opacity, a) := pop_default "opacity" a in
  try opacity <- float_default opacity in
  let '(visible, a) := pop_default "visible" a in
  try visible <- int_default visible 1 in
  try (width, a) <- pop "width" a in
  try width <- int width in
  try (height, a) <- pop "height" a in
  try height <- int height in
  try _ <- assert (bool_decide ((width, height) = map_size map))
             "layer_size == map.size" in
  try _ <- assert (is_empty a) ("Unexpected " +:+ kind +:+ " attributes") in
  OK (name, opacity, negb (visible =? 0)).

(** The layer the constructor returns gets its data, encoding and
    compression from the [data] element before it is handed out (the
    final [assert data_set]), so they start empty here. *)
Definition tile_layer_from_element (elem : Element) (map : Map) : result ArrayMapLayer :=
  try (name, opacity, visible) <- read_layer_attrib "tile layer" elem map in
  let layer := mkArrayMapLayer name opacity visible ∅ [] None None None in
  try (layer, data_set) <-
    for_each read_tile_layer_child (layer, false) (children elem) in
  try _ <- assert data_set "data_set" in
  OK layer.

(** [value == name] for a value that is a string or [None]. *)
Definition is_str (value : option string) (name : string) : bool :=
  match value with
  | Some s => String.eqb s name
  | None => false
  end.

Definition opt_truthy (value : option string) : bool :=
  match value with
  | Some s => truthy s
  | None => false
  end.

(** The attributes and the properties of a layer element, as both layer
    writers build them. *)
Definition layer_element (tag name : string) (map : Map) (visible : bool)
    (opacity : float) (properties : gmap string string) : result Element :=
  try element <-
    Element_new tag
      (dict [("name", name);
             ("width", str (fst (map_size map)));
             ("height", str (snd (map_size map)))]) in
  try element <-
    (if negb visible then set_attrib "visible" "0" element else OK element) in
  try element <-
    (if negb (PrimFloat.eqb opacity 1%float)
     then set_attrib "opacity" (str_of_float env opacity) element
     else OK element) in
  append_properties element properties.

(** What [gzip.GzipFile(fileobj=io, mode='wb', mtime=mtime)] leaves in
    [io] once [data] is written and the file closed. *)
Definition gzip_write (mtime : option Z) (data : string) : result string :=
  try header <- gzip_header (default (time_time env) mtime) in
  OK (header +:+ gzip_body env data).

Definition tile_layer_to_element (map : Map) (layer : ArrayMapLayer) : result Element :=
  try element <-
    layer_element "layer" (tiles_name layer) map (tiles_visible layer)
      (tiles_opacity layer) (tiles_properties layer) in
  let data := tiles_data layer in
  try data <- struct_pack data in
  let compression := default (Some "zlib") (tiles_compression layer) in
  let encoding := default (Some "base64") (tiles_encoding layer) in
  let extra_attrib : gmap string string := ∅ in
  let extra_attrib :=
    if opt_truthy compression
    then <["compression" := default EmptyString compression]> extra_attrib
    else extra_attrib in
  let extra_attrib :=
    if opt_truthy encoding
    then <["encoding" := default EmptyString encoding]> extra_attrib
    else extra_attrib in
  try (data, extra_attrib) <-
    (if is_str compression "gzip" then
       try data <- gzip_write (tiles_mtime layer) data in
       OK (data, extra_attrib)
     else if is_str compression "zlib" then
       OK (zlib_compress env data, <["compression" := "zlib"]> extra_attrib)
     else if opt_truthy compression then Raise (ValueError "Bad compression")
     else OK (data, extra_attrib)) in
  try (data, extra_attrib) <-
    (if is_str encoding "base64" then
       OK (b64encode data, <["encoding" := "base64"]> extra_attrib)
     else Raise (ValueError "Bad encoding")) in
  try data_elem <- Element_new "data" extra_attrib in
  try data_elem <- set_text data data_elem in
  OK (append element data_elem).

(** *** Object layers *)

(** The [object] branch of the loop of [object_layer_from_element]; a
    [MapObject] gets the spec's defaults for what [kwargs] leaves out. *)
Definition read_object (subelem : Element) : result MapObject :=
  try (x, a) <- pop "x" (attrib subelem) in
  try x <- int x in
  try (y, a) <- pop "y" a in
  try y <- int y in
  let '(gid, a) := pop_default "gid" a in
  try value <-
    match gid with
    | Some g => try v <- int g in OK (Some v)
    | None => OK None
    end in
  let '(name, a) := pop_default "name" a in
  let '(type, a) := pop_default "type" a in
  let '(width, a) := pop_default "width" a in
  let '(height, a) := pop_default "height" a in
  try size <-
    match width, height with
    | None, None => OK (0, 0)
    | Some w, Some h => try w <- int w in try h <- int h in OK (w, h)
    | Some w, None =>
        try w <- int w in
        Raise (TypeError "int() argument must be a string or a number, not 'NoneType'")
    | None, Some _ =>
        Raise (TypeError "int() argument must be a string or a number, not 'NoneType'")
    end in
  try _ <- assert (is_empty a) "Unexpected object attributes" in
  OK (mkMapObject (x, y) size value name type).

Definition add_object (object : MapObject) (layer : ObjectLayer) : ObjectLayer :=
  mkObjectLayer (objects_name layer) (objects_opacity layer) (objects_visible layer)
    (objects_properties layer) (objects layer ++ [object]).

Definition set_object_properties (props : gmap string string)
    (layer : ObjectLayer) : ObjectLayer :=
  mkObjectLayer (objects_name layer) (objects_opacity layer) (objects_visible layer)
    props (objects layer).

(** The body of the loop of [object_layer_from_element]: a child that is
    neither [properties] nor [object] is passed over. *)
Definition read_object_layer_child (layer : ObjectLayer) (subelem : Element)
  : result ObjectLayer :=
  if String.eqb (tag subelem) "properties" then
    try props <- read_properties subelem in
    OK (set_object_properties (props ∪ objects_properties layer) layer)
  else if String.eqb (tag subelem) "object" then
    try object <- read_object subelem in
    OK (add_object object layer)
  else OK layer.

Definition object_layer_from_element (elem : Element) (map : Map) : result ObjectLayer :=
  try (name, opacity, visible) <- read_layer_attrib "object layer" elem map in
  let layer := mkObjectLayer name opacity visible ∅ [] in
  for_each read_object_layer_child layer (children elem).

(** The dictionary [attrib] that the body of [for object in layer] in
    [object_layer_to_element] builds. *)
Definition object_attrib (map : Map) (object : MapObject)
  : result (gmap string string) :=
  let attrib :=
    dict [("x", str (fst (object_pos object))); ("y", str (snd (object_pos object)))] in
  let attrib :=
    if int_truthy (object_value object)
    then <["gid" := str (default 0 (object_value object))]> attrib
    else attrib in
  try attrib <-
    (if opt_truthy (object_name object)
     then try name <- str_unicode (default EmptyString (object_name object)) in
          OK (<["name" := name]> attrib)
     else OK attrib) in
  try attrib <-
    (if opt_truthy (object_type object)
     then try type <- str_unicode (default EmptyString (object_type object)) in
          OK (<["type" := type]> attrib)
     else OK attrib) in
  OK
  (if negb (bool_decide (object_size object = (0, 0)))
     && negb (match object_tile_size env map object with
              | Some size => bool_decide (size = object_size object)
              | None => false
              end)
  then <["height" := str (snd (object_size object))]>
         (<["width" := str (fst (object_size object))]> attrib)
  else attrib).

(** The body of [for object in layer] in [object_layer_to_element]. *)
Definition write_object (map : Map) (element : Element) (object : MapObject)
  : result Element :=
  try attrib <- object_attrib map object in
  try obj_element <- Element_new "object" attrib in
  OK (append element obj_element).

Definition object_layer_to_element (map : Map) (layer : ObjectLayer) : result Element :=
  try element <-
    layer_element "objectgroup" (objects_name layer) map (objects_visible layer)
      (objects_opacity layer) (objects_properties layer) in
  for_each (write_object map) element (objects layer).

Definition layer_to_element (map : Map) (layer : Layer) : result Element :=
  match layer with
  | Objects layer => object_layer_to_element map layer
  | Tiles layer => tile_layer_to_element map layer
  end.

(** *** Maps *)

Definition update_properties (props : gmap string string) (map : Map) : Map :=
  mkMap (map_size map) (map_tile_size map) (map_orientation map) (map_base_path map)
    (props ∪ map_properties map) (map_tilesets map) (map_layers map).

Definition add_tileset (tileset : Tileset) (map : Map) : Map :=
  mkMap (map_size map) (map_tile_size map) (map_orientation map) (map_base_path map)
    (map_properties map) (map_tilesets map ++ [tileset]) (map_layers map).

Definition add_layer (layer : Layer) (map : Map) : Map :=
  mkMap (map_size map) (map_tile_size map) (map_orientation map) (map_base_path map)
    (map_properties map) (map_tilesets map) (map_layers map ++ [layer]).

(** The body of [for elem in root] in [read_map]. *)
Definition read_map_child (base_path : option string) (map : Map) (elem : Element)
  : result Map :=
  if String.eqb (tag elem) "properties" then
    try props <- read_properties elem in
    OK (update_properties props map)
  else if String.eqb (tag elem) "tileset" then
    try tileset <- read_tileset elem base_path in
    let position := length (map_tilesets map) in
    let map := add_tileset tileset map in
    try _ <- assert (bool_decide (Some (first_gid map position)
                                  = tileset_read_first_gid tileset))
               "tileset.first_gid(map) == tileset._read_first_gid" in
    OK map
  else if String.eqb (tag elem) "layer" then
    try layer <- tile_layer_from_element elem map in
    OK (add_layer (Tiles layer) map)
  else if String.eqb (tag elem) "objectgroup" then
    try layer <- object_layer_from_element elem map in
    OK (add_layer (Objects layer) map)
  else Raise (AssertionError "Unknown tag").

(** The statements of [read_map] before its loop: the checks on the root
    element and the construction of the map from its attributes. *)
Definition read_map_args (root : Element) (base_path : option string) : result Map :=
  try _ <- assert (String.eqb (tag root) "map") "root.tag == 'map'" in
  try (version, a) <- pop "version" (attrib root) in
  try _ <- assert (String.eqb version "1.0") "Bad TMX file version" in
  try (width, a) <- pop "width" a in
  try width <- int width in
  try (height, a) <- pop "height" a in
  try height <- int height in
  try (tilewidth, a) <- pop "tilewidth" a in
  try tilewidth <- int tilewidth in
  try (tileheight, a) <- pop "tileheight" a in
  try tileheight <- int tileheight in
  try (orientation, a) <- pop "orientation" a in
  try _ <- assert (is_empty a) "Unexpected map attributes" in
  OK (Map_new (width, height) (tilewidth, tileheight) orientation base_path).

Definition read_map (root : Element) (base_path : option string) : result Map :=
  try map <- read_map_args root base_path in
  for_each (read_map_child base_path) map (children root).

(** [tileset.first_gid(map)] goes by the place of the tileset in the map,
    so the loop over the tilesets carries the positions. *)
Definition write_map (map : Map) (base_path : option string) : result Element :=
  try elem <-
    Element_new "map"
      (dict [("version", "1.0");
             ("orientation", map_orientation map);
             ("width", str (fst (map_size map)));
             ("height", str (snd (map_size map)));
             ("tilewidth", str (fst (map_tile_size map)));
             ("tileheight", str (snd (map_tile_size map)))]) in
  try elem <- append_properties elem (map_properties map) in
  try elem <-
    for_each
      (fun elem '(i, tileset) =>
         try e <- write_tileset tileset base_path (Some (first_gid map i)) in
         OK (append elem e))
      elem (imap pair (map_tilesets map)) in
  for_each
    (fun elem layer => try e <- layer_to_element map layer in OK (append elem e))
    elem (map_layers map).

End fileio.

(** ** An environment to run the functions in *)

(** A 64-bit platform whose clock reads [now], with stand-ins for the
    libraries: the compressors store their input behind a one-byte mark,
    the only floating-point numerals understood are those of 0, 0.5 and
    1, paths are POSIX paths, no external tileset can be opened, and a
    tileset has as many tiles as its image has whole tiles. *)
Definition stored (s : string) : string := String "S"%char s.

Definition unstored (s : string) : result string :=
  match s with
  | String "S"%char s' => OK s'
  | _ => Raise (LibraryError "Error -3 while decompressing data")
  end.

Definition run_env (now : Z) : Env := {|
  sizeof_long := 8;
  time_time := now;
  zlib_compress := stored;
  zlib_decompress := unstored;
  gzip_body := stored;
  gzip_read := fun s => unstored (str_drop 10 s);
  float_of_str := fun s =>
    if String.eqb s "0.5" then OK 0.5%float
    else if String.eqb s "1" || String.eqb s "1.0" then OK 1%float
    else if String.eqb s "0" || String.eqb s "0.0" then OK 0%float
    else Raise (ValueError "could not convert string to float");
  str_of_float := fun f =>
    if PrimFloat.eqb f 0.5%float then "0.5"
    else if PrimFloat.eqb f 0%float then "0.0" else "1.0";
  os_path_isabs := startswith "/";
  os_path_join := fun a b => if startswith "/" b then b else a +:+ "/" +:+ b;
  Tileset_open := fun _ => Raise (LibraryError "No such file or directory");
  num_tiles := fun t =>
    match tileset_image t with
    | Some i =>
        (fst (image_size i) / fst (tileset_tile_size t))
        * (snd (image_size i) / snd (tileset_tile_size t))
    | None => 0
    end;
  object_tile_size := fun _ _ => None
|}.


(** * What the writers build *)

(** The trees of the writers when lxml accepts every string they pass:
    the same constructions without the checks.  The statements below say
    what is written in terms of these, and the lemmas of the section on
    what lxml accepts connect them with the writers themselves. *)

Definition plain_element (tag : string) (attrib : gmap string string) : Element :=
  mkElement tag attrib None [].

Definition with_attrib (key value : string) (e : Element) : Element :=
  mkElement (tag e) (<[key := value]> (attrib e)) (text e) (children e).

Definition with_text (data : string) (e : Element) : Element :=
  mkElement (tag e) (attrib e) (Some data) (children e).

Definition with_properties (parent : Element) (props : gmap string string) : Element :=
  if is_empty props then parent
  else
    let element := plain_element "properties" ∅ in
    let element :=
      fold_left
        (fun element '(key, value) =>
           append element
             (plain_element "property" (dict [("name", key); ("value", value)])))
        (map_to_list props) element in
    append parent element.

Definition written_image (image : Image) (base_path : option string) : Element :=
  let element := plain_element "image" (dict [("source", image_source image)]) in
  let element :=
    if negb (snd (image_size image) =? 0)
    then with_attrib "height" (str (snd (image_size image))) element
    else element in
  let element :=
    if negb (fst (image_size image) =? 0)
    then with_attrib "width" (str (fst (image_size image))) element
    else element in
  match image_trans image with
  | Some (c :: rgb) => with_attrib "trans" (to_rgb (c :: rgb)) element
  | _ => element
  end.

Definition with_tile (element : Element) (item : Z * gmap string string) : Element :=
  let '(tile_no, props) := item in
  if negb (is_empty props) then
    let tile_elem := plain_element "tile" (dict [("id", str tile_no)]) in
    append element (with_properties tile_elem props)
  else element.

Definition written_tileset (tileset : Tileset) (base_path : option string)
    (first_gid : option Z) : Element :=
  match tileset_source tileset with
  | Some source =>
      let attrib := dict [("source", source)] in
      let attrib :=
        if int_truthy first_gid
        then <["firstgid" := str (default 0 first_gid)]> attrib
        else attrib in
      plain_element "tileset" attrib
  | None =>
      let attrib :=
        dict [("name", tileset_name tileset);
              ("tileheight", str (snd (tileset_tile_size tileset)));
              ("tilewidth", str (fst (tileset_tile_size tileset)))] in
      let attrib :=
        if int_truthy first_gid
        then <["firstgid" := str (default 0 first_gid)]> attrib
        else attrib in
      let element := plain_element "tileset" attrib in
      let element :=
        if negb (tileset_spacing tileset =? 0)
        then with_attrib "spacing" (str (tileset_spacing tileset)) element
        else element in
      let element :=
        if negb (tileset_margin tileset =? 0)
        then with_attrib "margin" (str (tileset_margin tileset)) element
        else element in
      let element :=
        match tileset_image tileset with
        | Some image => append element (written_image image None)
        | None => element
        end in
      fold_left with_tile (sorted_items (tileset_tile_properties tileset)) element
  end.

Section built.

Variable env : Env.

Definition written_layer (tag name : string) (map : Map) (visible : bool)
    (opacity : float) (properties : gmap string string) : Element :=
  let element :=
    plain_element tag
      (dict [("name", name);
             ("width", str (fst (map_size map)));
             ("height", str (snd (map_size map)))]) in
  let element := if negb visible then with_attrib "visible" "0" element else element in
  let element :=
    if negb (PrimFloat.eqb opacity 1%float)
    then with_attrib "opacity" (str_of_float env opacity) element
    else element in
  with_properties element properties.

(** What is left to go wrong in [tile_layer_to_element] once the layer
    element is built: packing, the compression, the encoding. *)
Definition written_tile_layer (map : Map) (layer : ArrayMapLayer) : result Element :=
  let element :=
    written_layer "layer" (tiles_name layer) map (tiles_visible layer)
      (tiles_opacity layer) (tiles_properties layer) in
  let data := tiles_data layer in
  try data <- struct_pack data in
  let compression := default (Some "zlib") (tiles_compression layer) in
  let encoding := default (Some "base64") (tiles_encoding layer) in
  let extra_attrib : gmap string string := ∅ in
  let extra_attrib :=
    if opt_truthy compression
    then <["compression" := default EmptyString compression]> extra_attrib
    else extra_attrib in
  let extra_attrib :=
    if opt_truthy encoding
    then <["encoding" := default EmptyString encoding]> extra_attrib
    else extra_attrib in
  try (data, extra_attrib) <-
    (if is_str compression "gzip" then
       try data <- gzip_write env (tiles_mtime layer) data in
       OK (data, extra_attrib)
     else if is_str compression "zlib" then
       OK (zlib_compress env data, <["compression" := "zlib"]> extra_attrib)
     else if opt_truthy compression then Raise (ValueError "Bad compression")
     else OK (data, extra_attrib)) in
  try (data, extra_attrib) <-
    (if is_str encoding "base64" then
       OK (b64encode data, <["encoding" := "base64"]> extra_attrib)
     else Raise (ValueError "Bad encoding")) in
  let data_elem := plain_element "data" extra_attrib in
  let data_elem := with_text data data_elem in
  OK (append element data_elem).

Definition written_object_attrib (map : Map) (object : MapObject) : gmap string string :=
  let attrib :=
    dict [("x", str (fst (object_pos object))); ("y", str (snd (object_pos object)))] in
  let attrib :=
    if int_truthy (object_value object)
    then <["gid" := str (default 0 (object_value object))]> attrib
    else attrib in
  let attrib :=
    if opt_truthy (object_name object)
    then <["name" := default EmptyString (object_name object)]> attrib
    else attrib in
  let attrib :=
    if opt_truthy (object_type object)
    then <["type" := default EmptyString (object_type object)]> attrib
    else attrib in
  if negb (bool_decide (object_size object = (0, 0)))
     && negb (match object_tile_size env map object with
              | Some size => bool_decide (size = object_size object)
              | None => false
              end)
  then <["height" := str (snd (object_size object))]>
         (<["width" := str (fst (object_size object))]> attrib)
  else attrib.

Definition with_object (map : Map) (element : Element) (object : MapObject) : Element :=
  append element (plain_element "object" (written_object_attrib map object)).

Definition written_object_layer (map : Map) (layer : ObjectLayer) : Element :=
  let element :=
    written_layer "objectgroup" (objects_name layer) map (objects_visible layer)
      (objects_opacity layer) (objects_properties layer) in
  fold_left (with_object map) (objects layer) element.

Definition written_map_layer (map : Map) (layer : Layer) : result Element :=
  match layer with
  | Objects layer => OK (written_object_layer map layer)
  | Tiles layer => written_tile_layer map layer
  end.

Definition written_map (map : Map) (base_path : option string) : result Element :=
  let elem :=
    plain_element "map"
      (dict [("version", "1.0");
             ("orientation", map_orientation map);
             ("width", str (fst (map_size map)));
             ("height", str (snd (map_size map)));
             ("tilewidth", str (fst (map_tile_size map)));
             ("tileheight", str (snd (map_tile_size map)))]) in
  let elem := with_properties elem (map_properties map) in
  let elem :=
    fold_left append
      (imap (fun i tileset => written_tileset tileset base_path (Some (first_gid env map i)))
         (map_tilesets map))
      elem in
  for_each
    (fun elem layer => try e <- written_map_layer map layer in OK (append elem e))
    elem (map_layers map).

End built.

(** ** What lxml accepts *)

(** The keys and the values of a property bag all pass lxml's check. *)
Definition accepted_bag (props : gmap string string) : bool :=
  bool_decide
    (map_Forall
       (fun key value => xml_compatible key = true /\ xml_compatible value = true)
       props).

(** The strings [write_tileset] passes: the source of a reference; the
    name, the source of the image and the bags of the tiles otherwise. *)
Definition accepted_tileset (tileset : Tileset) : bool :=
  match tileset_source tileset with
  | Some source => xml_compatible source
  | None =>
      xml_compatible (tileset_name tileset)
      && match tileset_image tileset with
         | Some image => xml_compatible (image_source image)
         | None => true
         end
      && bool_decide
           (map_Forall (fun _ props => accepted_bag props = true)
              (tileset_tile_properties tileset))
  end.

(** The strings both layer writers pass for the layer itself: the name,
    the opacity as [str] prints it (it is not written when it is 1), the
    properties. *)
Definition accepted_layer (env : Env) (name : string) (opacity : float)
    (props : gmap string string) : bool :=
  xml_compatible name
  && (PrimFloat.eqb opacity 1%float || xml_compatible (str_of_float env opacity))
  && accepted_bag props.

(** The name and the type of an object, when they are set: text that is
    both ASCII, for [str], and without control characters, for lxml. *)
Definition accepted_object (object : MapObject) : bool :=
  xml_compatible (default EmptyString (object_name object))
  && xml_compatible (default EmptyString (object_type object)).

Definition accepted_object_layer (env : Env) (layer : ObjectLayer) : bool :=
  accepted_layer env (objects_name layer) (objects_opacity layer)
    (objects_properties layer)
  && forallb accepted_object (objects layer).

Definition accepted_tile_layer (env : Env) (layer : ArrayMapLayer) : bool :=
  accepted_layer env (tiles_name layer) (tiles_opacity layer) (tiles_properties layer).

Definition accepted_map_layer (env : Env) (layer : Layer) : bool :=
  match layer with
  | Tiles layer => accepted_tile_layer env layer
  | Objects layer => accepted_object_layer env layer
  end.

(** Every string of the map that the writer hands to lxml passes its
    check. *)
Definition accepted_map (env : Env) (map : Map) : bool :=
  xml_compatible (map_orientation map)
  && accepted_bag (map_properties map)
  && forallb accepted_tileset (map_tilesets map)
  && forallb (accepted_map_layer env) (map_layers map).

(** * Vocabulary of the statements *)

(** The hexadecimal digit of a number below 16. *)
Definition hex_digit (n : Z) : ascii :=
  match String.get (Z.to_nat n) "0123456789abcdef" with
  | Some c => c
  | None => "0"%char
  end.

(** A [property] element that carries exactly a name and a value. *)
Definition is_property (child : Element) (item : string * string) : Prop :=
  tag child = "property"
  /\ attrib child = <["name" := fst item]> (<["value" := snd item]> ∅).

Definition twice_k : Element :=
  mkElement "properties" ∅ None
    [mkElement "property" (<["name" := "k"]> (<["value" := "1"]> ∅)) None [];
     mkElement "property" (<["name" := "k"]> (<["value" := "2"]> ∅)) None []].



Definition map_attributes : list string :=
  ["version"; "orientation"; "width"; "height"; "tilewidth"; "tileheight"].

(** The attribute is there and [int] accepts its value. *)
Definition numeric_attribute (a : gmap string string) (key : string) : Prop :=
  exists s n, a !! key = Some s /\ int s = OK n.

(** A root element that gets as far as the check for unexpected
    attributes: it is a [map] of version 1.0 whose declared attributes
    are there, the four sizes numeric. *)
Definition declared_attributes_valid (root : Element) : Prop :=
  tag root = "map"
  /\ attrib root !! "version" = Some "1.0"
  /\ numeric_attribute (attrib root) "width"
  /\ numeric_attribute (attrib root) "height"
  /\ numeric_attribute (attrib root) "tilewidth"
  /\ numeric_attribute (attrib root) "tileheight"
  /\ is_Some (attrib root !! "orientation").

(** What is left of the root's attributes when [read_map] has popped the
    six it knows. *)
Definition leftover (a : gmap string string) : gmap string string :=
  delete "orientation" (delete "tileheight" (delete "tilewidth"
    (delete "height" (delete "width" (delete "version" a))))).


Definition map_with_extra_attribute : Element :=
  mkElement "map"
    (dict [("version", "1.0"); ("orientation", "orthogonal"); ("width", "2");
           ("height", "1"); ("tilewidth", "8"); ("tileheight", "8");
           ("colour", "red")])
    None [].


(** The value of the byte at position [i] of a byte string (0 past its end). *)
Definition byte_at (b : string) (i : nat) : Z :=
  match String.get i b with
  | Some c => ord c
  | None => 0
  end.

(** The unsigned 32-bit integer whose four bytes, least significant
    first, are those of cell [i]. *)
Definition little_endian_at (b : string) (i : nat) : Z :=
  byte_at b (4 * i) + 256 * byte_at b (4 * i + 1)
  + 65536 * byte_at b (4 * i + 2) + 16777216 * byte_at b (4 * i + 3).


(** The byte string with these byte values. *)
Definition bytes (values : list Z) : string :=
  fold_right (fun n s => String (chr n) s) EmptyString values.

Definition data_child (text : string) : Element :=
  mkElement "data" (dict [("encoding", "base64")]) (Some text) [].

Definition layer_of (width height text : string) : Element :=
  mkElement "layer" (dict [("name", "L"); ("width", width); ("height", height)]) None
    [data_child text].

Definition layer_read (data : list Z) : ArrayMapLayer :=
  mkArrayMapLayer "L" 1%float true ∅ data (Some (Some "base64")) (Some None) None.


(** The value [getattr(layer, 'compression', 'zlib')] yields. *)
Definition compression_of (layer : ArrayMapLayer) : option string :=
  default (Some "zlib") (tiles_compression layer).

(** The value [getattr(layer, 'encoding', 'base64')] yields. *)
Definition encoding_of (layer : ArrayMapLayer) : option string :=
  default (Some "base64") (tiles_encoding layer).

(** The first statements of [tile_layer_to_element]: the layer element
    with its attributes and properties. *)
Definition tile_layer_frame (env : Env) (map : Map) (layer : ArrayMapLayer)
  : result Element :=
  layer_element env "layer" (tiles_name layer) map (tiles_visible layer)
    (tiles_opacity layer) (tiles_properties layer).

(** A compression the writer does not know: a non-empty string other
    than gzip and zlib. *)
Definition bad_compression (layer : ArrayMapLayer) : Prop :=
  is_str (compression_of layer) "gzip" = false
  /\ is_str (compression_of layer) "zlib" = false
  /\ opt_truthy (compression_of layer) = true.

Definition bad_encoding (layer : ArrayMapLayer) : Prop :=
  is_str (encoding_of layer) "base64" = false.

Definition layer_lzma : ArrayMapLayer :=
  mkArrayMapLayer "L" 1%float true ∅ [-1] (Some (Some "base64")) (Some (Some "lzma")) None.

Definition layer_hex : ArrayMapLayer :=
  mkArrayMapLayer "L" 1%float true ∅ [-1] (Some (Some "hex")) (Some (Some "zlib")) None.

Definition layer_lzma_ok : ArrayMapLayer :=
  mkArrayMapLayer "L" 1%float true ∅ [1] (Some (Some "base64")) (Some (Some "lzma")) None.


(** The same platform and libraries with the clock reading [now]. *)
Definition at_time (now : Z) (env : Env) : Env :=
  mkEnv (sizeof_long env) now (zlib_compress env) (zlib_decompress env)
    (gzip_body env) (gzip_read env) (float_of_str env) (str_of_float env)
    (os_path_isabs env) (os_path_join env) (Tileset_open env) (num_tiles env)
    (object_tile_size env).

(** A layer whose element does not depend on the clock: not a tile layer
    written with gzip, or one that has an [mtime]. *)
Definition clock_free (layer : Layer) : Prop :=
  match layer with
  | Tiles layer =>
      is_str (default (Some "zlib") (tiles_compression layer)) "gzip" = true ->
      is_Some (tiles_mtime layer)
  | Objects _ => True
  end.

(** The text of the [data] element of the first layer of a map element
    that has neither properties nor tilesets. *)
Definition data_text (elem : Element) : option string :=
  match children elem with
  | layer :: _ =>
      match children layer with
      | data :: _ => text data
      | [] => None
      end
  | [] => None
  end.

Definition gzip_map : Map :=
  mkMap (1, 1) (8, 8) "orthogonal" None ∅ []
    [Tiles (mkArrayMapLayer "L" 1%float true ∅ [1]
              (Some (Some "base64")) (Some (Some "gzip")) None)].

Definition gzip_map_mtime : Map :=
  mkMap (1, 1) (8, 8) "orthogonal" None ∅ []
    [Tiles (mkArrayMapLayer "L" 1%float true ∅ [1]
              (Some (Some "base64")) (Some (Some "gzip")) (Some 0))].



Definition layer_properties (layer : Layer) : gmap string string :=
  match layer with
  | Tiles layer => tiles_properties layer
  | Objects layer => objects_properties layer
  end.

(** Every property bag of the map is empty: its own, those of its layers
    and those of the tiles of its tilesets. *)
Definition no_properties (map : Map) : Prop :=
  map_properties map = ∅
  /\ Forall (fun layer => layer_properties layer = ∅) (map_layers map)
  /\ Forall (fun tileset =>
               forall id props,
                 tileset_tile_properties tileset !! id = Some props -> props = ∅)
       (map_tilesets map).


Definition plain_map : Map :=
  mkMap (2, 1) (8, 8) "orthogonal" None ∅
    [mkTileset "t" (8, 8) 0 0 (Some (mkImage "t.png" None (16, 8))) {[3 := ∅]} None None]
    [Tiles (mkArrayMapLayer "L" 1%float true ∅ [1; 2]
              (Some (Some "base64")) (Some (Some "zlib")) None);
     Objects (mkObjectLayer "O" 1%float true ∅
                [mkMapObject (1, 2) (0, 0) (Some 1) (Some "n") None])].






Definition coloured_map (rgb : list Z) (read_first_gid : option Z) : Map :=
  mkMap (1, 1) (8, 8) "orthogonal" None ∅
    [mkTileset "t" (8, 8) 0 0 (Some (mkImage "t.png" (Some rgb) (16, 8))) ∅ None
       read_first_gid]
    [].



(** A string without white space. *)
Fixpoint no_space (s : string) : Prop :=
  match s with
  | EmptyString => True
  | String c s' => is_space c = false /\ no_space s'
  end.

Definition property_element (item : string * string) : Element :=
  plain_element "property" (dict [("name", fst item); ("value", snd item)]).

(** The element [append_properties] adds for a bag that is not empty. *)
Definition properties_element (props : gmap string string) : Element :=
  mkElement "properties" ∅ None (map property_element (map_to_list props)).

Definition layer_attributes : list string :=
  ["name"; "opacity"; "visible"; "width"; "height"].

(** What is left of a layer's attributes when the reader has popped the
    five it knows. *)
Definition layer_leftover (a : gmap string string) : gmap string string :=
  delete "height" (delete "width" (delete "visible" (delete "opacity"
    (delete "name" a)))).

(** The attributes both layer writers give a layer element. *)
Definition layer_attrib (env : Env) (name : string) (map : Map) (visible : bool)
    (opacity : float) : gmap string string :=
  let a := dict [("name", name); ("width", str (fst (map_size map)));
                 ("height", str (snd (map_size map)))] in
  let a := if negb visible then <["visible" := "0"]> a else a in
  if negb (PrimFloat.eqb opacity 1%float)
  then <["opacity" := str_of_float env opacity]> a else a.

(** The compressors give back what they were given. *)
Definition lossless (env : Env) : Prop :=
  (forall data, zlib_decompress env (zlib_compress env data) = OK data)
  /\ (forall mtime header data,
        gzip_header mtime = OK header ->
        gzip_read env (header +:+ gzip_body env data) = OK data).

(** An opacity that comes back from its attribute: 1 is not written,
    any other value is printed by [str] and read by [float]. *)
Definition opacity_prints (env : Env) (opacity : float) : Prop :=
  if PrimFloat.eqb opacity 1%float then opacity = 1%float
  else float_of_str env (str_of_float env opacity) = OK opacity.

Definition supported (compression : option string) : Prop :=
  compression = None \/ compression = Some "zlib" \/ compression = Some "gzip".

(** A tile id the writer packs and the reader stores: one of 32 bits
    that fits a C [long] of the platform (every id of 32 bits does when
    the [long] has 8 bytes). *)
Definition tile_id (env : Env) (v : Z) : Prop :=
  0 <= v < 4294967296 /\ v < 2 ^ (8 * sizeof_long env - 1).

(** A tile layer with valid fields: tile ids as above, base64, a
    supported compression and, when that is gzip, a time stamp of 32 bits
    (the [mtime] of the layer, or the clock when it has none). *)
Definition valid_tile_layer (env : Env) (layer : ArrayMapLayer) : Prop :=
  Forall (tile_id env) (tiles_data layer)
  /\ tiles_encoding layer = Some (Some "base64")
  /\ (exists c, tiles_compression layer = Some c /\ supported c)
  /\ (tiles_compression layer = Some (Some "gzip") ->
      0 <= default (time_time env) (tiles_mtime layer) < 4294967296)
  /\ opacity_prints env (tiles_opacity layer).

(** The layer as the reader returns it: it sets no [mtime]. *)
Definition without_mtime (layer : ArrayMapLayer) : ArrayMapLayer :=
  mkArrayMapLayer (tiles_name layer) (tiles_opacity layer) (tiles_visible layer)
    (tiles_properties layer) (tiles_data layer) (tiles_encoding layer)
    (tiles_compression layer) None.


(** The two characters [to_rgb] emits for a component. *)
Definition rgb_component (p : Z) : string := ljust 2 "0" (str_drop 2 (hex p)).

(** A colour component that [to_rgb] writes in full: 0, or a byte with
    two hexadecimal digits. *)
Definition written_in_full (p : Z) : Prop := p = 0 \/ 16 <= p < 256.

(** An image whose colour the writer carries: no transparent colour, or
    three components written in full. *)
Definition two_digit_colour (trans : option (list Z)) : Prop :=
  match trans with
  | None => True
  | Some rgb =>
      exists r g b,
        rgb = [r; g; b]
        /\ written_in_full r /\ written_in_full g /\ written_in_full b
  end.

Definition image_attributes : list string := ["trans"; "source"; "width"; "height"].

Definition image_leftover (a : gmap string string) : gmap string string :=
  delete "height" (delete "width" (delete "source" (delete "trans" a))).

(** The [tile] element the writer emits for a tile with properties. *)
Definition tile_element (item : Z * gmap string string) : Element :=
  mkElement "tile" (dict [("id", str (fst item))]) None
    [properties_element (snd item)].

(** The tileset as the reader returns it: [firstgid] is recorded. *)
Definition with_first_gid (gid : Z) (tileset : Tileset) : Tileset :=
  mkTileset (tileset_name tileset) (tileset_tile_size tileset)
    (tileset_margin tileset) (tileset_spacing tileset) (tileset_image tileset)
    (tileset_tile_properties tileset) (tileset_source tileset) (Some gid).

(** An embedded tileset that comes back: its image, if any, has a colour
    the writer can carry, and no tile has an empty bag (the writer leaves
    those out). *)
Definition valid_tileset (tileset : Tileset) : Prop :=
  tileset_source tileset = None
  /\ match tileset_image tileset with
     | Some image => two_digit_colour (image_trans image)
     | None => True
     end
  /\ (forall id props,
        tileset_tile_properties tileset !! id = Some props -> props <> ∅).

Definition tileset_attributes : list string :=
  ["source"; "name"; "tilewidth"; "tileheight"; "margin"; "spacing"; "firstgid"].

Definition tileset_leftover (a : gmap string string) : gmap string string :=
  delete "firstgid" (delete "spacing" (delete "margin" (delete "tileheight"
    (delete "tilewidth" (delete "name" (delete "source" a)))))).

(** The [object] element the writer emits. *)
Definition object_element (env : Env) (map : Map) (object : MapObject) : Element :=
  plain_element "object" (written_object_attrib env map object).

(** An object that comes back: what the writer leaves out (no tile, an
    empty name or type, the size 0 x 0 or the size of its tile) is what
    the reader fills in. *)
Definition valid_object (env : Env) (map : Map) (object : MapObject) : Prop :=
  (forall v, object_value object = Some v -> v <> 0)
  /\ (forall s, object_name object = Some s -> s <> EmptyString)
  /\ (forall s, object_type object = Some s -> s <> EmptyString)
  /\ (object_size object = (0, 0)
      \/ object_tile_size env map object <> Some (object_size object)).

Definition valid_object_layer (env : Env) (map : Map) (layer : ObjectLayer) : Prop :=
  opacity_prints env (objects_opacity layer)
  /\ Forall (valid_object env map) (objects layer).

Definition object_attributes : list string :=
  ["x"; "y"; "gid"; "name"; "type"; "width"; "height"].

Definition object_leftover (a : gmap string string) : gmap string string :=
  delete "height" (delete "width" (delete "type" (delete "name" (delete "gid"
    (delete "y" (delete "x" a)))))).

(** Is the size of the object written? *)
Definition size_written (env : Env) (map : Map) (object : MapObject) : bool :=
  negb (bool_decide (object_size object = (0, 0)))
  && negb (match object_tile_size env map object with
           | Some size => bool_decide (size = object_size object)
           | None => false
           end).

Definition valid_layer (env : Env) (map : Map) (layer : Layer) : Prop :=
  match layer with
  | Tiles layer => valid_tile_layer env layer
  | Objects layer => valid_object_layer env map layer
  end.

(** A map all of whose tilesets and layers come back: lxml accepts its
    strings, and the fields of its tilesets and layers are as above. *)
Definition valid_map (env : Env) (map : Map) : Prop :=
  accepted_map env map = true
  /\ Forall valid_tileset (map_tilesets map)
  /\ Forall (valid_layer env map) (map_layers map).

Definition layer_as_read (layer : Layer) : Layer :=
  match layer with
  | Tiles layer => Tiles (without_mtime layer)
  | Objects layer => Objects layer
  end.

(** The map as the reader returns it: the fields the reader sets itself
    ([base_path], the [firstgid] it records for every tileset) have the
    values it gives them, and no layer has an [mtime]. *)
Definition map_as_read (env : Env) (base_path : option string) (map : Map) : Map :=
  mkMap (map_size map) (map_tile_size map) (map_orientation map) base_path
    (map_properties map)
    (imap (fun i tileset => with_first_gid (first_gid env map i) tileset)
       (map_tilesets map))
    (layer_as_read <$> map_layers map).

(** The number of tiles of a tileset does not depend on the [firstgid]
    the reader recorded for it. *)
Definition tile_count_stable (env : Env) : Prop :=
  forall gid tileset, num_tiles env (with_first_gid gid tileset) = num_tiles env tileset.

(** The attributes [write_map] gives the root element. *)
Definition map_attrib (map : Map) : gmap string string :=
  dict [("version", "1.0");
        ("orientation", map_orientation map);
        ("width", str (fst (map_size map)));
        ("height", str (snd (map_size map)));
        ("tilewidth", str (fst (map_tile_size map)));
        ("tileheight", str (snd (map_tile_size map)))].

Definition sample_map : Map :=
  mkMap (2, 1) (8, 8) "orthogonal" None {["author" := "me"]}
    [mkTileset "t" (8, 8) 0 0 (Some (mkImage "t.png" (Some [255; 0; 128]) (16, 8)))
       {[1 := {["solid" := "yes"]}]} None None]
    [Tiles (mkArrayMapLayer "L" 1%float true ∅ [1; 2]
              (Some (Some "base64")) (Some (Some "zlib")) None);
     Tiles (mkArrayMapLayer "G" 0.5%float false {["a" := "b"]} [2; 1]
              (Some (Some "base64")) (Some (Some "gzip")) (Some 7));
     Tiles (mkArrayMapLayer "N" 1%float true ∅ [0; 4294967295]
              (Some (Some "base64")) (Some None) None);
     Objects (mkObjectLayer "O" 1%float true ∅
                [mkMapObject (1, -2) (3, 4) (Some 1) (Some "n") None])].

(** A map that is all it can be read as, but for the empty bag of tile 3. *)
Definition empty_bag_map (tile_properties : gmap Z (gmap string string)) : Map :=
  mkMap (1, 1) (8, 8) "orthogonal" None ∅
    [mkTileset "t" (8, 8) 0 0 None tile_properties None (Some 1)]
    [].

(** * More of the reader and the writer: vocabulary *)

(** Every character of the string is a hexadecimal digit. *)
Fixpoint hex_digits (s : string) : bool :=
  match s with
  | EmptyString => true
  | String c s' => bool_decide (is_Some (hex_digit_value c)) && hex_digits s'
  end.

(** The string [from_rgb] looks at: its argument without one leading [#]. *)
Definition colour_digits (s : string) : string :=
  if startswith "#" s then str_drop 1 s else s.

(** What a colour component comes back as when it is written by [to_rgb]
    and read by [from_rgb]. *)
Definition read_back (p : Z) : Z := if p <? 16 then 16 * p else p.

(** The file [read_tileset] opens for a reference: the source joined to
    the base path, or the source itself when there is no base path. *)
Definition real_source (env : Env) (base_path : option string) (source : string)
  : string :=
  match base_path with
  | Some b => if truthy b then os_path_join env b source else source
  | None => source
  end.

(** A tile with a bag that is not empty: the tiles [write_tileset] writes. *)
Definition has_properties (item : Z * gmap string string) : Prop := snd item <> ∅.

(** A tileset without image: tiles 7 and 2 have a property each, tile 5
    has an empty bag. *)
Definition tagged_tiles : Tileset :=
  mkTileset "t" (8, 8) 0 0 None
    {[7 := {["a" := "b"]}; 2 := {["c" := "d"]}; 5 := ∅]} None None.

(** A [tileset] element with an image of 16 x 8 and a tile with a
    property. *)
Definition tileset_element : Element :=
  mkElement "tileset"
    (dict [("name", "t"); ("tilewidth", "8"); ("tileheight", "8"); ("firstgid", "1")])
    None
    [mkElement "image" (dict [("source", "t.png"); ("width", "16"); ("height", "8")])
       None [];
     mkElement "tile" (dict [("id", "1"); ("terrain", "0,0,0,0")]) None
       [mkElement "properties" ∅ None
          [mkElement "property" (dict [("name", "solid"); ("value", "yes")]) None []]]].

Definition tileset_read : Tileset :=
  mkTileset "t" (8, 8) 0 0 (Some (mkImage "t.png" None (16, 8)))
    {[1 := {["solid" := "yes"]}]} None (Some 1).

(** What the reader leaves in a tile layer: base64, a compression it
    knows, tile ids of 32 bits. *)
Definition as_read (layer : ArrayMapLayer) : Prop :=
  tiles_encoding layer = Some (Some "base64")
  /\ (exists c, tiles_compression layer = Some c /\ supported c)
  /\ Forall (fun v => 0 <= v < 4294967296) (tiles_data layer).

(** What the attributes of a layer element say, as both layer readers
    take them: the name, the opacity (1 when left out), whether the layer
    is visible (it is, unless [visible] reads as 0), and a width and
    height that are those of the map. *)
Definition layer_attributes_say (env : Env) (elem : Element) (map : Map)
    (name : string) (opacity : float) (visible : bool) : Prop :=
  attrib elem !! "name" = Some name
  /\ float_default env (attrib elem !! "opacity") = OK opacity
  /\ (exists v, int_default (attrib elem !! "visible") 1 = OK v
                /\ visible = negb (v =? 0))
  /\ (exists sw sh,
         attrib elem !! "width" = Some sw /\ attrib elem !! "height" = Some sh
         /\ int sw = OK (fst (map_size map)) /\ int sh = OK (snd (map_size map)))
  /\ (forall k, is_Some (attrib elem !! k) -> k ∈ layer_attributes).

(** The children of an object layer element that the reader looks at. *)
Definition object_layer_child (child : Element) : Prop :=
  tag child = "properties" \/ tag child = "object".

(** The children of a [map] element that become layers. *)
Definition layer_child (child : Element) : Prop :=
  tag child = "layer" \/ tag child = "objectgroup".

(** The layer is what the layer reader for the child's tag returns. *)
Definition reads_layer (env : Env) (map : Map) (child : Element) (layer : Layer) : Prop :=
  match layer with
  | Tiles layer =>
      tag child = "layer" /\ tile_layer_from_element env child map = OK layer
  | Objects layer =>
      tag child = "objectgroup" /\ object_layer_from_element env child map = OK layer
  end.

(** What the attributes of a [map] element say: version 1.0, the size,
    the tile size and the orientation of the map. *)
Definition map_attributes_say (root : Element) (map : Map) : Prop :=
  tag root = "map"
  /\ attrib root !! "version" = Some "1.0"
  /\ (exists sw sh stw sth,
         attrib root !! "width" = Some sw /\ int sw = OK (fst (map_size map))
         /\ attrib root !! "height" = Some sh /\ int sh = OK (snd (map_size map))
         /\ attrib root !! "tilewidth" = Some stw
         /\ int stw = OK (fst (map_tile_size map))
         /\ attrib root !! "tileheight" = Some sth
         /\ int sth = OK (snd (map_tile_size map)))
  /\ attrib root !! "orientation" = Some (map_orientation map).

(** The fields of a map that the loop of [read_map] leaves alone. *)
Definition same_frame (map map' : Map) : Prop :=
  map_size map' = map_size map
  /\ map_tile_size map' = map_tile_size map
  /\ map_orientation map' = map_orientation map
  /\ map_base_path map' = map_base_path map.

(** What the attributes of an embedded [tileset] element say: the name
    and the tile size, and the margin, the spacing and the first global
    tile id, each 0 when it is left out. *)
Definition tileset_attributes_say (elem : Element) (tileset : Tileset) : Prop :=
  attrib elem !! "name" = Some (tileset_name tileset)
  /\ (exists stw sth,
         attrib elem !! "tilewidth" = Some stw
         /\ int stw = OK (fst (tileset_tile_size tileset))
         /\ attrib elem !! "tileheight" = Some sth
         /\ int sth = OK (snd (tileset_tile_size tileset)))
  /\ int_default (attrib elem !! "margin") 0 = OK (tileset_margin tileset)
  /\ int_default (attrib elem !! "spacing") 0 = OK (tileset_spacing tileset)
  /\ (exists gid, int_default (attrib elem !! "firstgid") 0 = OK gid
                  /\ tileset_read_first_gid tileset = Some gid)
  /\ (forall k, is_Some (attrib elem !! k) -> k ∈ tileset_attributes).

(** The fields of a tileset that the loop of [read_tileset] leaves alone. *)
Definition same_header (tileset tileset' : Tileset) : Prop :=
  tileset_name tileset' = tileset_name tileset
  /\ tileset_tile_size tileset' = tileset_tile_size tileset
  /\ tileset_margin tileset' = tileset_margin tileset
  /\ tileset_spacing tileset' = tileset_spacing tileset
  /\ tileset_read_first_gid tileset' = tileset_read_first_gid tileset.

(** An [image] element that gives no height, and the image it is read as. *)
Definition image_element : Element :=
  mkElement "image" (dict [("source", "t.png"); ("width", "16")]) None [].

Definition image_read : Image := mkImage "t.png" None (16, 0).

(** An [object] element with a name and no size, and the object it is
    read as. *)
Definition door_element : Element :=
  mkElement "object" (dict [("x", "3"); ("y", "4"); ("name", "door")]) None [].

Definition door : MapObject := mkMapObject (3, 4) (0, 0) None (Some "door") None.

(** An [objectgroup] element with two objects and a child the reader
    does not know. *)
Definition objectgroup_element : Element :=
  mkElement "objectgroup" (dict [("name", "O"); ("width", "2"); ("height", "1")]) None
    [mkElement "object" (dict [("x", "1"); ("y", "2"); ("gid", "1")]) None [];
     mkElement "comment" ∅ (Some "not read") [];
     mkElement "object"
       (dict [("x", "3"); ("y", "4"); ("width", "5"); ("height", "6"); ("name", "door")])
       None []].

Definition objectgroup_read : ObjectLayer :=
  mkObjectLayer "O" 1%float true ∅
    [mkMapObject (1, 2) (0, 0) (Some 1) None None;
     mkMapObject (3, 4) (5, 6) None (Some "door") None].

(** A [map] element with a tileset, a tile layer and an object layer. *)
Definition small_root : Element :=
  mkElement "map"
    (dict [("version", "1.0"); ("orientation", "hexagonal"); ("width", "2");
           ("height", "1"); ("tilewidth", "8"); ("tileheight", "8")])
    None
    [tileset_element; layer_of "2" "1" "AQAAAAIAAAA="; objectgroup_element].

Definition small_map : Map :=
  mkMap (2, 1) (8, 8) "hexagonal" None ∅ [tileset_read]
    [Tiles (layer_read [1; 2]); Objects objectgroup_read].

(** The object as it comes back from its element: a tile id 0, an empty
    name and an empty type are not written and read as none, and a size
    that is not written is read as 0 x 0. *)
Definition object_as_read (env : Env) (map : Map) (object : MapObject) : MapObject :=
  mkMapObject (object_pos object)
    (if size_written env map object then object_size object else (0, 0))
    (if int_truthy (object_value object) then object_value object else None)
    (if opt_truthy (object_name object) then object_name object else None)
    (if opt_truthy (object_type object) then object_type object else None).

(** The bags of the tiles of a tileset that are written: those that are
    not empty. *)
Definition written_bags (tp : gmap Z (gmap string string)) : gmap Z (gmap string string) :=
  filter has_properties tp.

(** An object layer whose objects are not all written in full: the
    first has the tile id 0 and an empty name. *)
Definition loose_objects : ObjectLayer :=
  mkObjectLayer "O" 0.5%float false {["a" := "b"]}
    [mkMapObject (1, 2) (0, 0) (Some 0) (Some "") None;
     mkMapObject (3, 4) (5, 6) (Some 7) (Some "door") (Some "exit")].
(** * Properties of the reader and the writer *)

(** ** Colours *)

Example to_rgb_red : to_rgb [255; 0; 0] = "ff0000".
Proof. reflexivity. Qed.

Example from_rgb_red : from_rgb "#ff0000" = OK [255; 0; 0].
Proof. reflexivity. Qed.

Example from_rgb_short : from_rgb "f00" = OK [255; 0; 0].
Proof. reflexivity. Qed.

(** The component the writer emits for a byte: two digits from 16 on,
    one digit followed by a zero below. *)
Lemma to_rgb_component (p : Z) :
  0 <= p < 256 ->
  to_rgb [p]
  = if p <? 16 then String (hex_digit p) "0"
    else String (hex_digit (p / 16)) (String (hex_digit (p mod 16)) EmptyString).
Proof.
  intros Hp.
  assert (forallb
            (fun n =>
               let p := Z.of_nat n in
               String.eqb (to_rgb [p])
                 (if p <? 16 then String (hex_digit p) "0"
                  else String (hex_digit (p / 16))
                         (String (hex_digit (p mod 16)) EmptyString)))
            (seq 0 256) = true) as Hall by (vm_compute; reflexivity).
  rewrite forallb_forall in Hall.
  specialize (Hall (Z.to_nat p)).
  rewrite Z2Nat.id in Hall by lia.
  apply String.eqb_eq, Hall, in_seq. lia.
Qed.

(** C4: [to_rgb] pads a component below 16 on the right, so (1, 2, 3)
    becomes "102030" and not "010203", and reads back as (16, 32, 48). *)
Theorem to_rgb_pads_on_the_right :
  to_rgb [1; 2; 3] = "102030" /\ from_rgb (to_rgb [1; 2; 3]) = OK [16; 32; 48].
Proof. split; reflexivity. Qed.

(** ** The [result] monad and loops *)

Lemma bind_OK {A B : Type} (c : result A) (k : A -> result B) (b : B) :
  bind c k = OK b -> exists a, c = OK a /\ k a = OK b.
Proof. destruct c as [a|e]; simpl; [eauto | discriminate]. Qed.

Lemma assert_OK (cond : bool) (msg : string) (u : unit) :
  assert cond msg = OK u -> cond = true.
Proof. destruct cond; [reflexivity | discriminate]. Qed.

Lemma for_each_app {S A : Type} (body : S -> A -> result S) (s : S) (l1 l2 : list A) :
  for_each body s (l1 ++ l2) = try s' <- for_each body s l1 in for_each body s' l2.
Proof.
  revert s. induction l1 as [|x l1 IH]; intros s; simpl; [reflexivity|].
  destruct (body s x) as [s'|e]; simpl; [apply IH | reflexivity].
Qed.

Lemma for_each_ext {S A : Type} (f g : S -> A -> result S) (l : list A) :
  (forall s x, x ∈ l -> f s x = g s x) ->
  forall s, for_each f s l = for_each g s l.
Proof.
  induction l as [|x l IH]; intros Hfg s; simpl; [reflexivity|].
  rewrite Hfg by apply list_elem_of_here.
  destruct (g s x) as [s'|e]; simpl; [|reflexivity].
  apply IH. intros s0 y Hy. apply Hfg. apply list_elem_of_further, Hy.
Qed.

Lemma string_by_three (P : string -> Prop) :
  P EmptyString ->
  (forall a, P (String a EmptyString)) ->
  (forall a b, P (String a (String b EmptyString))) ->
  (forall a b c rest, P rest -> P (String a (String b (String c rest)))) ->
  forall s, P s.
Proof.
  intros H0 H1 H2 Hstep s.
  remember (String.length s) as n eqn:Hn.
  revert s Hn. induction n as [n IH] using lt_wf_ind. intros s Hn.
  destruct s as [|a [|b [|c rest]]]; auto.
  apply Hstep. apply (IH (String.length rest)); [simpl in Hn; lia | reflexivity].
Qed.

(** A property of the state that every step of a loop keeps holds at the
    end of a loop that started with it. *)
Lemma for_each_invariant_in {S A : Type} (P : S -> Prop) (body : S -> A -> result S)
    (l : list A) :
  (forall s x s', x ∈ l -> P s -> body s x = OK s' -> P s') ->
  forall s s', P s -> for_each body s l = OK s' -> P s'.
Proof.
  induction l as [|x l IH]; intros Hstep s s' Hs Hrun; simpl in Hrun.
  - injection Hrun as <-. exact Hs.
  - apply bind_OK in Hrun as (s1 & H1 & H2).
    apply (IH (fun s0 y s0' Hy => Hstep s0 y s0' (list_elem_of_further _ _ _ Hy)) s1 s');
      [|exact H2].
    apply (Hstep s x s1); [apply list_elem_of_here | exact Hs | exact H1].
Qed.

(** ** dictionaries *)

Lemma is_empty_true (d : gmap string string) : is_empty d = true <-> d = ∅.
Proof. unfold is_empty. apply bool_decide_eq_true. Qed.

Lemma is_empty_false (d : gmap string string) : is_empty d = false <-> d <> ∅.
Proof. unfold is_empty. apply bool_decide_eq_false. Qed.

Lemma pop_Some (key v : string) (d : gmap string string) :
  d !! key = Some v -> pop key d = OK (v, delete key d).
Proof. intros H. unfold pop. rewrite H. reflexivity. Qed.

Lemma pop_None (key : string) (d : gmap string string) :
  d !! key = None -> pop key d = Raise (KeyError key).
Proof. intros H. unfold pop. rewrite H. reflexivity. Qed.

(** ** Property bags *)

Lemma read_property_OK (properties : gmap string string) (child : Element)
    (item : string * string) :
  is_property child item ->
  read_property properties child = OK (<[fst item := snd item]> properties).
Proof.
  intros [Htag Hattrib]. unfold read_property.
  rewrite Htag, Hattrib. simpl.
  rewrite (pop_Some "name" (fst item)) by apply lookup_insert_eq. simpl.
  rewrite delete_insert_eq, delete_insert_ne, delete_empty by done.
  rewrite (pop_Some "value" (snd item)) by apply lookup_insert_eq. simpl.
  rewrite delete_insert_eq, delete_empty.
  reflexivity.
Qed.

Lemma read_property_loop (children : list Element) (items : list (string * string)) :
  Forall2 is_property children items ->
  forall properties,
    for_each read_property properties children
    = OK (fold_left (fun m item => <[fst item := snd item]> m) items properties).
Proof.
  induction 1 as [|child item children items Hhead _ IH]; intros properties; simpl.
  - reflexivity.
  - rewrite (read_property_OK _ _ _ Hhead). simpl. apply IH.
Qed.

Lemma fold_insert_last (items : list (string * string)) :
  forall (m : gmap string string) (name value : string)
         (post pre : list (string * string)),
    items = (pre ++ (name, value) :: post)%list ->
    name ∉ post.*1 ->
    fold_left (fun m item => <[fst item := snd item]> m) items m !! name = Some value.
Proof.
  intros m name value post pre -> Hpost.
  rewrite fold_left_app. simpl.
  generalize (fold_left (λ m item, <[item.1:=item.2]> m) pre m).
  intros m0.
  assert (Hm0 : <[name := value]> m0 !! name = Some value) by apply lookup_insert_eq.
  revert Hm0. generalize (<[name := value]> m0). clear m0.
  induction post as [|[n v] post IH]; intros m0 Hm0; simpl; [exact Hm0|].
  apply IH.
  - intros Hin. apply Hpost. simpl. right. exact Hin.
  - rewrite lookup_insert_ne; [exact Hm0|].
    intros ->. apply Hpost. simpl. left.
Qed.

Lemma fold_insert_absent (items : list (string * string)) :
  forall (m : gmap string string) name,
    name ∉ items.*1 ->
    fold_left (fun m item => <[fst item := snd item]> m) items m !! name = m !! name.
Proof.
  induction items as [|[n v] items IH]; intros m name Hname; simpl; [reflexivity|].
  rewrite IH.
  - apply lookup_insert_ne. intros ->. apply Hname. simpl. left.
  - intros Hin. apply Hname. simpl. right. exact Hin.
Qed.

(** C10: when several [property] children of a [properties] element have
    the same name, [read_properties] succeeds and binds the name to the
    value of the last of them in document order; a name no child has is
    not bound. *)
Theorem read_properties_last_wins (elem : Element) (items : list (string * string)) :
  tag elem = "properties" ->
  attrib elem = ∅ ->
  Forall2 is_property (children elem) items ->
  exists properties,
    read_properties elem = OK properties
    /\ (forall (pre : list (string * string)) (name value : string)
               (post : list (string * string)),
          items = (pre ++ (name, value) :: post)%list ->
          name ∉ post.*1 ->
          properties !! name = Some value)
    /\ (forall name, name ∉ items.*1 -> properties !! name = None).
Proof.
  intros Htag Hattrib Hchildren.
  eexists. split; [|split].
  - unfold read_properties. rewrite Htag, Hattrib. simpl.
    apply read_property_loop. exact Hchildren.
  - intros pre name value post Hitems Hpost.
    eapply fold_insert_last; eassumption.
  - intros name Hname. rewrite fold_insert_absent by exact Hname. apply lookup_empty.
Qed.

Lemma read_properties_last_wins_witness :
  exists properties,
    read_properties twice_k = OK properties /\ properties !! "k" = Some "2".
Proof.
  destruct (read_properties_last_wins twice_k [("k", "1"); ("k", "2")])
    as (properties & Hread & Hlast & _).
  - reflexivity.
  - reflexivity.
  - repeat constructor.
  - exists properties. split; [exact Hread|].
    apply (Hlast [("k", "1")] "k" "2" []); [reflexivity|].
    simpl. apply not_elem_of_nil.
Defined.

(** ** The attributes of the root element *)

Lemma leftover_lookup (a : gmap string string) (k : string) :
  leftover a !! k = if bool_decide (k ∈ map_attributes) then None else a !! k.
Proof.
  unfold leftover, map_attributes.
  case_bool_decide as Hk.
  - repeat (apply elem_of_cons in Hk as [-> | Hk];
            [ repeat first [ apply lookup_delete_eq | rewrite lookup_delete_ne by done ] | ]).
    apply elem_of_nil in Hk as [].
  - repeat (rewrite lookup_delete_ne;
            [| intros <-; apply Hk; repeat first [ apply list_elem_of_here | apply list_elem_of_further ] ]).
    reflexivity.
Qed.

Lemma leftover_empty (a : gmap string string) :
  leftover a = ∅ <-> forall k, is_Some (a !! k) -> k ∈ map_attributes.
Proof.
  split.
  - intros Hempty k [v Hv].
    destruct (decide (k ∈ map_attributes)) as [|Hk]; [assumption|].
    assert (leftover a !! k = Some v) as Hl.
    { rewrite leftover_lookup, bool_decide_eq_false_2 by exact Hk. exact Hv. }
    rewrite Hempty, lookup_empty in Hl. discriminate.
  - intros Hall. apply map_eq. intros k.
    rewrite leftover_lookup, lookup_empty.
    case_bool_decide as Hk; [reflexivity|].
    destruct (a !! k) as [v|] eqn:Hv; [|reflexivity].
    exfalso. apply Hk, Hall. eauto.
Qed.

Lemma pop_OK (key : string) (d : gmap string string) (v : string)
    (d' : gmap string string) :
  pop key d = OK (v, d') -> d !! key = Some v /\ d' = delete key d.
Proof.
  unfold pop. destruct (d !! key) as [w|]; [|discriminate].
  intros [= -> <-]. split; reflexivity.
Qed.

(** A root that [read_map_args] accepts has no attribute left over. *)
Lemma read_map_args_OK (root : Element) (base_path : option string) (map : Map) :
  read_map_args root base_path = OK map -> leftover (attrib root) = ∅.
Proof.
  unfold read_map_args. intros H.
  apply bind_OK in H as (? & _ & H).
  apply bind_OK in H as ([version a1] & (_ & ->)%pop_OK & H).
  apply bind_OK in H as (? & _ & H).
  apply bind_OK in H as ([width a2] & (_ & ->)%pop_OK & H).
  apply bind_OK in H as (? & _ & H).
  apply bind_OK in H as ([height a3] & (_ & ->)%pop_OK & H).
  apply bind_OK in H as (? & _ & H).
  apply bind_OK in H as ([tilewidth a4] & (_ & ->)%pop_OK & H).
  apply bind_OK in H as (? & _ & H).
  apply bind_OK in H as ([tileheight a5] & (_ & ->)%pop_OK & H).
  apply bind_OK in H as (? & _ & H).
  apply bind_OK in H as ([orientation a6] & (_ & ->)%pop_OK & H).
  apply bind_OK in H as (u & Hempty%assert_OK & _).
  apply is_empty_true in Hempty. exact Hempty.
Qed.

(** On a root whose declared attributes are valid, [read_map_args] comes
    down to the check for unexpected attributes. *)
Lemma read_map_args_valid (root : Element) (base_path : option string) :
  declared_attributes_valid root ->
  exists map,
    read_map_args root base_path
    = try _ <- assert (is_empty (leftover (attrib root))) "Unexpected map attributes" in
      OK map.
Proof.
  intros (Htag & Hversion & (ws & w & Hws & Hw) & (hs & h & Hhs & Hh)
          & (tws & tw & Htws & Htw) & (ths & th & Hths & Hth) & (o & Ho)).
  exists (Map_new (w, h) (tw, th) o base_path).
  unfold read_map_args. rewrite Htag. simpl.
  rewrite (pop_Some _ _ _ Hversion). simpl.
  rewrite (pop_Some "width" ws) by (rewrite lookup_delete_ne by done; exact Hws).
  simpl. rewrite Hw. simpl.
  rewrite (pop_Some "height" hs) by (rewrite !lookup_delete_ne by done; exact Hhs).
  simpl. rewrite Hh. simpl.
  rewrite (pop_Some "tilewidth" tws) by (rewrite !lookup_delete_ne by done; exact Htws).
  simpl. rewrite Htw. simpl.
  rewrite (pop_Some "tileheight" ths) by (rewrite !lookup_delete_ne by done; exact Hths).
  simpl. rewrite Hth. simpl.
  rewrite (pop_Some "orientation" o) by (rewrite !lookup_delete_ne by done; exact Ho).
  reflexivity.
Qed.

(** C6: a [map] element with an attribute outside version, orientation,
    width, height, tilewidth and tileheight is never read; when its
    declared attributes are valid the failure is the assertion
    "Unexpected map attributes", and when it has no other attribute the
    statements before the loop of [read_map] raise nothing. *)
Theorem read_map_strict_attributes (env : Env) (root : Element) (base_path : option string) :
  (forall k, is_Some (attrib root !! k) -> k ∉ map_attributes ->
             is_OK (read_map env root base_path) = false)
  /\ (declared_attributes_valid root ->
      ((exists k, is_Some (attrib root !! k) /\ k ∉ map_attributes) ->
       read_map env root base_path
       = Raise (AssertionError "Unexpected map attributes"))
      /\ ((forall k, is_Some (attrib root !! k) -> k ∈ map_attributes) ->
          is_OK (read_map_args root base_path) = true)).
Proof.
  split.
  - intros k Hk Hnot. unfold read_map.
    destruct (read_map_args root base_path) as [map|e] eqn:Hargs; [|reflexivity].
    exfalso. apply read_map_args_OK in Hargs.
    apply Hnot. apply (proj1 (leftover_empty _) Hargs k Hk).
  - intros Hvalid.
    destruct (read_map_args_valid root base_path Hvalid) as [map Hargs].
    split.
    + intros (k & Hk & Hnot). unfold read_map. rewrite Hargs.
      assert (is_empty (leftover (attrib root)) = false) as ->.
      { apply is_empty_false. intros Hempty. apply Hnot.
        apply (proj1 (leftover_empty _) Hempty k Hk). }
      reflexivity.
    + intros Hall. rewrite Hargs.
      assert (is_empty (leftover (attrib root)) = true) as ->.
      { apply is_empty_true, leftover_empty, Hall. }
      reflexivity.
Qed.

Lemma read_map_strict_attributes_witness :
  read_map (run_env 0) map_with_extra_attribute None
  = Raise (AssertionError "Unexpected map attributes").
Proof.
  apply (proj2 (read_map_strict_attributes (run_env 0) map_with_extra_attribute None)).
  - repeat split; try reflexivity.
    + exists "2", 2. split; reflexivity.
    + exists "1", 1. split; reflexivity.
    + exists "8", 8. split; reflexivity.
    + exists "8", 8. split; reflexivity.
    + exists "orthogonal". reflexivity.
  - exists "colour". split.
    + exists "red". reflexivity.
    + unfold map_attributes. intros H.
      repeat (apply elem_of_cons in H as [H | H]; [discriminate H|]).
      apply elem_of_nil in H as [].
Defined.

(** ** Tile layers: reading *)

Lemma ord_range (c : ascii) : 0 <= ord c < 256.
Proof.
  unfold ord. pose proof (N_ascii_bounded c). lia.
Qed.

Lemma string_by_four (P : string -> Prop) :
  (forall s, (String.length s < 4)%nat -> P s) ->
  (forall a b c d rest, P rest -> P (String a (String b (String c (String d rest))))) ->
  forall s, P s.
Proof.
  intros Hshort Hstep s.
  remember (String.length s) as n eqn:Hn.
  revert s Hn. induction n as [n IH] using lt_wf_ind. intros s Hn.
  destruct s as [|a [|b [|c [|d rest]]]];
    try (apply Hshort; simpl; lia).
  apply Hstep. apply (IH (String.length rest)); [simpl in Hn; lia | reflexivity].
Qed.

Lemma tile_ids_four (a b c d : ascii) (rest : string) :
  tile_ids (String a (String b (String c (String d rest))))
  = (ord a + Z.shiftl (ord b) 8 + Z.shiftl (ord c) 16 + Z.shiftl (ord d) 24)
    :: tile_ids rest.
Proof. reflexivity. Qed.

Lemma tile_ids_short (s : string) :
  (String.length s < 4)%nat -> tile_ids s = [].
Proof.
  destruct s as [|a [|b [|c [|d rest]]]]; simpl; intros H; try reflexivity. lia.
Qed.


Lemma byte_at_four (a b c d : ascii) (rest : string) (i : nat) :
  byte_at (String a (String b (String c (String d rest)))) (4 + i) = byte_at rest i.
Proof. reflexivity. Qed.

Lemma tile_ids_lookup (s : string) :
  forall i : nat, (4 * i + 3 < String.length s)%nat ->
    tile_ids s !! i = Some (little_endian_at s i).
Proof.
  induction s as [s Hs | a b c d rest IH] using string_by_four; intros i Hi.
  - lia.
  - rewrite tile_ids_four. destruct i as [|i].
    + simpl. unfold little_endian_at, byte_at. simpl String.get.
      rewrite !Z.shiftl_mul_pow2 by lia. f_equal. lia.
    + simpl in Hi. simpl lookup. rewrite IH by lia.
      unfold little_endian_at.
      replace (4 * S i)%nat with (4 + 4 * i)%nat by lia.
      replace (4 + 4 * i + 1)%nat with (4 + (4 * i + 1))%nat by lia.
      replace (4 + 4 * i + 2)%nat with (4 + (4 * i + 2))%nat by lia.
      replace (4 + 4 * i + 3)%nat with (4 + (4 * i + 3))%nat by lia.
      rewrite !byte_at_four. reflexivity.
Qed.

Lemma byte_at_range (b : string) (i : nat) : 0 <= byte_at b i < 256.
Proof.
  unfold byte_at. destruct (String.get i b); [apply ord_range | lia].
Qed.

Lemma little_endian_at_range (b : string) (i : nat) :
  0 <= little_endian_at b i < 4294967296.
Proof.
  unfold little_endian_at.
  pose proof (byte_at_range b (4 * i)).
  pose proof (byte_at_range b (4 * i + 1)).
  pose proof (byte_at_range b (4 * i + 2)).
  pose proof (byte_at_range b (4 * i + 3)).
  lia.
Qed.

Lemma tile_ids_range (s : string) :
  Forall (fun v => 0 <= v < 4294967296) (tile_ids s).
Proof.
  induction s as [s Hs | a b c d rest IH] using string_by_four.
  - rewrite tile_ids_short by exact Hs. constructor.
  - rewrite tile_ids_four. constructor; [|exact IH].
    rewrite !Z.shiftl_mul_pow2 by lia.
    pose proof (ord_range a). pose proof (ord_range b).
    pose proof (ord_range c). pose proof (ord_range d). lia.
Qed.

Lemma array_l_OK (sizeof_long : Z) (values ids : list Z) :
  array_l sizeof_long values = OK ids -> ids = values.
Proof.
  unfold array_l. destruct (forallb _ values); [|discriminate].
  intros [= <-]. reflexivity.
Qed.

Lemma array_l_fits (env : Env) (values : list Z) :
  Forall (tile_id env) values -> array_l (sizeof_long env) values = OK values.
Proof.
  intros Hall. unfold array_l.
  replace (forallb _ values) with true; [reflexivity|].
  symmetry. apply forallb_forall. intros v Hv.
  rewrite Forall_forall in Hall. apply list_elem_of_In, Hall in Hv.
  destruct Hv as [Hv Hlong].
  apply andb_true_intro. split; [apply Z.leb_le | apply Z.ltb_lt]; lia.
Qed.


Lemma read_data_OK (env : Env) (subelem : Element) (layer layer' : ArrayMapLayer)
    (b : string) (c : option string) :
  read_data_bytes env subelem = OK (b, c) ->
  read_data env subelem layer = OK layer' ->
  tiles_data layer' = tile_ids b.
Proof.
  intros Hbytes. unfold read_data. rewrite Hbytes. simpl.
  intros H. apply bind_OK in H as (ids & Hids%array_l_OK & [= <-]).
  simpl. exact Hids.
Qed.

(** A step of the loop over the children of a [layer] element either
    reads a [properties] child, which leaves the data alone, or reads the
    [data] child, which no earlier step did. *)
Lemma read_tile_layer_child_OK (env : Env) (layer layer' : ArrayMapLayer)
    (data_set data_set' : bool) (subelem : Element) :
  read_tile_layer_child env (layer, data_set) subelem = OK (layer', data_set') ->
  (tag subelem = "properties"
   /\ tiles_data layer' = tiles_data layer /\ data_set' = data_set)
  \/ (tag subelem = "data" /\ data_set = false /\ data_set' = true
      /\ read_data env subelem layer = OK layer').
Proof.
  unfold read_tile_layer_child.
  destruct (String.eqb_spec (tag subelem) "properties") as [Hp|Hp].
  - intros H. apply bind_OK in H as (props & _ & [= <- <-]). left. auto.
  - destruct (String.eqb_spec (tag subelem) "data") as [Hd|Hd]; [|discriminate].
    intros H. apply bind_OK in H as (? & Hset%assert_OK & H).
    apply bind_OK in H as (l & Hl & [= <- <-]).
    right. destruct data_set; [discriminate|]. auto.
Qed.

(** Once the data is set, the rest of the loop keeps it. *)
Lemma read_tile_layer_rest (env : Env) (post : list Element)
    (layer layer' : ArrayMapLayer) (data_set' : bool) :
  for_each (read_tile_layer_child env) (layer, true) post = OK (layer', data_set') ->
  tiles_data layer' = tiles_data layer.
Proof.
  intros Hrun.
  apply (for_each_invariant_in
           (fun st => snd st = true /\ tiles_data (fst st) = tiles_data layer)
           _ post) with (s' := (layer', data_set')) (s := (layer, true)) in Hrun.
  - apply Hrun.
  - intros [l ds] x [l' ds'] _ [Hds Hdata] Hstep. simpl in *. subst ds.
    apply read_tile_layer_child_OK in Hstep
      as [(_ & Hsame & ->) | (_ & Hfalse & _)]; [|discriminate].
    split; [reflexivity | congruence].
  - split; reflexivity.
Qed.

(** The data of a layer that was read are the tile ids of the bytes of
    its [data] child. *)
Lemma tile_layer_data (env : Env) (elem : Element) (map : Map)
    (layer : ArrayMapLayer) (subelem : Element) (b : string) (c : option string) :
  tile_layer_from_element env elem map = OK layer ->
  subelem ∈ children elem ->
  tag subelem = "data" ->
  read_data_bytes env subelem = OK (b, c) ->
  tiles_data layer = tile_ids b.
Proof.
  intros Hread Hin Htag Hbytes.
  unfold tile_layer_from_element in Hread.
  apply bind_OK in Hread as ([[name opacity] visible] & _ & Hread).
  apply bind_OK in Hread as ([layer1 data_set] & Hloop & Hread).
  apply bind_OK in Hread as (? & _ & [= <-]).
  apply list_elem_of_split in Hin as (pre & post & Hsplit).
  rewrite Hsplit, for_each_app in Hloop.
  apply bind_OK in Hloop as ([layer0 ds0] & _ & Hloop).
  simpl in Hloop.
  apply bind_OK in Hloop as ([layer2 ds2] & Hstep & Hpost).
  apply read_tile_layer_child_OK in Hstep
    as [(Hp & _) | (_ & _ & -> & Hdata)]; [congruence|].
  apply read_tile_layer_rest in Hpost. rewrite Hpost.
  eapply read_data_OK; eassumption.
Qed.

(** C5: in a tile layer that was read, where the bytes its [data] child
    decodes and decompresses to are [b], of length 4 * width * height,
    the tile id of every cell [i] is
    [b[4i] + 256 * b[4i+1] + 65536 * b[4i+2] + 16777216 * b[4i+3]], an
    unsigned 32-bit integer, least significant byte first. *)
Theorem tile_ids_are_little_endian (env : Env) (elem : Element) (map : Map)
    (layer : ArrayMapLayer) (subelem : Element) (b : string) (c : option string)
    (w h : Z) :
  tile_layer_from_element env elem map = OK layer ->
  subelem ∈ children elem ->
  tag subelem = "data" ->
  read_data_bytes env subelem = OK (b, c) ->
  map_size map = (w, h) ->
  Z.of_nat (String.length b) = 4 * w * h ->
  forall i : nat,
    Z.of_nat i < w * h ->
    tiles_data layer !! i = Some (little_endian_at b i)
    /\ 0 <= little_endian_at b i < 4294967296.
Proof.
  intros Hread Hin Htag Hbytes _ Hlen i Hi.
  rewrite (tile_layer_data _ _ _ _ _ _ _ Hread Hin Htag Hbytes).
  split; [|apply little_endian_at_range].
  apply tile_ids_lookup. lia.
Qed.


Lemma tile_ids_are_little_endian_witness :
  tile_layer_from_element (run_env 0) (layer_of "2" "1" "AQAAAAIAAAA=")
    (Map_new (2, 1) (8, 8) "orthogonal" None)
  = OK (layer_read [1; 2])
  /\ little_endian_at (bytes [1; 0; 0; 0; 2; 0; 0; 0]) 1 = 2
  /\ tiles_data (layer_read [1; 2]) !! 1%nat
     = Some (little_endian_at (bytes [1; 0; 0; 0; 2; 0; 0; 0]) 1).
Proof.
  split; [reflexivity|]. split; [reflexivity|].
  apply (tile_ids_are_little_endian (run_env 0) (layer_of "2" "1" "AQAAAAIAAAA=")
           (Map_new (2, 1) (8, 8) "orthogonal" None) (layer_read [1; 2])
           (data_child "AQAAAAIAAAA=") (bytes [1; 0; 0; 0; 2; 0; 0; 0]) None 2 1).
  - reflexivity.
  - apply list_elem_of_here.
  - reflexivity.
  - reflexivity.
  - reflexivity.
  - reflexivity.
  - lia.
Defined.



(** ** What lxml accepts *)

Lemma all_chars_app (p : ascii -> bool) (s t : string) :
  all_chars p (s +:+ t) = all_chars p s && all_chars p t.
Proof.
  induction s as [|c s IH]; simpl; [reflexivity|].
  rewrite IH, andb_assoc. reflexivity.
Qed.

Lemma xml_compatible_app (s t : string) :
  xml_compatible (s +:+ t) = xml_compatible s && xml_compatible t.
Proof. apply all_chars_app. Qed.

Lemma xml_compatible_String (c : ascii) (s : string) :
  xml_compatible (String c s) = xml_char c && xml_compatible s.
Proof. reflexivity. Qed.

(** Text lxml accepts is ASCII text. *)
Lemma xml_compatible_ascii (s : string) :
  xml_compatible s = true -> all_chars (fun c => ord c <? 128) s = true.
Proof.
  induction s as [|c s IH]; simpl; [reflexivity|].
  intros [Hc Hs]%andb_prop. rewrite (IH Hs), andb_true_r.
  unfold xml_char in Hc. pose proof (ord_range c).
  destruct (Z.ltb_spec (ord c) 128); [reflexivity|]. lia.
Qed.

Lemma decimal_xml_compatible (d : Decimal.uint) :
  xml_compatible (DecimalString.NilEmpty.string_of_uint d) = true.
Proof. induction d; simpl; auto. Qed.

(** What [str] prints for an [int] is accepted. *)
Lemma str_xml_compatible (n : Z) : xml_compatible (str n) = true.
Proof.
  unfold str. destruct (Z.to_int n) as [d|d]; simpl.
  - destruct d; try reflexivity; apply (decimal_xml_compatible (_ _)).
  - destruct d; try reflexivity;
      apply (andb_true_intro (conj eq_refl (decimal_xml_compatible (_ _)))).
Qed.

Lemma hexadecimal_xml_compatible (d : Hexadecimal.uint) :
  xml_compatible (HexadecimalString.NilEmpty.string_of_uint d) = true.
Proof. induction d; simpl; auto. Qed.

Lemma str_drop_xml_compatible (n : nat) (s : string) :
  xml_compatible s = true -> xml_compatible (str_drop n s) = true.
Proof.
  revert s. induction n as [|n IH]; intros [|c s]; simpl; auto.
  intros [_ Hs]%andb_prop. apply IH, Hs.
Qed.

Lemma str_repeat_xml_compatible (c : ascii) (n : nat) :
  xml_char c = true -> xml_compatible (str_repeat c n) = true.
Proof.
  intros Hc. induction n as [|n IH]; [reflexivity|].
  apply andb_true_intro. split; assumption.
Qed.

Lemma hex_xml_compatible (p : Z) : xml_compatible (hex p) = true.
Proof.
  unfold hex. rewrite xml_compatible_app. apply andb_true_intro. split.
  - destruct (p <? 0); reflexivity.
  - unfold HexadecimalString.NilZero.string_of_uint.
    destruct (N.to_hex_uint (Z.abs_N p)); try reflexivity;
      apply (hexadecimal_xml_compatible (_ _)).
Qed.

(** What [to_rgb] returns is accepted, whatever the components. *)
Lemma to_rgb_xml_compatible (rgb : list Z) : xml_compatible (to_rgb rgb) = true.
Proof.
  unfold to_rgb. induction rgb as [|p rgb IH]; [reflexivity|].
  change (xml_compatible
            (ljust 2 "0" (str_drop 2 (hex p))
             +:+ join (map (fun p => ljust 2 "0" (str_drop 2 (hex p))) rgb)) = true).
  rewrite xml_compatible_app, IH, andb_true_r.
  unfold ljust. rewrite xml_compatible_app.
  rewrite str_drop_xml_compatible by apply hex_xml_compatible.
  apply str_repeat_xml_compatible. reflexivity.
Qed.

Lemma b64_char_xml (n : Z) : xml_char (b64_char n) = true.
Proof.
  unfold b64_char.
  destruct (Z.to_nat n) as [|k]; [reflexivity|].
  do 64 (destruct k as [|k]; [reflexivity|]).
  reflexivity.
Qed.

(** What [base64.b64encode] returns is accepted. *)
Lemma b64encode_xml_compatible (s : string) : xml_compatible (b64encode s) = true.
Proof.
  induction s as [|a|a b|a b c rest IH] using string_by_three.
  - reflexivity.
  - cbn [b64encode]. rewrite !xml_compatible_String, !b64_char_xml. reflexivity.
  - cbn [b64encode]. rewrite !xml_compatible_String, !b64_char_xml. reflexivity.
  - change (b64encode (String a (String b (String c rest))))
      with (String (b64_char (ord a / 4))
              (String (b64_char (ord a mod 4 * 16 + ord b / 16))
                 (String (b64_char (ord b mod 16 * 4 + ord c / 64))
                    (String (b64_char (ord c mod 64)) (b64encode rest))))).
    rewrite !xml_compatible_String, !b64_char_xml, IH. reflexivity.
Qed.

(** *** Dictionaries of attributes *)

Lemma xml_values_empty : xml_values ∅ = true.
Proof. apply bool_decide_eq_true. apply map_Forall_empty. Qed.

Lemma xml_values_insert_fresh (k v : string) (m : gmap string string) :
  m !! k = None ->
  xml_values (<[k := v]> m) = xml_compatible v && xml_values m.
Proof.
  intros Hk. unfold xml_values.
  apply eq_true_iff_eq. rewrite andb_true_iff, !bool_decide_eq_true.
  rewrite (map_Forall_insert (fun _ value => xml_compatible value = true)) by exact Hk.
  reflexivity.
Qed.

Lemma xml_values_insert (k v : string) (m : gmap string string) :
  xml_compatible v = true -> xml_values m = true -> xml_values (<[k := v]> m) = true.
Proof.
  unfold xml_values. rewrite !bool_decide_eq_true.
  intros Hv Hm. apply map_Forall_insert_2; assumption.
Qed.

Lemma Element_new_eq (tag : string) (attrib : gmap string string) :
  Element_new tag attrib
  = if xml_values attrib then OK (plain_element tag attrib) else Raise not_xml.
Proof. reflexivity. Qed.

Lemma set_attrib_eq (key value : string) (e : Element) :
  set_attrib key value e
  = if xml_compatible value then OK (with_attrib key value e) else Raise not_xml.
Proof. unfold set_attrib, utf8. destruct (xml_compatible value); reflexivity. Qed.

Lemma set_text_eq (data : string) (e : Element) :
  set_text data e
  = if xml_compatible data then OK (with_text data e) else Raise not_xml.
Proof. unfold set_text, utf8. destruct (xml_compatible data); reflexivity. Qed.

(** Solves the side conditions of [xml_values_insert_fresh] on a
    dictionary display. *)
Ltac fresh_key :=
  repeat (rewrite lookup_insert_ne by done); first [apply lookup_empty | reflexivity].

(** *** Property bags *)

Lemma accepted_bag_items (props : gmap string string) :
  accepted_bag props
  = forallb (fun item => xml_compatible (fst item) && xml_compatible (snd item))
      (map_to_list props).
Proof.
  unfold accepted_bag. apply eq_true_iff_eq.
  rewrite bool_decide_eq_true, map_Forall_to_list, forallb_forall, Forall_forall.
  split.
  - intros H [k v] Hin. apply list_elem_of_In in Hin.
    destruct (H _ Hin) as [Hk Hv]. simpl in *. rewrite Hk, Hv. reflexivity.
  - intros H [k v] Hin. apply list_elem_of_In in Hin.
    apply H in Hin. simpl in Hin. apply andb_prop in Hin. exact Hin.
Qed.

Lemma accepted_bag_empty : accepted_bag ∅ = true.
Proof. apply bool_decide_eq_true. apply map_Forall_empty. Qed.

Lemma property_values (key value : string) :
  xml_values (dict [("name", key); ("value", value)])
  = xml_compatible key && xml_compatible value.
Proof.
  unfold dict. simpl.
  rewrite !xml_values_insert_fresh by fresh_key.
  rewrite xml_values_empty, andb_true_r. reflexivity.
Qed.

Lemma append_property_loop (l : list (string * string)) :
  forall e,
    for_each
      (fun element '(key, value) =>
         try property <-
           Element_new "property" (dict [("name", key); ("value", value)]) in
         OK (append element property)) e l
    = if forallb (fun item => xml_compatible (fst item) && xml_compatible (snd item)) l
      then OK (fold_left
                 (fun element '(key, value) =>
                    append element
                      (plain_element "property" (dict [("name", key); ("value", value)])))
                 l e)
      else Raise not_xml.
Proof.
  induction l as [|[key value] l IH]; intros e; [reflexivity|].
  cbn [for_each forallb fold_left fst snd].
  rewrite Element_new_eq, property_values.
  destruct (xml_compatible key && xml_compatible value); [|reflexivity].
  cbn [bind andb]. apply IH.
Qed.

(** [append_properties] adds what [with_properties] describes when lxml
    accepts the bag, and raises [ValueError] otherwise. *)
Lemma append_properties_accepted (parent : Element) (props : gmap string string) :
  append_properties parent props
  = if accepted_bag props then OK (with_properties parent props) else Raise not_xml.
Proof.
  unfold append_properties, with_properties.
  destruct (is_empty props) eqn:Hempty.
  - apply is_empty_true in Hempty. subst props. rewrite accepted_bag_empty. reflexivity.
  - rewrite Element_new_eq, xml_values_empty. simpl.
    rewrite append_property_loop, <- accepted_bag_items.
    destruct (accepted_bag props); reflexivity.
Qed.

(** *** Images *)

Lemma source_values (source : string) :
  xml_values (dict [("source", source)]) = xml_compatible source.
Proof.
  unfold dict. simpl.
  rewrite xml_values_insert_fresh by fresh_key.
  rewrite xml_values_empty. apply andb_true_r.
Qed.

(** [write_image] builds what [written_image] describes when lxml
    accepts the source, and raises [ValueError] otherwise: the numbers
    and the colour it prints are always accepted. *)
Lemma write_image_accepted (image : Image) (base_path : option string) :
  write_image image base_path
  = if xml_compatible (image_source image) then OK (written_image image base_path)
    else Raise not_xml.
Proof.
  unfold write_image, written_image.
  rewrite Element_new_eq, source_values.
  destruct (xml_compatible (image_source image)); [|reflexivity].
  cbn [bind].
  destruct (negb (snd (image_size image) =? 0));
    rewrite ?set_attrib_eq, ?str_xml_compatible; cbn [bind];
    destruct (negb (fst (image_size image) =? 0));
    rewrite ?set_attrib_eq, ?str_xml_compatible; cbn [bind];
    destruct (image_trans image) as [[|c rgb]|];
    rewrite ?set_attrib_eq, ?to_rgb_xml_compatible; reflexivity.
Qed.

(** *** Tilesets *)

Lemma id_values (tile_no : Z) : xml_values (dict [("id", str tile_no)]) = true.
Proof.
  unfold dict. simpl.
  rewrite xml_values_insert_fresh by fresh_key.
  rewrite xml_values_empty, str_xml_compatible. reflexivity.
Qed.

Lemma write_tile_accepted (element : Element) (item : Z * gmap string string) :
  write_tile element item
  = if accepted_bag (snd item) then OK (with_tile element item) else Raise not_xml.
Proof.
  destruct item as [tile_no props]. unfold write_tile, with_tile. cbn [snd].
  destruct (is_empty props) eqn:Hempty; cbn [negb].
  - apply is_empty_true in Hempty. subst props. rewrite accepted_bag_empty. reflexivity.
  - rewrite Element_new_eq, id_values. cbn [bind].
    rewrite append_properties_accepted.
    destruct (accepted_bag props); reflexivity.
Qed.

Lemma write_tiles_accepted (items : list (Z * gmap string string)) :
  forall element,
    for_each write_tile element items
    = if forallb (fun item => accepted_bag (snd item)) items
      then OK (fold_left with_tile items element) else Raise not_xml.
Proof.
  induction items as [|item items IH]; intros element; [reflexivity|].
  cbn [for_each forallb fold_left]. rewrite write_tile_accepted.
  destruct (accepted_bag (snd item)); [|reflexivity].
  cbn [bind andb]. apply IH.
Qed.

Lemma forallb_Permutation {A : Type} (f : A -> bool) (l l' : list A) :
  l ≡ₚ l' -> forallb f l = forallb f l'.
Proof.
  intros Hperm. apply eq_true_iff_eq. rewrite !forallb_forall.
  split; intros H x Hin; apply H; apply list_elem_of_In; apply list_elem_of_In in Hin.
  - rewrite Hperm. exact Hin.
  - rewrite <- Hperm. exact Hin.
Qed.

Lemma accepted_bags_sorted (tp : gmap Z (gmap string string)) :
  forallb (fun item => accepted_bag (snd item)) (sorted_items tp)
  = bool_decide (map_Forall (fun _ props => accepted_bag props = true) tp).
Proof.
  unfold sorted_items.
  rewrite (forallb_Permutation _ _ (map_to_list tp)) by apply merge_sort_Permutation.
  apply eq_true_iff_eq.
  rewrite bool_decide_eq_true, map_Forall_to_list, forallb_forall, Forall_forall.
  split.
  - intros H [k v] Hin. apply list_elem_of_In in Hin. apply (H _ Hin).
  - intros H [k v] Hin. apply list_elem_of_In in Hin. apply (H _ Hin).
Qed.

(** [write_tileset] builds what [written_tileset] describes when lxml
    accepts the strings of the tileset, and raises [ValueError]
    otherwise. *)
Lemma write_tileset_accepted (tileset : Tileset) (base_path : option string)
    (first_gid : option Z) :
  write_tileset tileset base_path first_gid
  = if accepted_tileset tileset then OK (written_tileset tileset base_path first_gid)
    else Raise not_xml.
Proof.
  unfold write_tileset, written_tileset, accepted_tileset.
  destruct (tileset_source tileset) as [source|].
  - rewrite Element_new_eq.
    assert (xml_values
              (if int_truthy first_gid
               then <["firstgid" := str (default 0 first_gid)]> (dict [("source", source)])
               else dict [("source", source)])
            = xml_compatible source) as ->; [|reflexivity].
    destruct (int_truthy first_gid); [|apply source_values].
    unfold dict. simpl.
    rewrite !xml_values_insert_fresh by fresh_key.
    rewrite xml_values_empty, str_xml_compatible, andb_true_r. reflexivity.
  - rewrite Element_new_eq.
    assert (xml_values
              (if int_truthy first_gid
               then <["firstgid" := str (default 0 first_gid)]>
                      (dict [("name", tileset_name tileset);
                             ("tileheight", str (snd (tileset_tile_size tileset)));
                             ("tilewidth", str (fst (tileset_tile_size tileset)))])
               else dict [("name", tileset_name tileset);
                          ("tileheight", str (snd (tileset_tile_size tileset)));
                          ("tilewidth", str (fst (tileset_tile_size tileset)))])
            = xml_compatible (tileset_name tileset)) as ->.
    { destruct (int_truthy first_gid); unfold dict; simpl;
        rewrite !xml_values_insert_fresh by fresh_key;
        rewrite xml_values_empty, !str_xml_compatible, ?andb_true_r; reflexivity. }
    destruct (xml_compatible (tileset_name tileset)); [|reflexivity].
    cbn [bind andb].
    destruct (negb (tileset_spacing tileset =? 0));
      rewrite ?set_attrib_eq, ?str_xml_compatible; cbn [bind];
      destruct (negb (tileset_margin tileset =? 0));
      rewrite ?set_attrib_eq, ?str_xml_compatible; cbn [bind];
      (destruct (tileset_image tileset) as [image|];
       [ rewrite write_image_accepted;
         destruct (xml_compatible (image_source image)); [|reflexivity]
       | ]);
      cbn [bind andb];
      rewrite write_tiles_accepted, accepted_bags_sorted;
      destruct (bool_decide _); reflexivity.
Qed.

(** *** Layers *)

Lemma layer_values (name width height : string) :
  xml_values (dict [("name", name); ("width", width); ("height", height)])
  = xml_compatible name && (xml_compatible width && xml_compatible height).
Proof.
  unfold dict. simpl.
  rewrite !xml_values_insert_fresh by fresh_key.
  rewrite xml_values_empty, andb_true_r. reflexivity.
Qed.

(** Both layer writers start with an element that is what
    [written_layer] describes when lxml accepts the name, the opacity as
    it is printed and the properties; they raise [ValueError] otherwise. *)
Lemma layer_element_accepted (env : Env) (tg name : string) (map : Map) (visible : bool)
    (opacity : float) (props : gmap string string) :
  layer_element env tg name map visible opacity props
  = if accepted_layer env name opacity props
    then OK (written_layer env tg name map visible opacity props)
    else Raise not_xml.
Proof.
  unfold layer_element, written_layer, accepted_layer.
  rewrite Element_new_eq, layer_values, !str_xml_compatible, andb_true_r.
  destruct (xml_compatible name); [|reflexivity].
  cbn [bind andb].
  assert ((if negb visible
           then set_attrib "visible" "0"
                  (plain_element tg
                     (dict [("name", name); ("width", str (fst (map_size map)));
                            ("height", str (snd (map_size map)))]))
           else OK (plain_element tg
                      (dict [("name", name); ("width", str (fst (map_size map)));
                             ("height", str (snd (map_size map)))])))
          = OK (if negb visible
                then with_attrib "visible" "0"
                       (plain_element tg
                          (dict [("name", name); ("width", str (fst (map_size map)));
                                 ("height", str (snd (map_size map)))]))
                else plain_element tg
                       (dict [("name", name); ("width", str (fst (map_size map)));
                              ("height", str (snd (map_size map)))]))) as ->.
  { destruct visible; reflexivity. }
  cbn [bind].
  destruct (PrimFloat.eqb opacity 1); cbn [negb orb].
  - cbn [bind]. rewrite append_properties_accepted.
    destruct (accepted_bag props); reflexivity.
  - rewrite set_attrib_eq.
    destruct (xml_compatible (str_of_float env opacity)); [|reflexivity].
    cbn [bind]. rewrite append_properties_accepted.
    destruct (accepted_bag props); reflexivity.
Qed.

Lemma is_str_eq (value : option string) (name : string) :
  is_str value name = true -> value = Some name.
Proof.
  destruct value as [s|]; simpl; [|discriminate].
  intros ->%String.eqb_eq. reflexivity.
Qed.

(** [tile_layer_to_element] raises [ValueError] when lxml does not
    accept the strings of the layer element; otherwise it goes on as
    [written_tile_layer] describes: lxml accepts the [data] element,
    whose attributes are [gzip], [zlib] and [base64] and whose text is
    what [base64.b64encode] returns. *)
Lemma tile_layer_to_element_accepted (env : Env) (map : Map) (layer : ArrayMapLayer) :
  tile_layer_to_element env map layer
  = if accepted_tile_layer env layer then written_tile_layer env map layer
    else Raise not_xml.
Proof.
  unfold tile_layer_to_element, written_tile_layer, accepted_tile_layer.
  rewrite layer_element_accepted.
  destruct (accepted_layer env (tiles_name layer) (tiles_opacity layer)
              (tiles_properties layer)); [|reflexivity].
  cbn [bind].
  destruct (struct_pack (tiles_data layer)) as [packed|e]; [|reflexivity].
  cbn [bind].
  destruct (is_str (default (Some "base64") (tiles_encoding layer)) "base64") eqn:Henc.
  2:{ destruct (if is_str _ "gzip" then _ else _) as [[data extra]|e]; reflexivity. }
  apply is_str_eq in Henc. rewrite Henc. cbn [opt_truthy truthy String.eqb negb default].
  destruct (is_str (default (Some "zlib") (tiles_compression layer)) "gzip") eqn:Hgzip.
  { apply is_str_eq in Hgzip. rewrite Hgzip. cbn [opt_truthy default].
    destruct (gzip_write env (tiles_mtime layer) packed) as [data|e]; [|reflexivity].
    cbn [bind]. rewrite Element_new_eq.
    rewrite !xml_values_insert by (reflexivity || apply xml_values_empty).
    cbn [bind]. rewrite set_text_eq, b64encode_xml_compatible. reflexivity. }
  destruct (is_str (default (Some "zlib") (tiles_compression layer)) "zlib") eqn:Hzlib.
  { apply is_str_eq in Hzlib. rewrite Hzlib. cbn [opt_truthy default].
    cbn [bind]. rewrite Element_new_eq.
    rewrite !xml_values_insert by (reflexivity || apply xml_values_empty).
    cbn [bind]. rewrite set_text_eq, b64encode_xml_compatible. reflexivity. }
  destruct (opt_truthy (default (Some "zlib") (tiles_compression layer))); [reflexivity|].
  cbn [bind]. rewrite Element_new_eq.
  rewrite !xml_values_insert by (reflexivity || apply xml_values_empty).
  cbn [bind]. rewrite set_text_eq, b64encode_xml_compatible. reflexivity.
Qed.

(** *** Objects *)

Lemma str_unicode_accepted (value : string) :
  xml_compatible value = true -> str_unicode value = OK value.
Proof. intros H. unfold str_unicode. rewrite (xml_compatible_ascii _ H). reflexivity. Qed.

Lemma xml_values_lookup (m : gmap string string) (k v : string) :
  xml_values m = true -> m !! k = Some v -> xml_compatible v = true.
Proof.
  unfold xml_values. rewrite bool_decide_eq_true. intros H Hk. exact (H k v Hk).
Qed.

Lemma object_attrib_accepted (env : Env) (map : Map) (object : MapObject) :
  accepted_object object = true ->
  object_attrib env map object = OK (written_object_attrib env map object)
  /\ xml_values (written_object_attrib env map object) = true.
Proof.
  unfold accepted_object, object_attrib, written_object_attrib.
  intros [Hname Htype]%andb_prop.
  rewrite !(str_unicode_accepted _ Hname), !(str_unicode_accepted _ Htype).
  cbn [bind].
  split.
  - destruct (opt_truthy (object_name object)), (opt_truthy (object_type object));
      reflexivity.
  - assert (xml_values
              (dict [("x", str (fst (object_pos object)));
                     ("y", str (snd (object_pos object)))]) = true) as Hpos.
    { unfold dict. simpl.
      repeat (apply xml_values_insert; [apply str_xml_compatible|]).
      apply xml_values_empty. }
    destruct (int_truthy (object_value object)), (opt_truthy (object_name object)),
             (opt_truthy (object_type object)),
             (negb (bool_decide (object_size object = (0, 0))) && _);
      repeat (apply xml_values_insert;
              [first [apply str_xml_compatible | assumption]|]);
      first [exact Hpos | apply xml_values_empty].
Qed.

Lemma write_object_accepted (env : Env) (map : Map) (element : Element)
    (object : MapObject) :
  accepted_object object = true ->
  write_object env map element object = OK (with_object env map element object).
Proof.
  intros Hobject. unfold write_object, with_object.
  destruct (object_attrib_accepted env map object Hobject) as [-> Hvalues].
  cbn [bind]. rewrite Element_new_eq, Hvalues. reflexivity.
Qed.

(** An object whose name or type is not plain text is not written:
    [str] raises [UnicodeEncodeError] for a character beyond ASCII, lxml
    raises [ValueError] for a control character. *)
Lemma write_object_refused (env : Env) (map : Map) (element : Element)
    (object : MapObject) :
  accepted_object object = false ->
  is_OK (write_object env map element object) = false.
Proof.
  intros Hobject. unfold write_object.
  destruct (object_attrib env map object) as [attrib|e] eqn:Hattrib; [|reflexivity].
  cbn [bind]. rewrite Element_new_eq.
  destruct (xml_values attrib) eqn:Hvalues; [|reflexivity].
  exfalso.
  unfold object_attrib in Hattrib.
  apply bind_OK in Hattrib as (a1 & H1 & Hattrib).
  apply bind_OK in Hattrib as (a2 & H2 & [= <-]).
  assert (xml_compatible (default EmptyString (object_name object)) = true) as Hname.
  { destruct (object_name object) as [name|]; [|reflexivity]. simpl in *.
    destruct (truthy name) eqn:Htruthy.
    - apply bind_OK in H1 as (n & Hn & [= <-]).
      unfold str_unicode in Hn. destruct (all_chars _ name); [|discriminate Hn].
      injection Hn as <-.
      apply (xml_values_lookup _ "name" name Hvalues).
      assert (a2 !! "name" = Some name) as Ha2.
      { destruct (opt_truthy (object_type object)).
        - apply bind_OK in H2 as (t & _ & [= <-]).
          rewrite lookup_insert_ne by done. apply lookup_insert_eq.
        - injection H2 as <-. apply lookup_insert_eq. }
      destruct (negb _ && _); rewrite ?lookup_insert_ne by done; exact Ha2.
    - unfold truthy in Htruthy. apply negb_false_iff, String.eqb_eq in Htruthy.
      subst name. reflexivity. }
  assert (xml_compatible (default EmptyString (object_type object)) = true) as Htype.
  { destruct (object_type object) as [type|]; [|reflexivity]. simpl in *.
    destruct (truthy type) eqn:Htruthy.
    - apply bind_OK in H2 as (t & Ht & [= <-]).
      unfold str_unicode in Ht. destruct (all_chars _ type); [|discriminate Ht].
      injection Ht as <-.
      apply (xml_values_lookup _ "type" type Hvalues).
      destruct (negb _ && _); rewrite ?lookup_insert_ne by done; apply lookup_insert_eq.
    - unfold truthy in Htruthy. apply negb_false_iff, String.eqb_eq in Htruthy.
      subst type. reflexivity. }
  unfold accepted_object in Hobject. rewrite Hname, Htype in Hobject.
  discriminate Hobject.
Qed.

Lemma write_objects_accepted (env : Env) (map : Map) (objs : list MapObject) :
  forallb accepted_object objs = true ->
  forall element,
    for_each (write_object env map) element objs
    = OK (fold_left (with_object env map) objs element).
Proof.
  induction objs as [|object objs IH]; intros Hall element; [reflexivity|].
  cbn [forallb] in Hall. apply andb_prop in Hall as [Hobject Hall].
  cbn [for_each fold_left]. rewrite write_object_accepted by exact Hobject.
  cbn [bind]. apply IH, Hall.
Qed.

Lemma write_objects_refused (env : Env) (map : Map) (objs : list MapObject) :
  forallb accepted_object objs = false ->
  forall element, is_OK (for_each (write_object env map) element objs) = false.
Proof.
  induction objs as [|object objs IH]; intros Hall element; [discriminate Hall|].
  cbn [forallb] in Hall. cbn [for_each].
  destruct (accepted_object object) eqn:Hobject.
  - rewrite write_object_accepted by exact Hobject. cbn [bind]. apply IH, Hall.
  - pose proof (write_object_refused env map element object Hobject) as Hrefused.
    destruct (write_object env map element object); [discriminate Hrefused|reflexivity].
Qed.

(** [object_layer_to_element] builds what [written_object_layer]
    describes when lxml accepts the strings of the layer and [str] and
    lxml those of its objects. *)
Lemma object_layer_to_element_accepted (env : Env) (map : Map) (layer : ObjectLayer) :
  accepted_object_layer env layer = true ->
  object_layer_to_element env map layer = OK (written_object_layer env map layer).
Proof.
  unfold accepted_object_layer, object_layer_to_element, written_object_layer.
  intros [Hlayer Hobjects]%andb_prop.
  rewrite layer_element_accepted, Hlayer. cbn [bind].
  apply write_objects_accepted, Hobjects.
Qed.

(** It raises an exception otherwise. *)
Lemma object_layer_to_element_refused (env : Env) (map : Map) (layer : ObjectLayer) :
  accepted_object_layer env layer = false ->
  is_OK (object_layer_to_element env map layer) = false.
Proof.
  unfold accepted_object_layer, object_layer_to_element. intros Hlayer.
  rewrite layer_element_accepted.
  destruct (accepted_layer env (objects_name layer) (objects_opacity layer)
              (objects_properties layer)); [|reflexivity].
  cbn [andb] in Hlayer. cbn [bind]. apply write_objects_refused, Hlayer.
Qed.

Lemma layer_to_element_accepted (env : Env) (map : Map) (layer : Layer) :
  accepted_map_layer env layer = true ->
  layer_to_element env map layer = written_map_layer env map layer.
Proof.
  destruct layer as [layer|layer]; simpl; intros Hlayer.
  - rewrite tile_layer_to_element_accepted.
    unfold accepted_tile_layer in *. rewrite Hlayer. reflexivity.
  - apply object_layer_to_element_accepted, Hlayer.
Qed.

Lemma layer_to_element_refused (env : Env) (map : Map) (layer : Layer) :
  accepted_map_layer env layer = false ->
  is_OK (layer_to_element env map layer) = false.
Proof.
  destruct layer as [layer|layer]; simpl; intros Hlayer.
  - rewrite tile_layer_to_element_accepted.
    unfold accepted_tile_layer in *. rewrite Hlayer. reflexivity.
  - apply object_layer_to_element_refused, Hlayer.
Qed.

(** *** Maps *)

Lemma map_values (orientation width height tilewidth tileheight : string) :
  xml_values
    (dict [("version", "1.0"); ("orientation", orientation); ("width", width);
           ("height", height); ("tilewidth", tilewidth); ("tileheight", tileheight)])
  = xml_compatible orientation
    && (xml_compatible width
        && (xml_compatible height
            && (xml_compatible tilewidth && xml_compatible tileheight))).
Proof.
  unfold dict. simpl.
  rewrite !xml_values_insert_fresh by fresh_key.
  rewrite xml_values_empty, andb_true_r. reflexivity.
Qed.

Lemma write_tilesets_accepted (env : Env) (map : Map) (base_path : option string)
    (tilesets : list Tileset) :
  forall (f : nat -> nat) (elem : Element),
    for_each
      (fun elem '(i, tileset) =>
         try e <- write_tileset tileset base_path (Some (first_gid env map i)) in
         OK (append elem e))
      elem (imap (fun i tileset => (f i, tileset)) tilesets)
    = if forallb accepted_tileset tilesets
      then OK (fold_left append
                 (imap (fun i tileset =>
                          written_tileset tileset base_path
                            (Some (first_gid env map (f i)))) tilesets)
                 elem)
      else Raise not_xml.
Proof.
  induction tilesets as [|tileset tilesets IH]; intros f elem; [reflexivity|].
  rewrite !imap_cons. cbn [for_each forallb fold_left].
  rewrite write_tileset_accepted.
  destruct (accepted_tileset tileset); [|reflexivity].
  cbn [bind andb]. apply (IH (f ∘ S)).
Qed.

Lemma write_layers_accepted (env : Env) (map : Map) (layers : list Layer) :
  forallb (accepted_map_layer env) layers = true ->
  forall elem,
    for_each (fun elem layer => try e <- layer_to_element env map layer in
                                OK (append elem e)) elem layers
    = for_each (fun elem layer => try e <- written_map_layer env map layer in
                                  OK (append elem e)) elem layers.
Proof.
  intros Hall elem. apply for_each_ext. intros s layer Hin.
  rewrite layer_to_element_accepted; [reflexivity|].
  rewrite forallb_forall in Hall. apply Hall, list_elem_of_In, Hin.
Qed.

Lemma write_layers_refused (env : Env) (map : Map) (layers : list Layer) :
  forallb (accepted_map_layer env) layers = false ->
  forall elem,
    is_OK (for_each (fun elem layer => try e <- layer_to_element env map layer in
                                       OK (append elem e)) elem layers) = false.
Proof.
  induction layers as [|layer layers IH]; intros Hall elem; [discriminate Hall|].
  cbn [forallb] in Hall. cbn [for_each].
  destruct (accepted_map_layer env layer) eqn:Hlayer.
  - destruct (layer_to_element env map layer) as [e|err]; [|reflexivity].
    cbn [bind]. apply IH, Hall.
  - pose proof (layer_to_element_refused env map layer Hlayer) as Hrefused.
    destruct (layer_to_element env map layer); [discriminate Hrefused|reflexivity].
Qed.

(** The statements of [write_map] before the loop over the layers build
    the root with its properties and tilesets when lxml accepts the
    orientation, the properties and the strings of the tilesets, and
    raise [ValueError] otherwise. *)
Lemma write_map_eq (env : Env) (map : Map) (base_path : option string) :
  write_map env map base_path
  = if xml_compatible (map_orientation map)
       && accepted_bag (map_properties map)
       && forallb accepted_tileset (map_tilesets map)
    then for_each
           (fun elem layer => try e <- layer_to_element env map layer in
                              OK (append elem e))
           (fold_left append
              (imap (fun i tileset =>
                       written_tileset tileset base_path (Some (first_gid env map i)))
                 (map_tilesets map))
              (with_properties (plain_element "map" (map_attrib map))
                 (map_properties map)))
           (map_layers map)
    else Raise not_xml.
Proof.
  unfold write_map. fold (map_attrib map).
  rewrite Element_new_eq. unfold map_attrib at 1.
  rewrite map_values, !str_xml_compatible, andb_true_r.
  destruct (xml_compatible (map_orientation map)); [|reflexivity].
  cbn [bind andb]. rewrite append_properties_accepted.
  destruct (accepted_bag (map_properties map)); [|reflexivity].
  cbn [bind andb].
  rewrite (write_tilesets_accepted env map base_path (map_tilesets map) (fun i => i)).
  destruct (forallb accepted_tileset (map_tilesets map)); reflexivity.
Qed.

(** [write_map] goes as [written_map] describes when lxml accepts every
    string of the map. *)
Lemma write_map_accepted (env : Env) (map : Map) (base_path : option string) :
  accepted_map env map = true ->
  write_map env map base_path = written_map env map base_path.
Proof.
  unfold accepted_map. intros [Hfront Hlayers]%andb_prop.
  rewrite write_map_eq, Hfront.
  apply write_layers_accepted, Hlayers.
Qed.

(** It raises an exception otherwise. *)
Lemma write_map_refused (env : Env) (map : Map) (base_path : option string) :
  accepted_map env map = false ->
  is_OK (write_map env map base_path) = false.
Proof.
  unfold accepted_map. intros Hmap. rewrite write_map_eq.
  destruct (xml_compatible (map_orientation map)
            && accepted_bag (map_properties map)
            && forallb accepted_tileset (map_tilesets map)); [|reflexivity].
  cbn [andb] in Hmap. apply write_layers_refused, Hmap.
Qed.

(** ** Tile layers: writing *)

(** What is left of the writer once the layer element is built: the tile
    ids are packed before the compression is looked at, and compressed
    before the encoding is. *)
Lemma written_checks_follow_packing (env : Env) (map : Map) (layer : ArrayMapLayer) :
  (bad_compression layer ->
   written_tile_layer env map layer
   = try _ <- struct_pack (tiles_data layer) in
     Raise (ValueError "Bad compression"))
  /\ (bad_encoding layer ->
      is_str (compression_of layer) "gzip" = true ->
      written_tile_layer env map layer
      = try data <- struct_pack (tiles_data layer) in
        try _ <- gzip_write env (tiles_mtime layer) data in
        Raise (ValueError "Bad encoding"))
  /\ (bad_encoding layer ->
      is_str (compression_of layer) "gzip" = false ->
      is_str (compression_of layer) "zlib" = true
      \/ opt_truthy (compression_of layer) = false ->
      written_tile_layer env map layer
      = try _ <- struct_pack (tiles_data layer) in
        Raise (ValueError "Bad encoding")).
Proof.
  unfold bad_compression, bad_encoding, compression_of, encoding_of.
  unfold written_tile_layer.
  destruct (struct_pack (tiles_data layer)) as [data|e]; simpl.
  - split; [|split].
    + intros (-> & -> & ->). reflexivity.
    + intros -> ->. simpl.
      destruct (gzip_write env (tiles_mtime layer) data); reflexivity.
    + intros -> -> [-> | ->]; simpl; [reflexivity|].
      destruct (is_str _ "zlib"); reflexivity.
  - repeat split; reflexivity.
Qed.

(** C8, as the code has it: the writer builds the layer element, then
    packs the tile ids, and only then looks at the compression; it
    compresses before it looks at the encoding.  An unknown compression
    is reported only when the layer element is built and packing has gone
    through, an unknown encoding only when, after these, the writing of
    the gzip stream has gone through for gzip. *)
Theorem write_checks_follow_packing (env : Env) (map : Map) (layer : ArrayMapLayer) :
  (bad_compression layer ->
   tile_layer_to_element env map layer
   = try _ <- tile_layer_frame env map layer in
     try _ <- struct_pack (tiles_data layer) in
     Raise (ValueError "Bad compression"))
  /\ (bad_encoding layer ->
      is_str (compression_of layer) "gzip" = true ->
      tile_layer_to_element env map layer
      = try _ <- tile_layer_frame env map layer in
        try data <- struct_pack (tiles_data layer) in
        try _ <- gzip_write env (tiles_mtime layer) data in
        Raise (ValueError "Bad encoding"))
  /\ (bad_encoding layer ->
      is_str (compression_of layer) "gzip" = false ->
      is_str (compression_of layer) "zlib" = true
      \/ opt_truthy (compression_of layer) = false ->
      tile_layer_to_element env map layer
      = try _ <- tile_layer_frame env map layer in
        try _ <- struct_pack (tiles_data layer) in
        Raise (ValueError "Bad encoding")).
Proof.
  unfold tile_layer_frame.
  rewrite tile_layer_to_element_accepted, layer_element_accepted.
  unfold accepted_tile_layer.
  destruct (accepted_layer env (tiles_name layer) (tiles_opacity layer)
              (tiles_properties layer)); cbn [bind].
  - apply written_checks_follow_packing.
  - repeat split; reflexivity.
Qed.

Lemma write_checks_follow_packing_witness :
  tile_layer_to_element (run_env 0) (Map_new (1, 1) (8, 8) "orthogonal" None)
    layer_lzma_ok
  = try _ <- tile_layer_frame (run_env 0) (Map_new (1, 1) (8, 8) "orthogonal" None)
               layer_lzma_ok in
    try _ <- struct_pack [1] in Raise (ValueError "Bad compression").
Proof.
  apply (proj1 (write_checks_follow_packing (run_env 0)
                  (Map_new (1, 1) (8, 8) "orthogonal" None) layer_lzma_ok)).
  repeat split.
Defined.

(** With a tile id that does not fit 32 bits, an unknown compression or
    encoding is not what the writer reports: packing comes first. *)
Lemma packing_precedes_checks :
  tile_layer_to_element (run_env 0) (Map_new (1, 1) (8, 8) "orthogonal" None) layer_lzma
  = Raise (StructError "'I' format requires 0 <= number <= 4294967295")
  /\ tile_layer_to_element (run_env 0) (Map_new (1, 1) (8, 8) "orthogonal" None) layer_hex
     = Raise (StructError "'I' format requires 0 <= number <= 4294967295").
Proof. split; vm_compute; reflexivity. Qed.

Lemma gzip_write_mtime (env : Env) (now mtime : Z) (data : string) :
  gzip_write (at_time now env) (Some mtime) data = gzip_write env (Some mtime) data.
Proof. reflexivity. Qed.

Lemma tile_layer_to_element_clock (env : Env) (now : Z) (map : Map)
    (layer : ArrayMapLayer) :
  clock_free (Tiles layer) ->
  tile_layer_to_element (at_time now env) map layer
  = tile_layer_to_element env map layer.
Proof.
  simpl. intros Hfree. unfold tile_layer_to_element.
  change (layer_element (at_time now env)) with (layer_element env).
  destruct (layer_element env "layer" (tiles_name layer) map (tiles_visible layer)
              (tiles_opacity layer) (tiles_properties layer)) as [element|e];
    cbn [bind]; [|reflexivity].
  destruct (struct_pack (tiles_data layer)) as [data|e]; simpl; [|reflexivity].
  destruct (is_str (default (Some "zlib") (tiles_compression layer)) "gzip") eqn:Hgz;
    [|reflexivity].
  destruct (Hfree eq_refl) as [mtime ->]. reflexivity.
Qed.

Lemma layer_to_element_clock (env : Env) (now : Z) (map : Map) (layer : Layer) :
  clock_free layer ->
  layer_to_element (at_time now env) map layer = layer_to_element env map layer.
Proof.
  destruct layer as [layer|layer]; intros Hfree.
  - apply tile_layer_to_element_clock, Hfree.
  - reflexivity.
Qed.

(** C3, as the code has it: what [write_map] returns, the tree it builds
    or the exception it raises, does not depend on the time of the call
    when every tile layer written with gzip has an [mtime]; layers
    written with zlib or without compression never read the clock. *)
Theorem write_map_clock_free (env : Env) (now : Z) (map : Map)
    (base_path : option string) :
  Forall clock_free (map_layers map) ->
  write_map (at_time now env) map base_path = write_map env map base_path.
Proof.
  intros Hfree. unfold write_map.
  change (first_gid (at_time now env)) with (first_gid env).
  destruct (Element_new "map" _) as [elem|e]; cbn [bind]; [|reflexivity].
  destruct (append_properties elem (map_properties map)) as [elem1|e]; cbn [bind];
    [|reflexivity].
  destruct (for_each _ elem1 (imap pair (map_tilesets map))) as [elem2|e]; cbn [bind];
    [|reflexivity].
  apply for_each_ext. intros elem3 layer Hlayer.
  rewrite layer_to_element_clock; [reflexivity|].
  rewrite Forall_forall in Hfree. apply Hfree, Hlayer.
Qed.

Lemma write_map_clock_free_witness :
  write_map (at_time 1 (run_env 0)) gzip_map_mtime None
  = write_map (run_env 0) gzip_map_mtime None.
Proof.
  apply (write_map_clock_free (run_env 0) 1 gzip_map_mtime None).
  repeat constructor. intros _. exists 0. reflexivity.
Defined.

(** A map with a gzip layer that has no [mtime], written when the clock
    reads 0 and when it reads 1: the two trees differ in the data text. *)
Lemma gzip_write_reads_the_clock :
  exists e0 e1,
    write_map (run_env 0) gzip_map None = OK e0
    /\ write_map (run_env 1) gzip_map None = OK e1
    /\ data_text e0 = Some "H4sIAAAAAAAC/1MBAAAA"
    /\ data_text e1 = Some "H4sIAAEAAAAC/1MBAAAA"
    /\ e0 <> e1.
Proof.
  eexists. eexists.
  split; [vm_compute; reflexivity|].
  split; [vm_compute; reflexivity|].
  split; [vm_compute; reflexivity|].
  split; [vm_compute; reflexivity|].
  intros H. apply (f_equal data_text) in H. vm_compute in H. discriminate H.
Qed.

(** ** Property elements in the tree that is written *)

Lemma has_tag_eq (t : string) (e : Element) :
  has_tag t e = String.eqb (tag e) t || existsb (has_tag t) (children e).
Proof. destruct e. reflexivity. Qed.

Lemma has_tag_plain (t tg : string) (a : gmap string string) :
  has_tag t (plain_element tg a) = String.eqb tg t.
Proof. rewrite has_tag_eq. simpl. apply orb_false_r. Qed.

Lemma has_tag_append (t : string) (parent child : Element) :
  has_tag t (append parent child) = has_tag t parent || has_tag t child.
Proof.
  rewrite (has_tag_eq t (append parent child)), (has_tag_eq t parent). simpl.
  rewrite existsb_app. simpl. rewrite orb_false_r, orb_assoc. reflexivity.
Qed.

Lemma has_tag_with_attrib (t key value : string) (e : Element) :
  has_tag t (with_attrib key value e) = has_tag t e.
Proof. rewrite (has_tag_eq t (with_attrib key value e)), (has_tag_eq t e). reflexivity. Qed.

Lemma has_tag_with_text (t data : string) (e : Element) :
  has_tag t (with_text data e) = has_tag t e.
Proof. rewrite (has_tag_eq t (with_text data e)), (has_tag_eq t e). reflexivity. Qed.

Lemma has_tag_fold_append (t : string) (l : list Element) :
  forall e, has_tag t (fold_left append l e) = has_tag t e || existsb (has_tag t) l.
Proof.
  induction l as [|x l IH]; intros e; simpl.
  - rewrite orb_false_r. reflexivity.
  - rewrite IH, has_tag_append, orb_assoc. reflexivity.
Qed.

Lemma with_properties_empty (parent : Element) : with_properties parent ∅ = parent.
Proof. reflexivity. Qed.

Section no_properties_node.

Variable env : Env.

Lemma written_layer_no_properties (tg name : string) (map : Map) (visible : bool)
    (opacity : float) :
  has_tag "properties" (written_layer env tg name map visible opacity ∅)
  = String.eqb tg "properties".
Proof.
  unfold written_layer. rewrite with_properties_empty.
  destruct (negb (PrimFloat.eqb opacity 1)), (negb visible);
    rewrite ?has_tag_with_attrib; apply has_tag_plain.
Qed.

Lemma written_image_no_properties (image : Image) (base_path : option string) :
  has_tag "properties" (written_image image base_path) = false.
Proof.
  unfold written_image.
  destruct (image_trans image) as [[|c rgb]|],
           (negb (fst (image_size image) =? 0)),
           (negb (snd (image_size image) =? 0));
    rewrite ?has_tag_with_attrib; apply has_tag_plain.
Qed.

Lemma with_tiles_empty (items : list (Z * gmap string string)) :
  Forall (fun item => snd item = ∅) items ->
  forall element, fold_left with_tile items element = element.
Proof.
  induction 1 as [|[tile_no props] items Hempty _ IH]; intros element; simpl.
  - reflexivity.
  - simpl in Hempty. subst props. apply IH.
Qed.

Lemma sorted_items_empty (tp : gmap Z (gmap string string)) :
  (forall id props, tp !! id = Some props -> props = ∅) ->
  Forall (fun item => snd item = ∅) (sorted_items tp).
Proof.
  intros Hempty. apply Forall_forall. intros [id props] Hin.
  unfold sorted_items in Hin. rewrite merge_sort_Permutation in Hin.
  apply elem_of_map_to_list in Hin. simpl. eapply Hempty, Hin.
Qed.

Lemma written_tileset_no_properties (tileset : Tileset) (base_path : option string)
    (gid : option Z) :
  (forall id props, tileset_tile_properties tileset !! id = Some props -> props = ∅) ->
  has_tag "properties" (written_tileset tileset base_path gid) = false.
Proof.
  intros Hempty. unfold written_tileset.
  destruct (tileset_source tileset) as [source|].
  - apply has_tag_plain.
  - rewrite with_tiles_empty by apply sorted_items_empty, Hempty.
    destruct (tileset_image tileset) as [image|];
      rewrite ?has_tag_append, ?written_image_no_properties;
      destruct (negb (tileset_margin tileset =? 0)),
               (negb (tileset_spacing tileset =? 0));
      rewrite ?has_tag_with_attrib, has_tag_plain; reflexivity.
Qed.

Lemma with_object_no_properties (map : Map) (element : Element) (object : MapObject) :
  has_tag "properties" (with_object env map element object)
  = has_tag "properties" element.
Proof.
  unfold with_object. rewrite has_tag_append, has_tag_plain. apply orb_false_r.
Qed.

Lemma written_object_layer_no_properties (map : Map) (layer : ObjectLayer) :
  objects_properties layer = ∅ ->
  has_tag "properties" (written_object_layer env map layer) = false.
Proof.
  intros Hempty. unfold written_object_layer. rewrite Hempty.
  generalize (written_layer_no_properties "objectgroup" (objects_name layer) map
                (objects_visible layer) (objects_opacity layer)).
  generalize (written_layer env "objectgroup" (objects_name layer) map
                (objects_visible layer) (objects_opacity layer) ∅).
  induction (objects layer) as [|object l IH]; intros element Helement; simpl.
  - exact Helement.
  - apply IH. rewrite with_object_no_properties. exact Helement.
Qed.

Lemma written_tile_layer_no_properties (map : Map) (layer : ArrayMapLayer) (element : Element) :
  tiles_properties layer = ∅ ->
  written_tile_layer env map layer = OK element ->
  has_tag "properties" element = false.
Proof.
  intros Hempty. unfold written_tile_layer. rewrite Hempty. intros H.
  apply bind_OK in H as (data & _ & H).
  apply bind_OK in H as ([data1 extra1] & _ & H).
  apply bind_OK in H as ([data2 extra2] & _ & [= <-]).
  rewrite has_tag_append, has_tag_with_text, has_tag_plain, written_layer_no_properties.
  reflexivity.
Qed.

Lemma written_map_layer_no_properties (map : Map) (layer : Layer) (element : Element) :
  layer_properties layer = ∅ ->
  written_map_layer env map layer = OK element ->
  has_tag "properties" element = false.
Proof.
  destruct layer as [layer|layer]; simpl; intros Hempty Hwrite.
  - eapply written_tile_layer_no_properties; eassumption.
  - injection Hwrite as <-. apply written_object_layer_no_properties, Hempty.
Qed.

Lemma existsb_imap_false {A B : Type} (p : B -> bool) (f : nat -> A -> B) (l : list A) :
  (forall i x, l !! i = Some x -> p (f i x) = false) ->
  existsb p (imap f l) = false.
Proof.
  revert f. induction l as [|x l IH]; intros f Hf; simpl; [reflexivity|].
  rewrite (Hf 0%nat x eq_refl). simpl.
  apply IH. intros i y Hy. apply (Hf (S i) y Hy).
Qed.

Lemma written_map_no_properties (map : Map) (base_path : option string)
    (elem : Element) :
  no_properties map ->
  written_map env map base_path = OK elem ->
  has_tag "properties" elem = false.
Proof.
  intros (Hmap & Hlayers & Htilesets). unfold written_map. rewrite Hmap.
  rewrite with_properties_empty. intros Hrun.
  eapply (for_each_invariant_in (fun e => has_tag "properties" e = false));
    [| |exact Hrun].
  - intros element layer element' Hlayer Helement Hstep.
    apply bind_OK in Hstep as (e & He & [= <-]).
    rewrite has_tag_append, Helement. simpl.
    eapply written_map_layer_no_properties; [|exact He].
    rewrite Forall_forall in Hlayers. apply Hlayers, Hlayer.
  - rewrite has_tag_fold_append, has_tag_plain. simpl.
    apply existsb_imap_false. intros i tileset Hi.
    apply written_tileset_no_properties.
    rewrite Forall_forall in Htilesets. apply Htilesets.
    eapply list_elem_of_lookup_2, Hi.
Qed.

(** C9: when every property bag of a map is empty (its own, those of
    its layers, those of the tiles of its tilesets), the tree [write_map]
    builds has no [properties] element anywhere. *)
Theorem write_map_no_properties (map : Map) (base_path : option string)
    (elem : Element) :
  no_properties map ->
  write_map env map base_path = OK elem ->
  has_tag "properties" elem = false.
Proof.
  intros Hnone Hwrite.
  destruct (accepted_map env map) eqn:Haccepted.
  - rewrite write_map_accepted in Hwrite by exact Haccepted.
    eapply written_map_no_properties; eassumption.
  - pose proof (write_map_refused env map base_path Haccepted) as Hrefused.
    rewrite Hwrite in Hrefused. discriminate Hrefused.
Qed.

End no_properties_node.

Lemma write_map_no_properties_witness :
  exists elem,
    write_map (run_env 0) plain_map None = OK elem
    /\ has_tag "properties" elem = false.
Proof.
  eexists. split; [vm_compute; reflexivity|].
  apply (write_map_no_properties (run_env 0) plain_map None).
  - split; [reflexivity|]. split; repeat constructor.
    simpl. intros id props [_ <-]%lookup_singleton_Some. reflexivity.
  - vm_compute. reflexivity.
Defined.

(** ** First global tile ids *)







(** ** Writing, then reading *)

(** Through [to_rgb], a map whose tileset image has the transparent
    colour (1, 2, 3) does not come back from [write_map] followed by
    [read_map]: the colour is written as "102030" and read as
    (16, 32, 48). *)
Theorem round_trip_changes_colour (env : Env) :
  bind (write_map env (coloured_map [1; 2; 3] None) None)
    (fun elem => read_map env elem None)
  = OK (coloured_map [16; 32; 48] (Some 1)).
Proof. vm_compute. reflexivity. Qed.

(** * Writing, then reading: what does come back *)

Lemma chr_ord (c : ascii) : chr (ord c) = c.
Proof.
  unfold chr, ord. rewrite N2Z.id. apply ascii_N_embedding.
Qed.

Lemma ord_chr (n : Z) : 0 <= n < 256 -> ord (chr n) = n.
Proof.
  intros Hn. unfold chr, ord. rewrite N_ascii_embedding by lia. lia.
Qed.

Lemma b64_char_value (v : Z) :
  0 <= v < 64 ->
  b64_skipped (b64_char v) = false
  /\ is_pad (b64_char v) = false
  /\ b64_value (b64_char v) = Some v.
Proof.
  intros Hv.
  assert (forallb
            (fun n =>
               let v := Z.of_nat n in
               negb (b64_skipped (b64_char v)) && negb (is_pad (b64_char v))
               && bool_decide (b64_value (b64_char v) = Some v))
            (seq 0 64) = true) as Hall by (vm_compute; reflexivity).
  rewrite forallb_forall in Hall.
  specialize (Hall (Z.to_nat v)). rewrite Z2Nat.id in Hall by lia.
  assert (In (Z.to_nat v) (seq 0 64)) as Hin by (apply in_seq; lia).
  apply Hall in Hin.
  apply andb_prop in Hin as [[Hs Hp]%andb_prop Hval].
  apply negb_true_iff in Hs, Hp. apply bool_decide_eq_true in Hval. auto.
Qed.

(** One character of the alphabet shifts six bits in. *)
Lemma a2b_base64_char (v : Z) (rest : string) (quad_pos leftchar leftbits : Z) :
  0 <= v < 64 ->
  a2b_base64 (String (b64_char v) rest) quad_pos leftchar leftbits
  = if 8 <=? leftbits + 6 then
      try r <- a2b_base64 rest ((quad_pos + 1) mod 4)
                 ((leftchar * 64 + v) mod 2 ^ (leftbits + 6 - 8)) (leftbits + 6 - 8) in
      OK (String (chr ((leftchar * 64 + v) / 2 ^ (leftbits + 6 - 8) mod 256)) r)
    else a2b_base64 rest ((quad_pos + 1) mod 4) (leftchar * 64 + v) (leftbits + 6).
Proof.
  intros Hv. destruct (b64_char_value v Hv) as (Hs & Hp & Hval).
  simpl. rewrite Hs, Hp, Hval. reflexivity.
Qed.

Ltac div_mod_lia := Z.div_mod_to_equations; lia.

Lemma a2b_base64_bits_0 (v : Z) (rest : string) (quad_pos leftchar : Z) :
  0 <= v < 64 ->
  a2b_base64 (String (b64_char v) rest) quad_pos leftchar 0
  = a2b_base64 rest ((quad_pos + 1) mod 4) (leftchar * 64 + v) 6.
Proof. intros Hv. rewrite a2b_base64_char by exact Hv. reflexivity. Qed.

Lemma a2b_base64_bits_6 (v : Z) (rest : string) (quad_pos leftchar : Z) :
  0 <= v < 64 ->
  a2b_base64 (String (b64_char v) rest) quad_pos leftchar 6
  = try r <- a2b_base64 rest ((quad_pos + 1) mod 4) ((leftchar * 64 + v) mod 16) 4 in
    OK (String (chr ((leftchar * 64 + v) / 16 mod 256)) r).
Proof. intros Hv. rewrite a2b_base64_char by exact Hv. reflexivity. Qed.

Lemma a2b_base64_bits_4 (v : Z) (rest : string) (quad_pos leftchar : Z) :
  0 <= v < 64 ->
  a2b_base64 (String (b64_char v) rest) quad_pos leftchar 4
  = try r <- a2b_base64 rest ((quad_pos + 1) mod 4) ((leftchar * 64 + v) mod 4) 2 in
    OK (String (chr ((leftchar * 64 + v) / 4 mod 256)) r).
Proof. intros Hv. rewrite a2b_base64_char by exact Hv. reflexivity. Qed.

Lemma a2b_base64_bits_2 (v : Z) (rest : string) (quad_pos leftchar : Z) :
  0 <= v < 64 ->
  a2b_base64 (String (b64_char v) rest) quad_pos leftchar 2
  = try r <- a2b_base64 rest ((quad_pos + 1) mod 4) ((leftchar * 64 + v) mod 1) 0 in
    OK (String (chr ((leftchar * 64 + v) / 1 mod 256)) r).
Proof. intros Hv. rewrite a2b_base64_char by exact Hv. reflexivity. Qed.

(** The sextets of three bytes, and the bytes they give back. *)
Lemma sextets_first (x y : Z) :
  0 <= x < 256 -> 0 <= y < 256 ->
  ((0 * 64 + x / 4) * 64 + (x mod 4 * 16 + y / 16)) / 16 mod 256 = x
  /\ ((0 * 64 + x / 4) * 64 + (x mod 4 * 16 + y / 16)) mod 16 = y / 16.
Proof. intros Hx Hy. split; div_mod_lia. Qed.

Lemma sextets_second (y z : Z) :
  0 <= y < 256 -> 0 <= z < 256 ->
  (y / 16 * 64 + (y mod 16 * 4 + z / 64)) / 4 mod 256 = y
  /\ (y / 16 * 64 + (y mod 16 * 4 + z / 64)) mod 4 = z / 64.
Proof. intros Hy Hz. split; div_mod_lia. Qed.

Lemma sextets_third (z : Z) :
  0 <= z < 256 ->
  (z / 64 * 64 + z mod 64) / 1 mod 256 = z
  /\ (z / 64 * 64 + z mod 64) mod 1 = 0.
Proof. intros Hz. split; div_mod_lia. Qed.

Lemma a2b_base64_three (a b c : ascii) (rest : string) :
  a2b_base64
    (String (b64_char (ord a / 4))
       (String (b64_char (ord a mod 4 * 16 + ord b / 16))
          (String (b64_char (ord b mod 16 * 4 + ord c / 64))
             (String (b64_char (ord c mod 64)) rest)))) 0 0 0
  = try r <- a2b_base64 rest 0 0 0 in OK (String a (String b (String c r))).
Proof.
  pose proof (ord_range a) as Ha. pose proof (ord_range b) as Hb.
  pose proof (ord_range c) as Hc.
  rewrite a2b_base64_bits_0 by div_mod_lia.
  rewrite a2b_base64_bits_6 by div_mod_lia.
  destruct (sextets_first (ord a) (ord b) Ha Hb) as [-> ->].
  rewrite a2b_base64_bits_4 by div_mod_lia.
  destruct (sextets_second (ord b) (ord c) Hb Hc) as [-> ->].
  rewrite a2b_base64_bits_2 by div_mod_lia.
  destruct (sextets_third (ord c) Hc) as [-> ->].
  rewrite !chr_ord.
  change (((((0 + 1) mod 4 + 1) mod 4 + 1) mod 4 + 1) mod 4) with 0.
  destruct (a2b_base64 rest 0 0 0); reflexivity.
Qed.

Lemma a2b_base64_two (a b : ascii) :
  a2b_base64
    (String (b64_char (ord a / 4))
       (String (b64_char (ord a mod 4 * 16 + ord b / 16))
          (String (b64_char (ord b mod 16 * 4)) "="))) 0 0 0
  = OK (String a (String b EmptyString)).
Proof.
  pose proof (ord_range a) as Ha. pose proof (ord_range b) as Hb.
  rewrite a2b_base64_bits_0 by div_mod_lia.
  rewrite a2b_base64_bits_6 by div_mod_lia.
  destruct (sextets_first (ord a) (ord b) Ha Hb) as [-> ->].
  rewrite a2b_base64_bits_4 by div_mod_lia.
  replace ((ord b / 16 * 64 + ord b mod 16 * 4) / 4 mod 256) with (ord b)
    by div_mod_lia.
  rewrite !chr_ord. reflexivity.
Qed.

Lemma a2b_base64_one (a : ascii) :
  a2b_base64
    (String (b64_char (ord a / 4)) (String (b64_char (ord a mod 4 * 16)) "==")) 0 0 0
  = OK (String a EmptyString).
Proof.
  pose proof (ord_range a) as Ha.
  rewrite a2b_base64_bits_0 by div_mod_lia.
  rewrite a2b_base64_bits_6 by div_mod_lia.
  replace (((0 * 64 + ord a / 4) * 64 + ord a mod 4 * 16) / 16 mod 256) with (ord a)
    by div_mod_lia.
  rewrite chr_ord. reflexivity.
Qed.

(** Decoding undoes encoding. *)
Lemma b64decode_b64encode (s : string) : b64decode (Some (b64encode s)) = OK s.
Proof.
  unfold b64decode.
  induction s as [|a|a b|a b c rest IH] using string_by_three.
  - reflexivity.
  - apply a2b_base64_one.
  - apply a2b_base64_two.
  - change (b64encode (String a (String b (String c rest))))
      with (String (b64_char (ord a / 4))
              (String (b64_char (ord a mod 4 * 16 + ord b / 16))
                 (String (b64_char (ord b mod 16 * 4 + ord c / 64))
                    (String (b64_char (ord c mod 64)) (b64encode rest))))).
    rewrite a2b_base64_three, IH. reflexivity.
Qed.

Lemma lstrip_no_space (s : string) : no_space s -> lstrip s = s.
Proof. destruct s as [|c s]; simpl; [reflexivity|]. intros [-> _]. reflexivity. Qed.

Lemma rstrip_no_space (s : string) : no_space s -> rstrip s = s.
Proof.
  induction s as [|c s IH]; simpl; [reflexivity|].
  intros [Hc Hs]. rewrite IH by exact Hs. rewrite Hc.
  destruct s; reflexivity.
Qed.

Lemma strip_no_space (s : string) : no_space s -> strip s = s.
Proof.
  intros Hs. unfold strip. rewrite lstrip_no_space by exact Hs.
  apply rstrip_no_space, Hs.
Qed.

Lemma string_of_uint_no_space (d : Decimal.uint) :
  no_space (DecimalString.NilEmpty.string_of_uint d).
Proof. induction d; simpl; auto. Qed.

Lemma str_no_space (n : Z) : no_space (str n).
Proof.
  unfold str. destruct (Z.to_int n) as [d|d]; simpl.
  - destruct d; simpl; auto using string_of_uint_no_space.
  - split; [reflexivity|].
    destruct d; simpl; auto using string_of_uint_no_space.
Qed.

(** [int] reads back what [str] prints. *)
Lemma int_str (n : Z) : int (str n) = OK n.
Proof.
  unfold int. rewrite strip_no_space by apply str_no_space.
  assert (DecimalString.NilZero.int_of_string (str n) = Some (Z.to_int n)) as Hparse.
  { unfold str. apply DecimalString.NilZero.isi.
    - destruct n; simpl; try discriminate.
      intros [= H]. exact (DecimalPos.Unsigned.to_uint_nonnil _ H).
    - destruct n; simpl; try discriminate.
      intros [= H]. exact (DecimalPos.Unsigned.to_uint_nonnil _ H). }
  replace (match str n with
           | String "+" (String "-" _) | String "+" (String "+" _) => EmptyString
           | String "+" r => r
           | _ => str n
           end) with (str n).
  - rewrite Hparse, DecimalZ.of_to. reflexivity.
  - unfold str. destruct (Z.to_int n) as [d|d]; [|reflexivity].
    destruct d; reflexivity.
Qed.

Lemma append_String (c : ascii) (s r : string) :
  String c s +:+ r = String c (s +:+ r).
Proof. reflexivity. Qed.

Lemma append_empty (r : string) : EmptyString +:+ r = r.
Proof. reflexivity. Qed.

Lemma pack_I_tile_ids (v : Z) (b rest : string) :
  pack_I v = OK b -> tile_ids (b +:+ rest) = v :: tile_ids rest.
Proof.
  unfold pack_I.
  destruct ((0 <=? v) && (v <=? 4294967295)) eqn:Hv; [|discriminate].
  intros [= <-]. apply andb_prop in Hv as [H0 H1].
  rewrite !append_String, append_empty, tile_ids_four. f_equal.
  rewrite !ord_chr by div_mod_lia.
  rewrite !Z.shiftl_mul_pow2 by lia.
  change (2 ^ 8) with 256. change (2 ^ 16) with 65536. change (2 ^ 24) with 16777216.
  div_mod_lia.
Qed.

(** Tile ids that fit 32 bits are packed, and the bytes give them back. *)
Lemma struct_pack_tile_ids (data : list Z) :
  Forall (fun v => 0 <= v < 4294967296) data ->
  exists s, struct_pack data = OK s /\ tile_ids s = data.
Proof.
  induction 1 as [|v data Hv _ (s & Hs & Hids)]; simpl.
  - exists EmptyString. split; reflexivity.
  - destruct (pack_I v) as [b|e] eqn:Hb.
    + rewrite Hs. simpl. exists (b +:+ s). split; [reflexivity|].
      rewrite (pack_I_tile_ids v b s Hb), Hids. reflexivity.
    + exfalso. unfold pack_I in Hb.
      replace ((0 <=? v) && (v <=? 4294967295)) with true in Hb; [discriminate|].
      symmetry. apply andb_true_intro. split; lia.
Qed.

(** ** Property bags: writing, then reading *)

Lemma fold_insert_map_to_list (m : gmap string string) :
  fold_left (fun m item => <[fst item := snd item]> m) (map_to_list m) ∅ = m.
Proof.
  apply map_eq. intros k.
  destruct (m !! k) as [v|] eqn:Hk.
  - pose proof (NoDup_fst_map_to_list m) as Hnodup.
    apply elem_of_map_to_list, list_elem_of_split in Hk as (pre & post & Hsplit).
    rewrite Hsplit in Hnodup |- *.
    apply (fold_insert_last _ ∅ k v post pre eq_refl).
    rewrite fmap_app, fmap_cons in Hnodup. simpl in Hnodup.
    apply NoDup_app in Hnodup as (_ & _ & Hpost).
    apply NoDup_cons in Hpost as [Hpost _]. exact Hpost.
  - rewrite fold_insert_absent; [apply lookup_empty|].
    intros ((k' & v) & -> & Hin%elem_of_map_to_list)%list_elem_of_fmap.
    simpl in Hk. congruence.
Qed.

Lemma with_property_children (l : list (string * string)) (e : Element) :
  fold_left
    (fun element '(key, value) =>
       append element
         (plain_element "property" (dict [("name", key); ("value", value)]))) l e
  = mkElement (tag e) (attrib e) (text e) (children e ++ map property_element l).
Proof.
  revert e. induction l as [|[key value] l IH]; intros e; simpl.
  - rewrite app_nil_r. destruct e; reflexivity.
  - rewrite IH. simpl. rewrite <- app_assoc. reflexivity.
Qed.

Lemma with_properties_eq (parent : Element) (props : gmap string string) :
  with_properties parent props
  = if is_empty props then parent else append parent (properties_element props).
Proof.
  unfold with_properties. destruct (is_empty props); [reflexivity|].
  rewrite with_property_children. reflexivity.
Qed.

Lemma read_properties_element (props : gmap string string) :
  read_properties (properties_element props) = OK props.
Proof.
  unfold read_properties. simpl.
  rewrite (read_property_loop _ (map_to_list props)).
  - rewrite fold_insert_map_to_list. reflexivity.
  - induction (map_to_list props) as [|item l IH]; constructor; [|exact IH].
    split; reflexivity.
Qed.

(** ** Layer attributes: writing, then reading *)

Lemma layer_leftover_empty (a : gmap string string) :
  (forall k, is_Some (a !! k) -> k ∈ layer_attributes) -> layer_leftover a = ∅.
Proof.
  intros Hall. apply map_eq. intros k. rewrite lookup_empty.
  unfold layer_leftover.
  destruct (decide (k ∈ layer_attributes)) as [Hk|Hk].
  - unfold layer_attributes in Hk.
    repeat (apply elem_of_cons in Hk as [-> | Hk];
            [ repeat first [ apply lookup_delete_eq | rewrite lookup_delete_ne by done ] | ]).
    apply elem_of_nil in Hk as [].
  - repeat (rewrite lookup_delete_ne;
            [| intros <-; apply Hk; unfold layer_attributes;
               repeat first [ apply list_elem_of_here | apply list_elem_of_further ] ]).
    destruct (a !! k) as [v|] eqn:Hv; [|reflexivity].
    exfalso. apply Hk, Hall. eauto.
Qed.

Lemma read_layer_attrib_lookup (env : Env) (kind : string) (elem : Element) (map : Map)
    (name sw sh : string) :
  attrib elem !! "name" = Some name ->
  attrib elem !! "width" = Some sw ->
  attrib elem !! "height" = Some sh ->
  int sw = OK (fst (map_size map)) ->
  int sh = OK (snd (map_size map)) ->
  (forall k, is_Some (attrib elem !! k) -> k ∈ layer_attributes) ->
  read_layer_attrib env kind elem map
  = try opacity <- float_default env (attrib elem !! "opacity") in
    try visible <- int_default (attrib elem !! "visible") 1 in
    OK (name, opacity, negb (visible =? 0)).
Proof.
  intros Hname Hwidth Hheight Hw Hh Hall.
  unfold read_layer_attrib, pop_default.
  rewrite (pop_Some _ _ _ Hname). simpl.
  rewrite !lookup_delete_ne by done.
  destruct (float_default env (attrib elem !! "opacity")) as [opacity|e]; simpl;
    [|reflexivity].
  destruct (int_default (attrib elem !! "visible") 1) as [visible|e]; simpl;
    [|reflexivity].
  rewrite (pop_Some "width" sw) by (rewrite !lookup_delete_ne by done; exact Hwidth).
  simpl. rewrite Hw. simpl.
  rewrite (pop_Some "height" sh) by (rewrite !lookup_delete_ne by done; exact Hheight).
  simpl. rewrite Hh. simpl.
  rewrite bool_decide_eq_true_2 by (destruct (map_size map); reflexivity).
  simpl.
  fold (layer_leftover (attrib elem)).
  rewrite layer_leftover_empty by exact Hall.
  reflexivity.
Qed.

Lemma written_layer_eq (env : Env) (tg name : string) (map : Map) (visible : bool)
    (opacity : float) (props : gmap string string) :
  written_layer env tg name map visible opacity props
  = mkElement tg (layer_attrib env name map visible opacity) None
      (if is_empty props then [] else [properties_element props]).
Proof.
  unfold written_layer, layer_attrib. rewrite with_properties_eq.
  destruct (negb (PrimFloat.eqb opacity 1)), (negb visible), (is_empty props);
    reflexivity.
Qed.

Lemma layer_attrib_lookup (env : Env) (name : string) (map : Map) (visible : bool)
    (opacity : float) :
  let a := layer_attrib env name map visible opacity in
  a !! "name" = Some name
  /\ a !! "width" = Some (str (fst (map_size map)))
  /\ a !! "height" = Some (str (snd (map_size map)))
  /\ a !! "visible" = (if visible then None else Some "0")
  /\ a !! "opacity" = (if PrimFloat.eqb opacity 1%float then None
                       else Some (str_of_float env opacity))
  /\ (forall k, is_Some (a !! k) -> k ∈ layer_attributes).
Proof.
  unfold layer_attrib, dict, layer_attributes.
  destruct visible, (PrimFloat.eqb opacity 1); simpl;
    (repeat split; [simplify_map_eq; reflexivity ..|]);
    intros k [v Hk];
    repeat (apply lookup_insert_Some in Hk as [[<- _] | [_ Hk]];
            [ repeat first [ apply list_elem_of_here | apply list_elem_of_further ] | ]);
    rewrite lookup_empty in Hk; discriminate Hk.
Qed.

(** ** Tile layers: writing, then reading *)

Lemma a2b_base64_b64encode (s : string) : a2b_base64 (b64encode s) 0 0 0 = OK s.
Proof. apply (b64decode_b64encode s). Qed.

Lemma pack_I_OK (v : Z) :
  0 <= v < 4294967296 -> exists b, pack_I v = OK b.
Proof.
  intros Hv. unfold pack_I.
  replace ((0 <=? v) && (v <=? 4294967295)) with true; [eauto|].
  symmetry. apply andb_true_intro. split; lia.
Qed.

Lemma gzip_header_OK (mtime : Z) :
  0 <= mtime < 4294967296 -> exists header, gzip_header mtime = OK header.
Proof.
  intros Hmtime. unfold gzip_header.
  destruct (pack_I_OK _ Hmtime) as [m ->]. simpl. eauto.
Qed.

(** The attributes of a layer element that was written are read back. *)
Lemma read_layer_attrib_written (env : Env) (kind tg name : string) (map : Map)
    (visible : bool) (opacity : float) (props : gmap string string) :
  opacity_prints env opacity ->
  read_layer_attrib env kind
    (written_layer env tg name map visible opacity props) map
  = OK (name, opacity, visible).
Proof.
  intros Hopacity. rewrite written_layer_eq.
  destruct (layer_attrib_lookup env name map visible opacity)
    as (Hname & Hwidth & Hheight & Hvisible & Hop & Hall).
  rewrite (read_layer_attrib_lookup env kind
             (mkElement tg (layer_attrib env name map visible opacity) None
                (if is_empty props then [] else [properties_element props]))
             map name _ _ Hname Hwidth Hheight)
    by (try apply int_str; exact Hall).
  simpl attrib. rewrite Hop, Hvisible.
  unfold opacity_prints in Hopacity.
  destruct (PrimFloat.eqb opacity 1); simpl.
  - rewrite Hopacity. destruct visible; reflexivity.
  - rewrite Hopacity. simpl. destruct visible; reflexivity.
Qed.

(** The [data] element of a layer that was written gives the packed
    tile ids back. *)
Lemma read_data_bytes_written (env : Env) (layer : ArrayMapLayer) (map : Map)
    (packed : string) :
  lossless env ->
  tiles_encoding layer = Some (Some "base64") ->
  (exists c, tiles_compression layer = Some c /\ supported c) ->
  (tiles_compression layer = Some (Some "gzip") ->
   0 <= default (time_time env) (tiles_mtime layer) < 4294967296) ->
  struct_pack (tiles_data layer) = OK packed ->
  exists data_elem,
    written_tile_layer env map layer
    = OK (append (written_layer env "layer" (tiles_name layer) map (tiles_visible layer)
                    (tiles_opacity layer) (tiles_properties layer)) data_elem)
    /\ tag data_elem = "data"
    /\ read_data_bytes env data_elem
       = OK (packed, default None (tiles_compression layer)).
Proof.
  intros [Hzlib Hgzip] Henc (c & Hc & Hsupported) Hmtime Hpacked.
  rewrite Hc in Hmtime.
  unfold written_tile_layer. rewrite Hpacked, Henc, Hc. simpl.
  destruct Hsupported as [-> | [-> | ->]]; simpl.
  - eexists. split; [reflexivity|]. split; [reflexivity|].
    unfold read_data_bytes, pop_default. simpl.
    rewrite (pop_Some "encoding" "base64") by (simplify_map_eq; reflexivity).
    simpl. rewrite a2b_base64_b64encode. simpl.
    simplify_map_eq. reflexivity.
  - eexists. split; [reflexivity|]. split; [reflexivity|].
    unfold read_data_bytes, pop_default. simpl.
    rewrite (pop_Some "encoding" "base64") by (simplify_map_eq; reflexivity).
    simpl. rewrite a2b_base64_b64encode. simpl.
    simplify_map_eq. simpl. rewrite Hzlib. reflexivity.
  - unfold gzip_write.
    destruct (gzip_header_OK _ (Hmtime eq_refl)) as [header Hheader].
    rewrite Hheader. simpl.
    eexists. split; [reflexivity|]. split; [reflexivity|].
    unfold read_data_bytes, pop_default. simpl.
    rewrite (pop_Some "encoding" "base64") by (simplify_map_eq; reflexivity).
    simpl. rewrite a2b_base64_b64encode. simpl.
    simplify_map_eq. simpl.
    rewrite (Hgzip _ _ _ Hheader). reflexivity.
Qed.

Theorem written_tile_layer_round_trip (env : Env) (map : Map) (layer : ArrayMapLayer) :
  lossless env ->
  valid_tile_layer env layer ->
  exists elem,
    written_tile_layer env map layer = OK elem
    /\ tile_layer_from_element env elem map = OK (without_mtime layer).
Proof.
  intros Hlossless (Hdata & Henc & Hcomp & Hmtime & Hopacity).
  assert (Forall (fun v => 0 <= v < 4294967296) (tiles_data layer)) as Hdata32.
  { eapply Forall_impl; [exact Hdata|]. intros v [Hv _]. exact Hv. }
  destruct (struct_pack_tile_ids _ Hdata32) as (packed & Hpacked & Hids).
  destruct (read_data_bytes_written env layer map packed
              Hlossless Henc Hcomp Hmtime Hpacked)
    as (data_elem & Hwrite & Htag & Hbytes).
  eexists. split; [exact Hwrite|].
  unfold tile_layer_from_element.
  assert (read_layer_attrib env "tile layer"
            (append (written_layer env "layer" (tiles_name layer) map
                       (tiles_visible layer) (tiles_opacity layer)
                       (tiles_properties layer)) data_elem) map
          = OK (tiles_name layer, tiles_opacity layer, tiles_visible layer)) as ->.
  { rewrite <- (read_layer_attrib_written env "tile layer" "layer" (tiles_name layer)
                  map (tiles_visible layer) (tiles_opacity layer)
                  (tiles_properties layer) Hopacity).
    reflexivity. }
  simpl. rewrite written_layer_eq. simpl children.
  assert (read_data env data_elem
            (mkArrayMapLayer (tiles_name layer) (tiles_opacity layer)
               (tiles_visible layer) (tiles_properties layer) [] None None None)
          = OK (without_mtime layer)) as Hread.
  { unfold read_data. rewrite Hbytes. simpl. rewrite Hids.
    rewrite array_l_fits by exact Hdata. simpl.
    destruct Hcomp as (c & Hc & _). unfold without_mtime, set_tile_data.
    simpl. rewrite Henc, Hc. reflexivity. }
  destruct (is_empty (tiles_properties layer)) eqn:Hprops; simpl.
  - apply is_empty_true in Hprops.
    rewrite Htag. simpl. rewrite <- Hprops at 1. rewrite Hread. reflexivity.
  - rewrite read_properties_element. simpl.
    rewrite Htag. simpl.
    unfold set_tile_properties. simpl.
    rewrite (right_id_L ∅ (∪)). rewrite Hread. reflexivity.
Qed.


(** ** Colours and images: writing, then reading *)

Lemma rgb_component_two_digits (p : Z) :
  written_in_full p ->
  exists h l,
    rgb_component p = String h (String l EmptyString)
    /\ Ascii.eqb "#" h = false
    /\ unhexlify (String h (String l EmptyString)) = OK (String (chr p) EmptyString).
Proof.
  intros Hp.
  assert (forallb
            (fun n =>
               let p := Z.of_nat n in
               if (p =? 0) || (16 <=? p) then
                 match rgb_component p with
                 | String h (String l EmptyString) =>
                     negb (Ascii.eqb "#" h)
                     && match unhexlify (String h (String l EmptyString)) with
                        | OK s => String.eqb s (String (chr p) EmptyString)
                        | Raise _ => false
                        end
                 | _ => false
                 end
               else true)
            (seq 0 256) = true) as Hall by (vm_compute; reflexivity).
  rewrite forallb_forall in Hall.
  assert (0 <= p < 256) as Hrange by (destruct Hp; lia).
  assert (In (Z.to_nat p) (seq 0 256)) as Hin by (apply in_seq; lia).
  apply Hall in Hin. cbv beta zeta in Hin.
  rewrite Z2Nat.id in Hin by lia.
  replace ((p =? 0) || (16 <=? p)) with true in Hin
    by (symmetry; apply orb_true_iff; destruct Hp; [left|right]; lia).
  destruct (rgb_component p) as [|h [|l [|]]]; try discriminate Hin.
  exists h, l. split; [reflexivity|].
  apply andb_prop in Hin as [Hh Hun]. apply negb_true_iff in Hh.
  split; [exact Hh|].
  destruct (unhexlify (String h (String l EmptyString))) as [s|e]; [|discriminate Hun].
  apply String.eqb_eq in Hun. subst s. reflexivity.
Qed.

Lemma startswith_String (c h : ascii) (s : string) :
  startswith c (String h s) = Ascii.eqb c h.
Proof. reflexivity. Qed.

(** A colour whose components have two hexadecimal digits comes back. *)
Lemma from_rgb_to_rgb (r g b : Z) :
  written_in_full r -> written_in_full g -> written_in_full b ->
  from_rgb (to_rgb [r; g; b]) = OK [r; g; b]
  /\ truthy (to_rgb [r; g; b]) = true.
Proof.
  intros Hr Hg Hb.
  destruct (rgb_component_two_digits r Hr) as (h1 & l1 & E1 & N1 & U1).
  destruct (rgb_component_two_digits g Hg) as (h2 & l2 & E2 & _ & U2).
  destruct (rgb_component_two_digits b Hb) as (h3 & l3 & E3 & _ & U3).
  change (to_rgb [r; g; b])
    with (rgb_component r +:+ (rgb_component g +:+ (rgb_component b +:+ EmptyString))).
  rewrite E1, E2, E3. rewrite !append_String, !append_empty.
  split; [|reflexivity].
  unfold from_rgb. rewrite startswith_String, N1.
  cbn [String.length Nat.eqb str_take str_drop].
  cbn [bind]. cbn [map_result]. cbv beta.
  rewrite U1, U2, U3. simpl.
  rewrite !ord_chr by (unfold written_in_full in *; lia). reflexivity.
Qed.

Lemma image_leftover_empty (a : gmap string string) :
  (forall k, is_Some (a !! k) -> k ∈ image_attributes) -> image_leftover a = ∅.
Proof.
  intros Hall. apply map_eq. intros k. rewrite lookup_empty.
  unfold image_leftover.
  destruct (decide (k ∈ image_attributes)) as [Hk|Hk].
  - unfold image_attributes in Hk.
    repeat (apply elem_of_cons in Hk as [-> | Hk];
            [ repeat first [ apply lookup_delete_eq | rewrite lookup_delete_ne by done ] | ]).
    apply elem_of_nil in Hk as [].
  - repeat (rewrite lookup_delete_ne;
            [| intros <-; apply Hk; unfold image_attributes;
               repeat first [ apply list_elem_of_here | apply list_elem_of_further ] ]).
    destruct (a !! k) as [v|] eqn:Hv; [|reflexivity].
    exfalso. apply Hk, Hall. eauto.
Qed.

Lemma read_image_lookup (elem : Element) (base_path : option string) (source : string) :
  attrib elem !! "source" = Some source ->
  (forall k, is_Some (attrib elem !! k) -> k ∈ image_attributes) ->
  read_image elem base_path
  = try trans <-
      match attrib elem !! "trans" with
      | Some t => if truthy t then try rgb <- from_rgb t in OK (Some rgb)
                  else OK (Some [])
      | None => OK None
      end in
    try width <- int_default (attrib elem !! "width") 0 in
    try height <- int_default (attrib elem !! "height") 0 in
    OK (mkImage source trans (width, height)).
Proof.
  intros Hsource Hall. unfold read_image, pop_default.
  destruct (match attrib elem !! "trans" with
            | Some t => _
            | None => _
            end) as [trans|e]; simpl; [|reflexivity].
  rewrite (pop_Some "source" source) by (rewrite !lookup_delete_ne by done; exact Hsource).
  simpl. rewrite !lookup_delete_ne by done.
  destruct (int_default (attrib elem !! "width") 0) as [width|e]; simpl; [|reflexivity].
  destruct (int_default (attrib elem !! "height") 0) as [height|e]; simpl; [|reflexivity].
  fold (image_leftover (attrib elem)).
  rewrite image_leftover_empty by exact Hall. reflexivity.
Qed.

Lemma written_image_lookup (image : Image) (base_path : option string) :
  let a := attrib (written_image image base_path) in
  a !! "source" = Some (image_source image)
  /\ a !! "width" = (if fst (image_size image) =? 0 then None
                     else Some (str (fst (image_size image))))
  /\ a !! "height" = (if snd (image_size image) =? 0 then None
                      else Some (str (snd (image_size image))))
  /\ a !! "trans" = match image_trans image with
                    | Some (c :: rgb) => Some (to_rgb (c :: rgb))
                    | _ => None
                    end
  /\ (forall k, is_Some (a !! k) -> k ∈ image_attributes).
Proof.
  unfold written_image, dict, image_attributes.
  destruct (image_trans image) as [[|c rgb]|],
           (fst (image_size image) =? 0), (snd (image_size image) =? 0); simpl;
    (repeat split; [simplify_map_eq; reflexivity ..|]);
    intros k [v Hk];
    repeat (apply lookup_insert_Some in Hk as [[<- _] | [_ Hk]];
            [ repeat first [ apply list_elem_of_here | apply list_elem_of_further ] | ]);
    rewrite lookup_empty in Hk; discriminate Hk.
Qed.

Lemma read_written_image (image : Image) (base_path base_path' : option string) :
  two_digit_colour (image_trans image) ->
  read_image (written_image image base_path) base_path' = OK image.
Proof.
  intros Hcolour.
  destruct (written_image_lookup image base_path) as (Hsource & Hwidth & Hheight & Htrans & Hall).
  rewrite (read_image_lookup _ _ _ Hsource Hall).
  rewrite Htrans, Hwidth, Hheight.
  destruct image as [source trans [width height]]. simpl in *.
  assert (int_default (if width =? 0 then None else Some (str width)) 0 = OK width) as ->.
  { destruct (Z.eqb_spec width 0) as [->|_]; simpl; [reflexivity | apply int_str]. }
  assert (int_default (if height =? 0 then None else Some (str height)) 0 = OK height) as ->.
  { destruct (Z.eqb_spec height 0) as [->|_]; simpl; [reflexivity | apply int_str]. }
  destruct trans as [rgb|]; [|reflexivity].
  destruct Hcolour as (r & g & b & -> & Hr & Hg & Hb).
  destruct (from_rgb_to_rgb r g b Hr Hg Hb) as [-> ->]. reflexivity.
Qed.

(** ** Tilesets: writing, then reading *)

Lemma tileset_leftover_empty (a : gmap string string) :
  (forall k, is_Some (a !! k) -> k ∈ tileset_attributes) -> tileset_leftover a = ∅.
Proof.
  intros Hall. apply map_eq. intros k. rewrite lookup_empty.
  unfold tileset_leftover.
  destruct (decide (k ∈ tileset_attributes)) as [Hk|Hk].
  - unfold tileset_attributes in Hk.
    repeat (apply elem_of_cons in Hk as [-> | Hk];
            [ repeat first [ apply lookup_delete_eq | rewrite lookup_delete_ne by done ] | ]).
    apply elem_of_nil in Hk as [].
  - repeat (rewrite lookup_delete_ne;
            [| intros <-; apply Hk; unfold tileset_attributes;
               repeat first [ apply list_elem_of_here | apply list_elem_of_further ] ]).
    destruct (a !! k) as [v|] eqn:Hv; [|reflexivity].
    exfalso. apply Hk, Hall. eauto.
Qed.

Lemma read_tileset_lookup (env : Env) (elem : Element) (base_path : option string)
    (name stw sth : string) (tw th : Z) :
  attrib elem !! "source" = None ->
  attrib elem !! "name" = Some name ->
  attrib elem !! "tilewidth" = Some stw -> int stw = OK tw ->
  attrib elem !! "tileheight" = Some sth -> int sth = OK th ->
  (forall k, is_Some (attrib elem !! k) -> k ∈ tileset_attributes) ->
  read_tileset env elem base_path
  = try margin <- int_default (attrib elem !! "margin") 0 in
    try spacing <- int_default (attrib elem !! "spacing") 0 in
    try firstgid <- int_default (attrib elem !! "firstgid") 0 in
    for_each (read_tileset_child base_path)
      (mkTileset name (tw, th) margin spacing None ∅ None (Some firstgid))
      (children elem).
Proof.
  intros Hsource Hname Htw Hitw Hth Hith Hall.
  unfold read_tileset, pop_default. rewrite Hsource.
  rewrite (pop_Some "name" name) by (rewrite !lookup_delete_ne by done; exact Hname).
  simpl.
  rewrite (pop_Some "tilewidth" stw) by (rewrite !lookup_delete_ne by done; exact Htw).
  simpl. rewrite Hitw. simpl.
  rewrite (pop_Some "tileheight" sth) by (rewrite !lookup_delete_ne by done; exact Hth).
  simpl. rewrite Hith. simpl.
  rewrite !lookup_delete_ne by done.
  destruct (int_default (attrib elem !! "margin") 0) as [margin|e]; simpl; [|reflexivity].
  destruct (int_default (attrib elem !! "spacing") 0) as [spacing|e]; simpl; [|reflexivity].
  destruct (int_default (attrib elem !! "firstgid") 0) as [firstgid|e]; simpl; [|reflexivity].
  fold (tileset_leftover (attrib elem)).
  rewrite tileset_leftover_empty by exact Hall. reflexivity.
Qed.

Lemma with_tiles_children (items : list (Z * gmap string string)) :
  Forall (fun item => snd item <> ∅) items ->
  forall element,
    fold_left with_tile items element
    = mkElement (tag element) (attrib element) (text element)
        (children element ++ map tile_element items).
Proof.
  induction 1 as [|[tile_no props] items Hitem _ IH]; intros element; simpl.
  - rewrite app_nil_r. destruct element; reflexivity.
  - simpl in Hitem. apply is_empty_false in Hitem.
    rewrite Hitem. simpl. rewrite IH. simpl.
    rewrite with_properties_eq, Hitem. rewrite <- app_assoc. reflexivity.
Qed.

(** The attributes [written_tileset] gives an embedded tileset. *)
Lemma written_tileset_lookup (tileset : Tileset) (base_path : option string) (gid : Z) :
  tileset_source tileset = None ->
  let a := attrib (written_tileset tileset base_path (Some gid)) in
  a !! "source" = None
  /\ a !! "name" = Some (tileset_name tileset)
  /\ a !! "tilewidth" = Some (str (fst (tileset_tile_size tileset)))
  /\ a !! "tileheight" = Some (str (snd (tileset_tile_size tileset)))
  /\ a !! "margin" = (if tileset_margin tileset =? 0 then None
                      else Some (str (tileset_margin tileset)))
  /\ a !! "spacing" = (if tileset_spacing tileset =? 0 then None
                       else Some (str (tileset_spacing tileset)))
  /\ a !! "firstgid" = (if gid =? 0 then None else Some (str gid))
  /\ (forall k, is_Some (a !! k) -> k ∈ tileset_attributes).
Proof.
  intros Hsource. unfold written_tileset. rewrite Hsource.
  assert (forall e, attrib (fold_left with_tile
                              (sorted_items (tileset_tile_properties tileset)) e)
                    = attrib e) as Hfold.
  { intros e. revert e.
    induction (sorted_items (tileset_tile_properties tileset)) as [|[n p] l IH];
      intros e; simpl; [reflexivity|].
    rewrite IH. destruct (negb (is_empty p)); reflexivity. }
  simpl. rewrite Hfold.
  unfold dict, tileset_attributes, int_truthy.
  destruct (tileset_image tileset), (tileset_margin tileset =? 0),
           (tileset_spacing tileset =? 0), (gid =? 0); simpl;
    (repeat split; [simplify_map_eq; reflexivity ..|]);
    intros k [v Hk];
    repeat (apply lookup_insert_Some in Hk as [[<- _] | [_ Hk]];
            [ repeat first [ apply list_elem_of_here | apply list_elem_of_further ] | ]);
    rewrite lookup_empty in Hk; discriminate Hk.
Qed.

Lemma written_tileset_children (tileset : Tileset) (base_path : option string) (gid : Z) :
  valid_tileset tileset ->
  children (written_tileset tileset base_path (Some gid))
  = (match tileset_image tileset with
     | Some image => [written_image image None]
     | None => []
     end ++ map tile_element (sorted_items (tileset_tile_properties tileset)))%list.
Proof.
  intros (Hsource & _ & Hbags). unfold written_tileset. rewrite Hsource.
  rewrite with_tiles_children.
  - simpl.
    destruct (tileset_image tileset), (negb (tileset_margin tileset =? 0)),
             (negb (tileset_spacing tileset =? 0)); reflexivity.
  - apply Forall_forall. intros [id props] Hin.
    unfold sorted_items in Hin. rewrite merge_sort_Permutation in Hin.
    apply elem_of_map_to_list in Hin. simpl. eapply Hbags, Hin.
Qed.

(** Reading the [tile] elements of distinct tiles adds their bags. *)
Lemma read_tile_elements (base_path : option string)
    (items : list (Z * gmap string string)) :
  NoDup items.*1 ->
  forall tileset,
    (forall id, id ∈ items.*1 -> tileset_tile_properties tileset !! id = None) ->
    for_each (read_tileset_child base_path) tileset (map tile_element items)
    = OK (mkTileset (tileset_name tileset) (tileset_tile_size tileset)
            (tileset_margin tileset) (tileset_spacing tileset)
            (tileset_image tileset)
            (list_to_map items ∪ tileset_tile_properties tileset)
            (tileset_source tileset) (tileset_read_first_gid tileset)).
Proof.
  induction items as [|[id props] items IH]; intros Hnodup tileset Hfresh; simpl.
  - rewrite (left_id_L ∅ (∪)). destruct tileset; reflexivity.
  - apply NoDup_cons in Hnodup as [Hid Hnodup].
    unfold read_tileset_child at 1. simpl.
    rewrite (pop_Some "id" (str id)) by (unfold dict; simplify_map_eq; reflexivity).
    simpl. rewrite int_str. simpl.
    unfold read_tile_child at 1. simpl.
    rewrite read_properties_element. simpl.
    unfold update_tile_properties.
    rewrite (Hfresh id) by (simpl; apply list_elem_of_here). simpl.
    rewrite (right_id_L ∅ (∪)).
    rewrite IH; [simpl|exact Hnodup|].
    + f_equal. f_equal.
      rewrite <- insert_union_r by (apply not_elem_of_list_to_map_1; exact Hid).
      rewrite insert_union_l. reflexivity.
    + intros id' Hid'. simpl. rewrite lookup_insert_ne.
      * apply Hfresh. simpl. apply list_elem_of_further, Hid'.
      * intros <-. exact (Hid Hid').
Qed.

Lemma list_to_map_sorted_items (tp : gmap Z (gmap string string)) :
  list_to_map (sorted_items tp) = tp.
Proof.
  unfold sorted_items.
  rewrite <- (list_to_map_to_list tp) at 2.
  apply list_to_map_proper.
  - rewrite merge_sort_Permutation. apply NoDup_fst_map_to_list.
  - apply merge_sort_Permutation.
Qed.

Lemma read_written_valid_tileset (env : Env) (tileset : Tileset)
    (base_path base_path' : option string) (gid : Z) :
  valid_tileset tileset ->
  tag (written_tileset tileset base_path (Some gid)) = "tileset"
  /\ read_tileset env (written_tileset tileset base_path (Some gid)) base_path'
     = OK (with_first_gid gid tileset).
Proof.
  intros Hvalid. pose proof Hvalid as (Hsource & Himage & Hbags).
  split.
  { unfold written_tileset. rewrite Hsource.
    assert (forall e l, tag (fold_left with_tile l e) = tag e) as Hfold.
    { intros e l. revert e. induction l as [|[n p] l IH]; intros e; simpl; [reflexivity|].
      rewrite IH. destruct (negb (is_empty p)); reflexivity. }
    rewrite Hfold.
    destruct (tileset_image tileset), (negb (tileset_margin tileset =? 0)),
             (negb (tileset_spacing tileset =? 0)); reflexivity. }
  destruct (written_tileset_lookup tileset base_path gid Hsource)
    as (Hs & Hname & Htw & Hth & Hmargin & Hspacing & Hgid & Hall).
  rewrite (read_tileset_lookup env _ base_path' _ _ _ _ _ Hs Hname Htw (int_str _)
             Hth (int_str _) Hall).
  rewrite Hmargin, Hspacing, Hgid.
  assert (forall n, int_default (if n =? 0 then None else Some (str n)) 0 = OK n) as Hint.
  { intros n. destruct (Z.eqb_spec n 0) as [->|_]; simpl; [reflexivity | apply int_str]. }
  rewrite !Hint. simpl.
  rewrite (written_tileset_children tileset base_path gid Hvalid).
  rewrite for_each_app.
  assert (NoDup (sorted_items (tileset_tile_properties tileset)).*1) as Hnodup.
  { unfold sorted_items. rewrite merge_sort_Permutation. apply NoDup_fst_map_to_list. }
  destruct tileset as [name [tw th] margin spacing image tp source rgid].
  simpl in *. subst source.
  destruct image as [image|]; simpl.
  - unfold read_tileset_child at 1.
    assert (tag (written_image image None) = "image") as ->.
    { unfold written_image.
      destruct (image_trans image) as [[|c rgb]|],
               (negb (fst (image_size image) =? 0)),
               (negb (snd (image_size image) =? 0)); reflexivity. }
    simpl. rewrite read_written_image by exact Himage. simpl.
    rewrite read_tile_elements; [|exact Hnodup|intros; apply lookup_empty].
    simpl. rewrite (right_id_L ∅ (∪)), list_to_map_sorted_items. reflexivity.
  - rewrite read_tile_elements; [|exact Hnodup|intros; apply lookup_empty].
    simpl. rewrite (right_id_L ∅ (∪)), list_to_map_sorted_items. reflexivity.
Qed.

(** ** Object layers: writing, then reading *)

Lemma object_leftover_empty (a : gmap string string) :
  (forall k, is_Some (a !! k) -> k ∈ object_attributes) -> object_leftover a = ∅.
Proof.
  intros Hall. apply map_eq. intros k. rewrite lookup_empty.
  unfold object_leftover.
  destruct (decide (k ∈ object_attributes)) as [Hk|Hk].
  - unfold object_attributes in Hk.
    repeat (apply elem_of_cons in Hk as [-> | Hk];
            [ repeat first [ apply lookup_delete_eq | rewrite lookup_delete_ne by done ] | ]).
    apply elem_of_nil in Hk as [].
  - repeat (rewrite lookup_delete_ne;
            [| intros <-; apply Hk; unfold object_attributes;
               repeat first [ apply list_elem_of_here | apply list_elem_of_further ] ]).
    destruct (a !! k) as [v|] eqn:Hv; [|reflexivity].
    exfalso. apply Hk, Hall. eauto.
Qed.

Lemma read_object_lookup (elem : Element) (sx sy : string) (x y : Z) :
  attrib elem !! "x" = Some sx -> int sx = OK x ->
  attrib elem !! "y" = Some sy -> int sy = OK y ->
  (forall k, is_Some (attrib elem !! k) -> k ∈ object_attributes) ->
  read_object elem
  = try value <-
      match attrib elem !! "gid" with
      | Some g => try v <- int g in OK (Some v)
      | None => OK None
      end in
    try size <-
      match attrib elem !! "width", attrib elem !! "height" with
      | None, None => OK (0, 0)
      | Some w, Some h => try w <- int w in try h <- int h in OK (w, h)
      | Some w, None =>
          try w <- int w in
          Raise (TypeError "int() argument must be a string or a number, not 'NoneType'")
      | None, Some _ =>
          Raise (TypeError "int() argument must be a string or a number, not 'NoneType'")
      end in
    OK (mkMapObject (x, y) size value (attrib elem !! "name") (attrib elem !! "type")).
Proof.
  intros Hx Hix Hy Hiy Hall. unfold read_object, pop_default.
  rewrite (pop_Some "x" sx) by exact Hx. simpl. rewrite Hix. simpl.
  rewrite (pop_Some "y" sy) by (rewrite !lookup_delete_ne by done; exact Hy).
  simpl. rewrite Hiy. simpl.
  rewrite !lookup_delete_ne by done.
  destruct (match attrib elem !! "gid" with
            | Some g => _
            | None => _
            end) as [value|e]; simpl; [|reflexivity].
  destruct (match attrib elem !! "width" with
            | Some w => _
            | None => _
            end) as [size|e]; simpl; [|reflexivity].
  fold (object_leftover (attrib elem)).
  rewrite object_leftover_empty by exact Hall. reflexivity.
Qed.

Lemma with_object_eq (env : Env) (map : Map) (element : Element) (object : MapObject) :
  with_object env map element object
  = append element (object_element env map object).
Proof. reflexivity. Qed.

Lemma object_element_lookup (env : Env) (map : Map) (object : MapObject) :
  let a := attrib (object_element env map object) in
  tag (object_element env map object) = "object"
  /\ a !! "x" = Some (str (fst (object_pos object)))
  /\ a !! "y" = Some (str (snd (object_pos object)))
  /\ a !! "gid" = (if int_truthy (object_value object)
                   then Some (str (default 0 (object_value object))) else None)
  /\ a !! "name" = (if opt_truthy (object_name object)
                    then Some (default EmptyString (object_name object)) else None)
  /\ a !! "type" = (if opt_truthy (object_type object)
                    then Some (default EmptyString (object_type object)) else None)
  /\ a !! "width" = (if size_written env map object
                     then Some (str (fst (object_size object))) else None)
  /\ a !! "height" = (if size_written env map object
                      then Some (str (snd (object_size object))) else None)
  /\ (forall k, is_Some (a !! k) -> k ∈ object_attributes).
Proof.
  unfold object_element, written_object_attrib, size_written. simpl.
  unfold dict, object_attributes.
  destruct (int_truthy (object_value object)), (opt_truthy (object_name object)),
           (opt_truthy (object_type object)),
           (negb (bool_decide (object_size object = (0, 0)))
            && negb (match object_tile_size env map object with
                     | Some size => bool_decide (size = object_size object)
                     | None => false
                     end)); simpl;
    (split; [reflexivity|]);
    (repeat split; [simplify_map_eq; reflexivity ..|]);
    intros k [v Hk];
    repeat (apply lookup_insert_Some in Hk as [[<- _] | [_ Hk]];
            [ repeat first [ apply list_elem_of_here | apply list_elem_of_further ] | ]);
    rewrite lookup_empty in Hk; discriminate Hk.
Qed.

Lemma read_object_element (env : Env) (map : Map) (object : MapObject) :
  valid_object env map object ->
  read_object (object_element env map object) = OK object.
Proof.
  intros (Hvalue & Hname & Htype & Hsize).
  destruct (object_element_lookup env map object)
    as (_ & Hx & Hy & Hgid & Hn & Ht & Hw & Hh & Hall).
  rewrite (read_object_lookup _ _ _ _ _ Hx (int_str _) Hy (int_str _) Hall).
  rewrite Hgid, Hn, Ht, Hw, Hh.
  destruct object as [[x y] [w h] value name type]. simpl in *.
  assert ((if int_truthy value then Some (str (default 0 value)) else None)
          = str <$> value) as ->.
  { destruct value as [v|]; simpl; [|reflexivity].
    destruct (Z.eqb_spec v 0) as [->|_]; [|reflexivity].
    exfalso. exact (Hvalue 0 eq_refl eq_refl). }
  assert (forall o : option string,
            (forall s, o = Some s -> s <> EmptyString) ->
            (if opt_truthy o then Some (default EmptyString o) else None) = o) as Hopt.
  { intros [s|] Ho; simpl; [|reflexivity].
    unfold truthy. destruct (String.eqb_spec s "") as [->|_]; [|reflexivity].
    exfalso. exact (Ho "" eq_refl eq_refl). }
  rewrite !Hopt by assumption.
  assert (match str <$> value with
          | Some g => try v <- int g in OK (Some v)
          | None => OK None
          end = OK value) as ->.
  { destruct value as [v|]; simpl; [|reflexivity]. rewrite int_str. reflexivity. }
  simpl.
  destruct (size_written env map (mkMapObject (x, y) (w, h) value name type)) eqn:Hwritten.
  - rewrite !int_str. reflexivity.
  - unfold size_written in Hwritten. simpl in Hwritten.
    destruct Hsize as [[= -> ->] | Hsize]; [reflexivity|].
    apply andb_false_iff in Hwritten as [Hzero | Htile].
    + apply negb_false_iff, bool_decide_eq_true in Hzero.
      injection Hzero as -> ->. reflexivity.
    + exfalso. apply negb_false_iff in Htile.
      destruct (object_tile_size env map _) as [size|]; [|discriminate Htile].
      apply bool_decide_eq_true in Htile. subst size. apply Hsize. reflexivity.
Qed.

Lemma read_object_elements (env : Env) (map : Map) (objs : list MapObject) :
  Forall (valid_object env map) objs ->
  forall layer,
    for_each read_object_layer_child layer (List.map (object_element env map) objs)
    = OK (mkObjectLayer (objects_name layer) (objects_opacity layer)
            (objects_visible layer) (objects_properties layer)
            (objects layer ++ objs)).
Proof.
  induction 1 as [|object objs Hobject _ IH]; intros layer; simpl.
  - rewrite app_nil_r. destruct layer; reflexivity.
  - unfold read_object_layer_child at 1.
    destruct (object_element_lookup env map object) as (-> & _). simpl.
    rewrite read_object_element by exact Hobject. simpl.
    rewrite IH. simpl. rewrite <- app_assoc. reflexivity.
Qed.

Lemma written_object_layer_eq (env : Env) (map : Map) (layer : ObjectLayer) :
  written_object_layer env map layer
  = mkElement "objectgroup"
      (layer_attrib env (objects_name layer) map (objects_visible layer)
         (objects_opacity layer))
      None
      ((if is_empty (objects_properties layer) then []
        else [properties_element (objects_properties layer)])
       ++ List.map (object_element env map) (objects layer)).
Proof.
  unfold written_object_layer. rewrite written_layer_eq.
  generalize (if is_empty (objects_properties layer) then []
              else [properties_element (objects_properties layer)]).
  generalize (layer_attrib env (objects_name layer) map (objects_visible layer)
                (objects_opacity layer)).
  intros a. induction (objects layer) as [|object objs IH]; intros l; simpl.
  - rewrite app_nil_r. reflexivity.
  - rewrite with_object_eq. unfold append at 1. simpl.
    rewrite IH. rewrite <- app_assoc. reflexivity.
Qed.

Lemma read_layer_attrib_size (env : Env) (kind : string) (elem elem' : Element)
    (map map' : Map) :
  attrib elem = attrib elem' ->
  map_size map = map_size map' ->
  read_layer_attrib env kind elem map = read_layer_attrib env kind elem' map'.
Proof.
  intros Hattrib Hsize. unfold read_layer_attrib. rewrite Hattrib, Hsize. reflexivity.
Qed.

Lemma written_object_layer_round_trip (env : Env) (map map' : Map) (layer : ObjectLayer) :
  map_size map' = map_size map ->
  valid_object_layer env map layer ->
  object_layer_from_element env (written_object_layer env map layer) map'
  = OK layer.
Proof.
  intros Hsize [Hopacity Hobjects].
  rewrite written_object_layer_eq. unfold object_layer_from_element.
  rewrite (read_layer_attrib_size env _ _
             (written_layer env "objectgroup" (objects_name layer) map
                (objects_visible layer) (objects_opacity layer) ∅) map' map)
    by (try rewrite written_layer_eq; auto).
  rewrite read_layer_attrib_written by exact Hopacity.
  simpl.
  destruct layer as [name opacity visible props objs]. simpl in *.
  destruct (is_empty props) eqn:Hprops; simpl.
  - apply is_empty_true in Hprops. subst props.
    rewrite read_object_elements by exact Hobjects. reflexivity.
  - unfold read_object_layer_child at 1. simpl.
    rewrite read_properties_element. simpl.
    rewrite read_object_elements by exact Hobjects. simpl.
    unfold set_object_properties. simpl.
    rewrite (right_id_L ∅ (∪)). reflexivity.
Qed.

(** ** Maps: writing, then reading *)

Lemma fold_append_eq (l : list Element) (e : Element) :
  fold_left append l e = mkElement (tag e) (attrib e) (text e) (children e ++ l).
Proof.
  revert e. induction l as [|x l IH]; intros e; simpl.
  - rewrite app_nil_r. destruct e; reflexivity.
  - rewrite IH. simpl. rewrite <- app_assoc. reflexivity.
Qed.

Lemma written_tile_layer_tag (env : Env) (map : Map) (layer : ArrayMapLayer)
    (elem : Element) :
  written_tile_layer env map layer = OK elem -> tag elem = "layer".
Proof.
  unfold written_tile_layer. intros H.
  apply bind_OK in H as (data & _ & H).
  apply bind_OK in H as ([data1 extra1] & _ & H).
  apply bind_OK in H as ([data2 extra2] & _ & [= <-]).
  rewrite written_layer_eq. reflexivity.
Qed.

Lemma tile_layer_from_element_size (env : Env) (elem : Element) (map map' : Map) :
  map_size map = map_size map' ->
  tile_layer_from_element env elem map = tile_layer_from_element env elem map'.
Proof.
  intros Hsize. unfold tile_layer_from_element.
  rewrite (read_layer_attrib_size env _ elem elem map map' eq_refl Hsize).
  reflexivity.
Qed.

(** A layer element that was written is read back by the loop of
    [read_map]. *)
Lemma read_written_layer (env : Env) (base_path : option string) (map map' : Map)
    (layer : Layer) (elem : Element) :
  lossless env ->
  valid_layer env map layer ->
  map_size map' = map_size map ->
  written_map_layer env map layer = OK elem ->
  read_map_child env base_path map' elem = OK (add_layer (layer_as_read layer) map').
Proof.
  intros Hlossless Hvalid Hsize Hwrite. unfold read_map_child.
  destruct layer as [layer|layer]; simpl in *.
  - rewrite (written_tile_layer_tag _ _ _ _ Hwrite). simpl.
    destruct (written_tile_layer_round_trip env map layer Hlossless Hvalid)
      as (elem' & Hwrite' & Hread).
    rewrite Hwrite in Hwrite'. injection Hwrite' as <-.
    rewrite (tile_layer_from_element_size env elem map' map Hsize), Hread.
    reflexivity.
  - injection Hwrite as <-.
    rewrite written_object_layer_round_trip by assumption.
    rewrite written_object_layer_eq. reflexivity.
Qed.

Lemma written_layers (env : Env) (map : Map) (layers : list Layer) :
  lossless env ->
  Forall (valid_layer env map) layers ->
  forall e,
  exists elems,
    for_each (fun elem layer => try e' <- written_map_layer env map layer in
                                OK (append elem e')) e layers
    = OK (mkElement (tag e) (attrib e) (text e) (children e ++ elems))
    /\ Forall2 (fun layer elem => written_map_layer env map layer = OK elem)
         layers elems.
Proof.
  intros Hlossless. induction 1 as [|layer layers Hlayer _ IH]; intros e; simpl.
  - exists []. rewrite app_nil_r. split; [destruct e; reflexivity | constructor].
  - assert (exists elem, written_map_layer env map layer = OK elem) as [elem Helem].
    { destruct layer as [layer|layer]; simpl in *; [|eauto].
      destruct (written_tile_layer_round_trip env map layer Hlossless Hlayer) as (x & Hx & _).
      eauto. }
    rewrite Helem. simpl.
    destruct (IH (append e elem)) as (elems & Hrun & Hall).
    exists (elem :: elems). split; [|constructor; assumption].
    rewrite Hrun. simpl. rewrite <- app_assoc. reflexivity.
Qed.

Lemma read_layers (env : Env) (base_path : option string) (map : Map)
    (layers : list Layer) (elems : list Element) :
  lossless env ->
  Forall (valid_layer env map) layers ->
  Forall2 (fun layer elem => written_map_layer env map layer = OK elem) layers elems ->
  forall map',
    map_size map' = map_size map ->
    for_each (read_map_child env base_path) map' elems
    = OK (mkMap (map_size map') (map_tile_size map') (map_orientation map')
            (map_base_path map') (map_properties map') (map_tilesets map')
            (map_layers map' ++ (layer_as_read <$> layers))).
Proof.
  intros Hlossless Hvalid Hall. revert Hvalid.
  induction Hall as [|layer elem layers elems Hwrite _ IH]; intros Hvalid map' Hsize; simpl.
  - rewrite app_nil_r. destruct map'; reflexivity.
  - apply Forall_cons in Hvalid as [Hlayer Hvalid].
    rewrite (read_written_layer env base_path map map' layer elem) by assumption.
    simpl. rewrite IH by assumption. simpl.
    rewrite <- app_assoc. reflexivity.
Qed.

Lemma num_tiles_imap (env : Env) (f : nat -> Z) (done : list Tileset) :
  tile_count_stable env ->
  num_tiles env <$> imap (fun i tileset => with_first_gid (f i) tileset) done
  = num_tiles env <$> done.
Proof.
  intros Hstable. revert f.
  induction done as [|t done IH]; intros f; [reflexivity|].
  rewrite imap_cons, !fmap_cons, Hstable. f_equal. apply (IH (f ∘ S)).
Qed.

(** The tileset elements of a map that was written are read back one by
    one, each with the [firstgid] the reader computes. *)
Lemma read_tilesets (env : Env) (base_path : option string) (map : Map) :
  tile_count_stable env ->
  forall (rest done : list Tileset) (map' : Map),
    map_tilesets map = (done ++ rest)%list ->
    Forall valid_tileset rest ->
    map_tilesets map'
    = imap (fun i tileset => with_first_gid (first_gid env map i) tileset) done ->
    for_each (read_map_child env base_path) map'
      (imap (fun i tileset =>
               written_tileset tileset base_path
                 (Some (first_gid env map (length done + i)))) rest)
    = OK (mkMap (map_size map') (map_tile_size map') (map_orientation map')
            (map_base_path map') (map_properties map')
            (imap (fun i tileset => with_first_gid (first_gid env map i) tileset)
               (done ++ rest))
            (map_layers map')).
Proof.
  intros Hstable rest.
  induction rest as [|tileset rest IH]; intros done map' Hsplit Hvalid Hdone.
  - simpl. rewrite app_nil_r, <- Hdone. destruct map'; reflexivity.
  - apply Forall_cons in Hvalid as [Htileset Hvalid].
    rewrite imap_cons. simpl for_each.
    unfold read_map_child at 1.
    destruct (read_written_valid_tileset env tileset base_path base_path
                (first_gid env map (length done + 0)) Htileset) as [-> ->].
    simpl.
    rewrite Nat.add_0_r.
    rewrite bool_decide_eq_true_2.
    + simpl.
      rewrite (imap_ext
                 ((fun i tileset =>
                     written_tileset tileset base_path
                       (Some (first_gid env map (length done + i)))) ∘ S)
                 (fun i tileset0 =>
                    written_tileset tileset0 base_path
                      (Some (first_gid env map (length (done ++ [tileset]) + i))))
                 rest).
      * rewrite (IH (done ++ [tileset])%list).
        -- simpl. rewrite <- app_assoc. reflexivity.
        -- rewrite <- app_assoc. exact Hsplit.
        -- exact Hvalid.
        -- simpl. rewrite Hdone, imap_app. simpl. rewrite Nat.add_0_r. reflexivity.
      * intros i x _. simpl. rewrite length_app. simpl.
        replace (length done + 1 + i)%nat with (length done + S i)%nat by lia.
        reflexivity.
    + f_equal. unfold first_gid, add_tileset. simpl.
      rewrite Hdone.
      rewrite take_app_length' by (rewrite length_imap; reflexivity).
      rewrite Hsplit, take_app_length.
      f_equal. f_equal.
      apply (num_tiles_imap env (first_gid env map) done Hstable).
Qed.

Lemma read_map_args_written (root : Element) (base_path : option string) (map : Map) :
  tag root = "map" ->
  attrib root = map_attrib map ->
  read_map_args root base_path
  = OK (Map_new (map_size map) (map_tile_size map) (map_orientation map) base_path).
Proof.
  intros Htag Hattrib. unfold read_map_args. rewrite Htag, Hattrib. simpl.
  unfold map_attrib, dict.
  rewrite (pop_Some "version" "1.0") by (simplify_map_eq; reflexivity). simpl.
  rewrite (pop_Some "width" (str (fst (map_size map))))
    by (simplify_map_eq; reflexivity).
  simpl. rewrite int_str. simpl.
  rewrite (pop_Some "height" (str (snd (map_size map))))
    by (simplify_map_eq; reflexivity).
  simpl. rewrite int_str. simpl.
  rewrite (pop_Some "tilewidth" (str (fst (map_tile_size map))))
    by (simplify_map_eq; reflexivity).
  simpl. rewrite int_str. simpl.
  rewrite (pop_Some "tileheight" (str (snd (map_tile_size map))))
    by (simplify_map_eq; reflexivity).
  simpl. rewrite int_str. simpl.
  rewrite (pop_Some "orientation" (map_orientation map))
    by (simplify_map_eq; reflexivity).
  simpl.
  match goal with
  | |- context [is_empty ?a] =>
      assert (a = ∅) as ->
  end.
  { apply (proj2 (leftover_empty _)).
    intros k [v Hk]. unfold map_attributes. simpl in Hk.
    repeat (apply lookup_insert_Some in Hk as [[<- _] | [_ Hk]];
            [ repeat first [ apply list_elem_of_here | apply list_elem_of_further ] | ]).
    rewrite lookup_empty in Hk. discriminate Hk. }
  simpl. destruct (map_size map), (map_tile_size map). reflexivity.
Qed.

(** A map whose fields are all written as they are comes back from the
    tree [written_map] describes. *)
Lemma written_map_read_map (env : Env) (map : Map) (base_path : option string) :
  lossless env ->
  tile_count_stable env ->
  Forall valid_tileset (map_tilesets map) ->
  Forall (valid_layer env map) (map_layers map) ->
  exists elem,
    written_map env map base_path = OK elem
    /\ read_map env elem base_path = OK (map_as_read env base_path map).
Proof.
  intros Hlossless Hstable Htilesets Hlayers.
  unfold written_map. fold (map_attrib map).
  rewrite with_properties_eq, fold_append_eq.
  match goal with
  | |- context [for_each _ ?e (map_layers map)] =>
      destruct (written_layers env map (map_layers map) Hlossless Hlayers e)
        as (elems & Hwrite & Hall)
  end.
  eexists. split; [exact Hwrite|].
  unfold read_map.
  rewrite (read_map_args_written _ base_path map)
    by (destruct (is_empty (map_properties map)); reflexivity).
  simpl.
  assert (forall map',
            map_size map' = map_size map ->
            map_tilesets map' = [] ->
            for_each (read_map_child env base_path) map'
              (imap (fun i tileset =>
                       written_tileset tileset base_path (Some (first_gid env map i)))
                 (map_tilesets map) ++ elems)
            = OK (mkMap (map_size map') (map_tile_size map') (map_orientation map')
                    (map_base_path map') (map_properties map')
                    (imap (fun i tileset =>
                             with_first_gid (first_gid env map i) tileset)
                       (map_tilesets map))
                    (map_layers map' ++ (layer_as_read <$> map_layers map))))
    as Hloop.
  { intros map' Hsize Hnone.
    rewrite for_each_app.
    pose proof (read_tilesets env base_path map Hstable (map_tilesets map) [] map'
                  eq_refl Htilesets Hnone) as Hread.
    cbn [length Nat.add app] in Hread. rewrite Hread. clear Hread.
    simpl.
    rewrite (read_layers env base_path map (map_layers map) elems Hlossless
               Hlayers Hall) by exact Hsize.
    reflexivity. }
  destruct (is_empty (map_properties map)) eqn:Hprops; simpl.
  - apply is_empty_true in Hprops.
    rewrite Hloop by reflexivity. unfold map_as_read. simpl.
    rewrite Hprops. reflexivity.
  - unfold read_map_child at 1. simpl.
    rewrite read_properties_element. simpl.
    rewrite Hloop by reflexivity. unfold map_as_read. simpl.
    rewrite (right_id_L ∅ (∪)). reflexivity.
Qed.

(** C1, as the code has it: writing a map and reading the tree gives
    the map back, with the fields the reader sets itself ([base_path],
    the [firstgid] recorded for each tileset, and no [mtime]), for a map
    with embedded tilesets whose fields are all written as they are:
    strings that lxml accepts, tile ids of 32 bits that fit a C [long],
    base64, no compression or zlib or gzip (with a time stamp of 32 bits
    for gzip), an opacity that is printed and read back, colour
    components written in full, no empty tile bag, objects whose tile,
    name, type and size are written when they are set.  The compressors
    are lossless, and the number of tiles of a tileset does not depend on
    the [firstgid] recorded for it.  This holds for every orientation
    string lxml accepts and for every compression. *)
Theorem write_map_read_map (env : Env) (map : Map) (base_path : option string) :
  lossless env ->
  tile_count_stable env ->
  valid_map env map ->
  exists elem,
    write_map env map base_path = OK elem
    /\ read_map env elem base_path = OK (map_as_read env base_path map).
Proof.
  intros Hlossless Hstable (Haccepted & Htilesets & Hlayers).
  rewrite write_map_accepted by exact Haccepted.
  apply written_map_read_map; assumption.
Qed.

Lemma gzip_header_drop (mtime : Z) (header rest : string) :
  gzip_header mtime = OK header -> str_drop 10 (header +:+ rest) = rest.
Proof.
  unfold gzip_header, pack_I.
  destruct ((0 <=? mtime) && (mtime <=? 4294967295)); [|discriminate].
  simpl. intros [= <-]. reflexivity.
Qed.

Lemma run_env_lossless (now : Z) : lossless (run_env now).
Proof.
  split.
  - intros data. reflexivity.
  - intros mtime header data Hheader.
    change (unstored (str_drop 10 (header +:+ stored data)) = OK data).
    rewrite (gzip_header_drop mtime header _ Hheader). reflexivity.
Qed.

Lemma run_env_tile_count_stable (now : Z) : tile_count_stable (run_env now).
Proof. intros gid tileset. reflexivity. Qed.

Lemma sample_map_valid : valid_map (run_env 0) sample_map.
Proof.
  split; [vm_compute; reflexivity|].
  split.
  - repeat constructor.
    + exists 255, 0, 128. unfold written_in_full. repeat split; lia.
    + simpl. intros id props [_ <-]%lookup_singleton_Some.
      apply insert_non_empty.
  - unfold sample_map. simpl map_layers.
    repeat (apply Forall_cons; split); [| | | |constructor].
    + split; [repeat constructor; simpl; lia|].
      split; [reflexivity|]. split; [|split; [discriminate | reflexivity]].
      exists (Some "zlib"). split; [reflexivity|]. right. left. reflexivity.
    + split; [repeat constructor; simpl; lia|].
      split; [reflexivity|]. split; [|split; [simpl; lia | reflexivity]].
      exists (Some "gzip"). split; [reflexivity|]. right. right. reflexivity.
    + split; [repeat constructor; simpl; lia|].
      split; [reflexivity|]. split; [|split; [discriminate | reflexivity]].
      exists None. split; [reflexivity|]. left. reflexivity.
    + split; [reflexivity|].
      apply Forall_cons. split; [|constructor].
      split; [|split; [|split]]; simpl.
      * intros v [= <-]. lia.
      * intros s [= <-]. discriminate.
      * intros s. discriminate.
      * right. discriminate.
Qed.

Lemma write_map_read_map_witness :
  exists elem,
    write_map (run_env 0) sample_map None = OK elem
    /\ read_map (run_env 0) elem None = OK (map_as_read (run_env 0) None sample_map).
Proof.
  apply (write_map_read_map (run_env 0) sample_map None).
  - apply run_env_lossless.
  - apply run_env_tile_count_stable.
  - apply sample_map_valid.
Defined.

(** A map whose tileset holds an empty bag for tile 3 is written without
    that tile, and read back without the bag. *)
Lemma empty_bag_is_dropped :
  bind (write_map (run_env 0) (empty_bag_map {[3 := ∅]}) None)
    (fun elem => read_map (run_env 0) elem None)
  = OK (empty_bag_map ∅)
  /\ tileset_tile_properties <$> map_tilesets (empty_bag_map {[3 := ∅]})
     <> tileset_tile_properties <$> map_tilesets (empty_bag_map ∅).
Proof.
  split; [vm_compute; reflexivity|].
  intros H.
  apply (f_equal (fun l => match l with [m] => m !! 3 | _ => None end)) in H.
  simpl in H. rewrite lookup_singleton_eq, lookup_empty in H. discriminate H.
Qed.

(** * More of the reader and the writer *)

(** ** The colour codec *)

Lemma unhexlify_pair (a b : ascii) :
  (exists n, unhexlify (String a (String b EmptyString)) = OK (String (chr n) EmptyString)
             /\ 0 <= n < 256
             /\ hex_digits (String a (String b EmptyString)) = true)
  \/ (unhexlify (String a (String b EmptyString))
      = Raise (TypeError "Non-hexadecimal digit found")
      /\ hex_digits (String a (String b EmptyString)) = false).
Proof.
  simpl. unfold hex_digit_value.
  pose proof (ord_range a). pose proof (ord_range b).
  repeat match goal with
         | |- context [if ?c then _ else _] => destruct c eqn:?
         end;
    simpl;
    first [ right; split; reflexivity
          | left; eexists; split; [reflexivity|]; split; [lia | reflexivity] ].
Qed.

Lemma ord_str_chr (n : Z) :
  0 <= n < 256 -> ord_str (String (chr n) EmptyString) = OK n.
Proof. intros Hn. simpl. rewrite ord_chr by exact Hn. reflexivity. Qed.

(** One part of a colour string: a byte when its two characters are
    hexadecimal digits, a [TypeError] otherwise. *)
Lemma from_rgb_part (a b : ascii) :
  (exists n, (try x <- unhexlify (String a (String b EmptyString)) in ord_str x) = OK n
             /\ 0 <= n < 256
             /\ hex_digits (String a (String b EmptyString)) = true)
  \/ ((try x <- unhexlify (String a (String b EmptyString)) in ord_str x)
      = Raise (TypeError "Non-hexadecimal digit found")
      /\ hex_digits (String a (String b EmptyString)) = false).
Proof.
  destruct (unhexlify_pair a b) as [(n & -> & Hn & Hd) | [-> Hd]].
  - left. exists n. cbn [bind]. rewrite ord_str_chr by exact Hn. auto.
  - right. auto.
Qed.

Lemma hex_digits_app (s t : string) :
  hex_digits (s +:+ t) = hex_digits s && hex_digits t.
Proof.
  induction s as [|c s IH]; [reflexivity|].
  rewrite append_String. simpl. rewrite IH, andb_assoc. reflexivity.
Qed.

(** The three parts of a colour are read one after the other. *)
Lemma from_rgb_parts (a1 b1 a2 b2 a3 b3 : ascii) :
  let parts := [String a1 (String b1 EmptyString); String a2 (String b2 EmptyString);
                String a3 (String b3 EmptyString)] in
  let digits := String a1 (String b1 (String a2 (String b2 (String a3 (String b3 EmptyString))))) in
  (exists r g b,
      map_result (fun p => try x <- unhexlify p in ord_str x) parts = OK [r; g; b]
      /\ 0 <= r < 256 /\ 0 <= g < 256 /\ 0 <= b < 256
      /\ hex_digits digits = true)
  \/ (map_result (fun p => try x <- unhexlify p in ord_str x) parts
      = Raise (TypeError "Non-hexadecimal digit found")
      /\ hex_digits digits = false).
Proof.
  intros parts digits. subst parts digits.
  change (hex_digits (String a1 (String b1 (String a2 (String b2 (String a3 (String b3 "")))))))
    with (hex_digits (String a1 (String b1 "") +:+ (String a2 (String b2 "") +:+ String a3 (String b3 "")))).
  rewrite !hex_digits_app.
  cbn [map_result].
  destruct (from_rgb_part a1 b1) as [(r & -> & Hr & ->) | [-> ->]];
    [|right; split; reflexivity].
  destruct (from_rgb_part a2 b2) as [(g & -> & Hg & ->) | [-> ->]];
    [|right; split; reflexivity].
  destruct (from_rgb_part a3 b3) as [(b & -> & Hb & ->) | [-> ->]];
    [|right; split; reflexivity].
  left. exists r, g, b. repeat split; try lia.
Qed.

(** [from_rgb] on the digits it looks at. *)
Lemma from_rgb_digits (s : string) :
  match colour_digits s with
  | String a (String b (String c EmptyString)) =>
      from_rgb s
      = map_result (fun p => try x <- unhexlify p in ord_str x)
          [String a (String a EmptyString); String b (String b EmptyString);
           String c (String c EmptyString)]
  | String a1 (String b1 (String a2 (String b2 (String a3 (String b3 EmptyString))))) =>
      from_rgb s
      = map_result (fun p => try x <- unhexlify p in ord_str x)
          [String a1 (String b1 EmptyString); String a2 (String b2 EmptyString);
           String a3 (String b3 EmptyString)]
  | _ => from_rgb s = Raise (UnboundLocalError "parts")
  end.
Proof.
  unfold from_rgb. fold (colour_digits s).
  destruct (colour_digits s) as [|c1 [|c2 [|c3 [|c4 [|c5 [|c6 [|c7 r]]]]]]]; reflexivity.
Qed.

(** A colour that was read has three components, each a byte. *)
Lemma from_rgb_OK (s : string) (rgb : list Z) :
  from_rgb s = OK rgb ->
  exists r g b,
    rgb = [r; g; b] /\ 0 <= r < 256 /\ 0 <= g < 256 /\ 0 <= b < 256.
Proof.
  pose proof (from_rgb_digits s) as H.
  destruct (colour_digits s) as [|c1 [|c2 [|c3 [|c4 [|c5 [|c6 [|c7 r]]]]]]];
    try (rewrite H; discriminate).
  - destruct (from_rgb_parts c1 c1 c2 c2 c3 c3) as [(r & g & b & E & ? & ? & ? & _) | [E _]];
      cbv zeta in E; rewrite <- H in E; rewrite E; [|discriminate].
    intros [= <-]. exists r, g, b. auto.
  - destruct (from_rgb_parts c1 c2 c3 c4 c5 c6) as [(r & g & b & E & ? & ? & ? & _) | [E _]];
      cbv zeta in E; rewrite <- H in E; rewrite E; [|discriminate].
    intros [= <-]. exists r, g, b. auto.
Qed.

(** X1: a colour string is read when, after one leading [#] is
    dropped, it has three or six characters that are all hexadecimal
    digits, and only then.  A string of another length raises
    [UnboundLocalError] (the local variable [parts] is never assigned), a
    character that is no hexadecimal digit raises [TypeError].  What is
    read is a colour of three bytes. *)
Theorem from_rgb_accepts (s : string) :
  let n := String.length (colour_digits s) in
  (is_OK (from_rgb s) = true
   <-> (n = 3%nat \/ n = 6%nat) /\ hex_digits (colour_digits s) = true)
  /\ (n <> 3%nat -> n <> 6%nat -> from_rgb s = Raise (UnboundLocalError "parts"))
  /\ (n = 3%nat \/ n = 6%nat ->
      hex_digits (colour_digits s) = false ->
      from_rgb s = Raise (TypeError "Non-hexadecimal digit found"))
  /\ (forall rgb,
        from_rgb s = OK rgb ->
        exists r g b,
          rgb = [r; g; b] /\ 0 <= r < 256 /\ 0 <= g < 256 /\ 0 <= b < 256).
Proof.
  cbv zeta.
  assert (forall A B C D : Prop, D -> A /\ B /\ C -> A /\ B /\ C /\ D) as Hand by tauto.
  apply Hand; [exact (from_rgb_OK s)|]. clear Hand.
  pose proof (from_rgb_digits s) as H.
  destruct (colour_digits s) as [|c1 [|c2 [|c3 [|c4 [|c5 [|c6 [|c7 r]]]]]]];
    cbn [String.length]; cbv zeta;
    try (rewrite H; split; [|split];
         [ split; [discriminate | intros [[?|?] _]; lia]
         | reflexivity
         | intros [?|?]; lia ]).
  - destruct (from_rgb_parts c1 c1 c2 c2 c3 c3) as [(r & g & b & E & _ & _ & _ & Hd) | [E Hd]];
      cbv zeta in E; rewrite <- H in E.
    + assert (hex_digits (String c1 (String c2 (String c3 ""))) = true) as Hd3.
      { simpl in Hd |- *.
        destruct (bool_decide (is_Some (hex_digit_value c1))),
                 (bool_decide (is_Some (hex_digit_value c2))),
                 (bool_decide (is_Some (hex_digit_value c3)));
          try discriminate Hd; reflexivity. }
      rewrite E, Hd3. split; [|split].
      * split; auto.
      * intros Hn. lia.
      * discriminate.
    + assert (hex_digits (String c1 (String c2 (String c3 ""))) = false) as Hd3.
      { simpl in Hd |- *.
        destruct (bool_decide (is_Some (hex_digit_value c1))),
                 (bool_decide (is_Some (hex_digit_value c2))),
                 (bool_decide (is_Some (hex_digit_value c3)));
          try discriminate Hd; reflexivity. }
      rewrite E, Hd3. split; [|split].
      * split; [discriminate | intros [_ ?]; discriminate].
      * intros Hn. lia.
      * reflexivity.
  - destruct (from_rgb_parts c1 c2 c3 c4 c5 c6) as [(r & g & b & E & _ & _ & _ & Hd) | [E Hd]];
      cbv zeta in E, Hd; rewrite <- H in E; rewrite E, Hd; (split; [|split]).
    + split; auto.
    + intros _ Hn. lia.
    + discriminate.
    + split; [discriminate | intros [_ ?]; discriminate].
    + intros _ Hn. lia.
    + reflexivity.
Qed.

Lemma hex_digit_value_range (c : ascii) (v : Z) :
  hex_digit_value c = Some v -> 0 <= v < 16.
Proof.
  unfold hex_digit_value.
  repeat match goal with
         | |- context [if ?b then _ else _] => destruct b eqn:?
         end;
    intros [= <-]; lia.
Qed.

Lemma from_rgb_part_value (a b : ascii) (h l : Z) :
  hex_digit_value a = Some h ->
  hex_digit_value b = Some l ->
  (try x <- unhexlify (String a (String b EmptyString)) in ord_str x) = OK (16 * h + l).
Proof.
  intros Ha Hb. simpl. rewrite Ha, Hb. simpl.
  apply hex_digit_value_range in Ha, Hb.
  rewrite ord_chr by lia. reflexivity.
Qed.

(** X2: the value of a colour.  In the long form every pair of
    hexadecimal digits, upper or lower case, gives one component,
    16 times the first digit plus the second; the short form stands for
    the long form with every digit doubled, so that a digit gives 17
    times its value; a leading [#] changes nothing. *)
Theorem from_rgb_value (c1 c2 c3 c4 c5 c6 : ascii) (v1 v2 v3 v4 v5 v6 : Z) :
  hex_digit_value c1 = Some v1 -> hex_digit_value c2 = Some v2 ->
  hex_digit_value c3 = Some v3 -> hex_digit_value c4 = Some v4 ->
  hex_digit_value c5 = Some v5 -> hex_digit_value c6 = Some v6 ->
  let long := String c1 (String c2 (String c3 (String c4 (String c5 (String c6 ""))))) in
  let short := String c1 (String c3 (String c5 "")) in
  from_rgb long = OK [16 * v1 + v2; 16 * v3 + v4; 16 * v5 + v6]
  /\ from_rgb (String "#" long) = from_rgb long
  /\ from_rgb short = OK [17 * v1; 17 * v3; 17 * v5]
  /\ from_rgb (String "#" short) = from_rgb short.
Proof.
  intros H1 H2 H3 H4 H5 H6 long short.
  assert (Ascii.eqb "#" c1 = false) as Hhash.
  { destruct (Ascii.eqb_spec "#" c1) as [<-|]; [discriminate H1 | reflexivity]. }
  assert (from_rgb long = OK [16 * v1 + v2; 16 * v3 + v4; 16 * v5 + v6]) as Hlong.
  { unfold from_rgb, long. rewrite startswith_String, Hhash.
    cbn [String.length Nat.eqb str_take str_drop bind map_result].
    rewrite (from_rgb_part_value c1 c2 v1 v2 H1 H2).
    rewrite (from_rgb_part_value c3 c4 v3 v4 H3 H4).
    rewrite (from_rgb_part_value c5 c6 v5 v6 H5 H6). reflexivity. }
  assert (from_rgb short = OK [17 * v1; 17 * v3; 17 * v5]) as Hshort.
  { unfold from_rgb, short. rewrite startswith_String, Hhash.
    cbn [String.length Nat.eqb str_take str_drop bind map_result].
    rewrite !append_String, !append_empty.
    rewrite (from_rgb_part_value c1 c1 v1 v1 H1 H1).
    rewrite (from_rgb_part_value c3 c3 v3 v3 H3 H3).
    rewrite (from_rgb_part_value c5 c5 v5 v5 H5 H5).
    cbn [bind]. do 4 f_equal; [lia | f_equal; lia | do 2 f_equal; lia]. }
  split; [exact Hlong|]. split.
  { rewrite Hlong. unfold from_rgb, long. rewrite startswith_String.
    cbn [Ascii.eqb Bool.eqb str_drop].
    rewrite <- Hlong. unfold from_rgb, long. rewrite startswith_String, Hhash.
    reflexivity. }
  split; [exact Hshort|].
  rewrite Hshort. unfold from_rgb, short. rewrite startswith_String.
  cbn [Ascii.eqb Bool.eqb str_drop].
  rewrite <- Hshort. unfold from_rgb, short. rewrite startswith_String, Hhash.
  reflexivity.
Qed.

Lemma from_rgb_value_witness :
  from_rgb "Ff8000" = OK [16 * 15 + 15; 16 * 8 + 0; 16 * 0 + 0]
  /\ from_rgb "#Ff8000" = from_rgb "Ff8000"
  /\ from_rgb "F80" = OK [17 * 15; 17 * 8; 17 * 0]
  /\ from_rgb "#F80" = from_rgb "F80".
Proof.
  apply (from_rgb_value "F" "f" "8" "0" "0" "0" 15 15 8 0 0 0); reflexivity.
Defined.

(** The two characters [to_rgb] emits for a byte, and the byte they are
    read as. *)
Lemma rgb_component_read_back (p : Z) :
  0 <= p < 256 ->
  exists h l,
    rgb_component p = String h (String l EmptyString)
    /\ Ascii.eqb "#" h = false
    /\ unhexlify (String h (String l EmptyString))
       = OK (String (chr (read_back p)) EmptyString).
Proof.
  intros Hp.
  assert (forallb
            (fun n =>
               let p := Z.of_nat n in
               match rgb_component p with
               | String h (String l EmptyString) =>
                   negb (Ascii.eqb "#" h)
                   && match unhexlify (String h (String l EmptyString)) with
                      | OK s => String.eqb s (String (chr (read_back p)) EmptyString)
                      | Raise _ => false
                      end
               | _ => false
               end)
            (seq 0 256) = true) as Hall by (vm_compute; reflexivity).
  rewrite forallb_forall in Hall.
  assert (In (Z.to_nat p) (seq 0 256)) as Hin by (apply in_seq; lia).
  apply Hall in Hin. cbv beta zeta in Hin.
  rewrite Z2Nat.id in Hin by lia.
  destruct (rgb_component p) as [|h [|l [|]]]; try discriminate Hin.
  exists h, l. split; [reflexivity|].
  apply andb_prop in Hin as [Hh Hun]. apply negb_true_iff in Hh.
  split; [exact Hh|].
  destruct (unhexlify (String h (String l EmptyString))) as [s|e]; [|discriminate Hun].
  apply String.eqb_eq in Hun. subst s. reflexivity.
Qed.

Lemma read_back_range (p : Z) : 0 <= p < 256 -> 0 <= read_back p < 256.
Proof. unfold read_back. intros Hp. destruct (Z.ltb_spec p 16); lia. Qed.

Lemma from_rgb_to_rgb_bytes (r g b : Z) :
  0 <= r < 256 -> 0 <= g < 256 -> 0 <= b < 256 ->
  from_rgb (to_rgb [r; g; b]) = OK [read_back r; read_back g; read_back b]
  /\ truthy (to_rgb [r; g; b]) = true.
Proof.
  intros Hr Hg Hb.
  destruct (rgb_component_read_back r Hr) as (h1 & l1 & E1 & N1 & U1).
  destruct (rgb_component_read_back g Hg) as (h2 & l2 & E2 & _ & U2).
  destruct (rgb_component_read_back b Hb) as (h3 & l3 & E3 & _ & U3).
  change (to_rgb [r; g; b])
    with (rgb_component r +:+ (rgb_component g +:+ (rgb_component b +:+ EmptyString))).
  rewrite E1, E2, E3. rewrite !append_String, !append_empty.
  split; [|reflexivity].
  unfold from_rgb. rewrite startswith_String, N1.
  cbn [String.length Nat.eqb str_take str_drop].
  cbn [bind]. cbn [map_result]. cbv beta.
  rewrite U1, U2, U3. simpl.
  rewrite !ord_chr by (apply read_back_range; assumption). reflexivity.
Qed.

(** X3: a colour of three bytes that is written by [to_rgb] and read by
    [from_rgb] comes back with every component below 16 multiplied by
    16, and with the other components as they were: the colour comes
    back as it was exactly when no component is in 1..15. *)
Theorem from_rgb_to_rgb_read_back (r g b : Z) :
  0 <= r < 256 -> 0 <= g < 256 -> 0 <= b < 256 ->
  from_rgb (to_rgb [r; g; b]) = OK [read_back r; read_back g; read_back b]
  /\ (from_rgb (to_rgb [r; g; b]) = OK [r; g; b]
      <-> written_in_full r /\ written_in_full g /\ written_in_full b).
Proof.
  intros Hr Hg Hb.
  destruct (from_rgb_to_rgb_bytes r g b Hr Hg Hb) as [E _].
  split; [exact E|]. rewrite E.
  assert (forall p, 0 <= p < 256 -> read_back p = p <-> written_in_full p) as Hfull.
  { intros p Hp. unfold read_back, written_in_full.
    destruct (Z.ltb_spec p 16); lia. }
  split.
  - intros [= H1 H2 H3]. rewrite <- !Hfull by assumption. auto.
  - intros (H1 & H2 & H3). apply Hfull in H1, H2, H3; try assumption. congruence.
Qed.

Lemma from_rgb_to_rgb_read_back_witness :
  from_rgb (to_rgb [1; 2; 255]) = OK [read_back 1; read_back 2; read_back 255]
  /\ (from_rgb (to_rgb [1; 2; 255]) = OK [1; 2; 255]
      <-> written_in_full 1 /\ written_in_full 2 /\ written_in_full 255).
Proof. apply (from_rgb_to_rgb_read_back 1 2 255); lia. Defined.

(** ** Attributes that are popped *)

(** What is left of a dictionary when keys were popped from it holds
    the other keys, with their values. *)
Lemma lookup_deleted (ks : list string) (a : gmap string string) (k : string) :
  foldr delete a ks !! k = if decide (k ∈ ks) then None else a !! k.
Proof.
  induction ks as [|k0 ks IH]; simpl.
  - destruct (decide (k ∈ [])) as [Hk|_]; [|reflexivity].
    apply elem_of_nil in Hk as [].
  - destruct (decide (k = k0)) as [->|Hne].
    + rewrite lookup_delete_eq.
      destruct (decide (k0 ∈ k0 :: ks)) as [_|Hk]; [reflexivity|].
      exfalso. apply Hk, list_elem_of_here.
    + rewrite lookup_delete_ne by congruence. rewrite IH.
      destruct (decide (k ∈ ks)) as [Hk|Hk], (decide (k ∈ k0 :: ks)) as [Hk'|Hk'];
        try reflexivity.
      * exfalso. apply Hk', list_elem_of_further, Hk.
      * exfalso. apply elem_of_cons in Hk' as [?|?]; [congruence | exact (Hk H)].
Qed.

Lemma deleted_empty (ks : list string) (a : gmap string string) :
  foldr delete a ks = ∅ <-> forall k, is_Some (a !! k) -> k ∈ ks.
Proof.
  split.
  - intros Hempty k [v Hv].
    destruct (decide (k ∈ ks)) as [Hk|Hk]; [exact Hk|].
    assert (foldr delete a ks !! k = Some v) as Hl.
    { rewrite lookup_deleted. destruct (decide (k ∈ ks)); [contradiction | exact Hv]. }
    rewrite Hempty, lookup_empty in Hl. discriminate Hl.
  - intros Hall. apply map_eq. intros k. rewrite lookup_deleted, lookup_empty.
    destruct (decide (k ∈ ks)) as [Hk|Hk]; [reflexivity|].
    destruct (a !! k) as [v|] eqn:Hv; [|reflexivity].
    exfalso. apply Hk, Hall. eauto.
Qed.

(** A key that is in one list of names is in another that has them all. *)
Ltac in_list H :=
  repeat (apply elem_of_cons in H as [-> | H];
          [ repeat first [ apply list_elem_of_here | apply list_elem_of_further ] | ]);
  apply elem_of_nil in H as [].

(** ** Images *)

Lemma read_back_fixed (p : Z) :
  0 <= p < 256 -> read_back p = p <-> written_in_full p.
Proof.
  intros Hp. unfold read_back, written_in_full.
  destruct (Z.ltb_spec p 16); lia.
Qed.

Lemma int_default_str (n : Z) :
  int_default (if n =? 0 then None else Some (str n)) 0 = OK n.
Proof.
  destruct (Z.eqb_spec n 0) as [->|_]; simpl; [reflexivity | apply int_str].
Qed.

(** The element [written_image] describes is read as the image exactly
    when the image has no transparent colour, or one of three bytes
    none of which is in 1..15. *)
Lemma read_written_image_iff (image : Image) (base_path base_path' : option string) :
  read_image (written_image image base_path) base_path' = OK image
  <-> two_digit_colour (image_trans image).
Proof.
  split; [|apply read_written_image].
  destruct (written_image_lookup image base_path)
    as (Hsource & Hwidth & Hheight & Htrans & Hall).
  rewrite (read_image_lookup _ _ _ Hsource Hall).
  rewrite Htrans, Hwidth, Hheight, !int_default_str.
  destruct image as [source trans [width height]]. simpl.
  destruct trans as [[|c rgb]|]; simpl; [discriminate| |trivial].
  destruct (truthy (to_rgb (c :: rgb))); [|discriminate].
  destruct (from_rgb (to_rgb (c :: rgb))) as [rgb'|e] eqn:Hread; [|discriminate].
  simpl. intros [= ->].
  destruct (from_rgb_OK _ _ Hread) as (r & g & b & [= -> ->] & Hr & Hg & Hb).
  destruct (from_rgb_to_rgb_bytes r g b Hr Hg Hb) as [E _].
  rewrite E in Hread. injection Hread as H1 H2 H3.
  exists r, g, b. rewrite <- !read_back_fixed by assumption. auto.
Qed.

(** X4: an image that is written and read comes back as it was exactly
    when lxml accepts its source and it has no transparent colour, or
    one of three bytes none of which is in 1..15. *)
Theorem read_image_write_image_iff (image : Image) (base_path base_path' : option string) :
  (try elem <- write_image image base_path in read_image elem base_path') = OK image
  <-> xml_compatible (image_source image) = true
      /\ two_digit_colour (image_trans image).
Proof.
  rewrite write_image_accepted.
  destruct (xml_compatible (image_source image)); cbn [bind].
  - rewrite read_written_image_iff. tauto.
  - split; [discriminate | intros [H _]; discriminate H].
Qed.

(** X5: an element that [read_image] accepts has a [source]
    attribute, which the image gets, and no attribute besides [trans],
    [source], [width] and [height]; a width or height that is left out
    is read as 0, and an image without [trans] has no transparent
    colour. *)
Theorem read_image_attributes (elem : Element) (base_path : option string)
    (image : Image) :
  read_image elem base_path = OK image ->
  attrib elem !! "source" = Some (image_source image)
  /\ (forall k, is_Some (attrib elem !! k) -> k ∈ image_attributes)
  /\ int_default (attrib elem !! "width") 0 = OK (fst (image_size image))
  /\ int_default (attrib elem !! "height") 0 = OK (snd (image_size image))
  /\ (attrib elem !! "trans" = None <-> image_trans image = None).
Proof.
  unfold read_image, pop_default. intros H.
  apply bind_OK in H as (trans & Htrans & H).
  apply bind_OK in H as ([source a] & [Hsource ->]%pop_OK & H).
  rewrite lookup_delete_ne in Hsource by done.
  assert (exists width height,
             int_default (attrib elem !! "width") 0 = OK width
             /\ int_default (attrib elem !! "height") 0 = OK height
             /\ image_leftover (attrib elem) = ∅
             /\ image = mkImage source trans (width, height))
    as (width & height & Hw & Hh & Hempty & ->).
  { apply bind_OK in H as (width & Hw & H).
    apply bind_OK in H as (height & Hh & H).
    apply bind_OK in H as (u & Hempty%assert_OK%is_empty_true & [= <-]).
    rewrite !lookup_delete_ne in Hw by done.
    rewrite !lookup_delete_ne in Hh by done.
    exists width, height.
    split; [exact Hw|]. split; [exact Hh|]. split; [exact Hempty | reflexivity]. }
  simpl. split; [exact Hsource|]. split.
  { intros k Hk.
    apply (proj1 (deleted_empty ["height"; "width"; "source"; "trans"] _) Hempty) in Hk.
    unfold image_attributes. in_list Hk. }
  split; [exact Hw|]. split; [exact Hh|]. split.
  - intros Hnone. rewrite Hnone in Htrans. injection Htrans as <-. reflexivity.
  - intros ->. destruct (attrib elem !! "trans") as [t|]; [|reflexivity].
    destruct (truthy t); [|discriminate Htrans].
    destruct (from_rgb t); discriminate Htrans.
Qed.

Lemma read_image_attributes_witness :
  attrib image_element !! "source" = Some (image_source image_read)
  /\ (forall k, is_Some (attrib image_element !! k) -> k ∈ image_attributes)
  /\ int_default (attrib image_element !! "width") 0 = OK (fst (image_size image_read))
  /\ int_default (attrib image_element !! "height") 0 = OK (snd (image_size image_read))
  /\ (attrib image_element !! "trans" = None <-> image_trans image_read = None).
Proof. apply (read_image_attributes image_element None image_read). reflexivity. Defined.

(** ** Property bags: what is read, and what is written *)

(** What every element a loop gets through has in common. *)
Lemma for_each_OK_Forall {S A : Type} (P : A -> Prop) (body : S -> A -> result S)
    (l : list A) :
  (forall s x s', x ∈ l -> body s x = OK s' -> P x) ->
  forall s s', for_each body s l = OK s' -> Forall P l.
Proof.
  induction l as [|x l IH]; intros Hbody s s' Hrun; [constructor|].
  simpl in Hrun. apply bind_OK in Hrun as (s1 & H1 & H2).
  constructor.
  - eapply Hbody; [apply list_elem_of_here | exact H1].
  - eapply IH; [|exact H2].
    intros s0 y s0' Hy. apply Hbody, list_elem_of_further, Hy.
Qed.

Lemma read_property_inv (properties properties' : gmap string string) (child : Element) :
  read_property properties child = OK properties' ->
  exists item, is_property child item.
Proof.
  unfold read_property. intros H.
  apply bind_OK in H as (? & Htag%assert_OK%String.eqb_eq & H).
  apply bind_OK in H as ([name a1] & [Hname ->]%pop_OK & H).
  apply bind_OK in H as ([value a2] & [Hvalue ->]%pop_OK & H).
  apply bind_OK in H as (? & Hempty%assert_OK%is_empty_true & _).
  rewrite lookup_delete_ne in Hvalue by done.
  exists (name, value). split; [exact Htag|]. simpl.
  apply map_eq. intros k.
  destruct (decide (k = "name")) as [->|Hn].
  { rewrite lookup_insert_eq. exact Hname. }
  rewrite lookup_insert_ne by congruence.
  destruct (decide (k = "value")) as [->|Hv].
  { rewrite lookup_insert_eq. exact Hvalue. }
  rewrite lookup_insert_ne by congruence. rewrite lookup_empty.
  destruct (attrib child !! k) as [v|] eqn:Hk; [|reflexivity].
  exfalso.
  assert (k ∈ ["value"; "name"]) as Hin.
  { apply (proj1 (deleted_empty ["value"; "name"] (attrib child)) Hempty). eauto. }
  apply elem_of_cons in Hin as [?|Hin]; [congruence|].
  apply elem_of_cons in Hin as [?|Hin]; [congruence|].
  apply elem_of_nil in Hin as [].
Qed.

Lemma Forall_is_property (children : list Element) :
  Forall (fun child => exists item, is_property child item) children ->
  exists items, Forall2 is_property children items.
Proof.
  induction 1 as [|child children [item Hitem] _ [items Hitems]].
  - exists []. constructor.
  - exists (item :: items). constructor; assumption.
Qed.

(** X6: [read_properties] reads an element exactly when it is a
    [properties] element without attributes, every child of which is a
    [property] element with a [name], a [value] and no other
    attribute. *)
Theorem read_properties_accepts (elem : Element) :
  is_OK (read_properties elem) = true
  <-> tag elem = "properties"
      /\ attrib elem = ∅
      /\ Forall (fun child => exists item, is_property child item) (children elem).
Proof.
  split.
  - destruct (read_properties elem) as [props|e] eqn:Hread; [|simpl; discriminate].
    intros _. unfold read_properties in Hread.
    apply bind_OK in Hread as (? & Htag%assert_OK%String.eqb_eq & Hread).
    apply bind_OK in Hread as (? & Hattrib%assert_OK%is_empty_true & Hread).
    split; [exact Htag|]. split; [exact Hattrib|].
    eapply for_each_OK_Forall; [|exact Hread].
    intros s child s' _. apply read_property_inv.
  - intros (Htag & Hattrib & Hchildren).
    apply Forall_is_property in Hchildren as [items Hitems].
    unfold read_properties. rewrite Htag, Hattrib. simpl.
    rewrite (read_property_loop _ items Hitems). reflexivity.
Qed.

(** X7: for a bag that is not empty and whose keys and values lxml
    accepts, [append_properties] adds one child to the parent, after the
    children it has, and leaves its tag, attributes and text alone;
    [read_properties] reads the bag back from that child.  For a bag
    with a key or a value lxml does not accept, it raises [ValueError]. *)
Theorem append_properties_read_back (parent : Element) (props : gmap string string) :
  props <> ∅ ->
  (accepted_bag props = true ->
   exists element,
     append_properties parent props
     = OK (mkElement (tag parent) (attrib parent) (text parent)
             (children parent ++ [element]))
     /\ read_properties element = OK props)
  /\ (accepted_bag props = false -> append_properties parent props = Raise not_xml).
Proof.
  intros Hprops. rewrite append_properties_accepted. split; intros ->; [|reflexivity].
  exists (properties_element props).
  rewrite with_properties_eq.
  apply is_empty_false in Hprops. rewrite Hprops.
  split; [reflexivity | apply read_properties_element].
Qed.

Lemma append_properties_read_back_witness :
  exists element,
    append_properties (mkElement "map" ∅ None []) {["author" := "me"]}
    = OK (mkElement "map" ∅ None ([] ++ [element]))
    /\ read_properties element = OK {["author" := "me"]}.
Proof.
  apply (append_properties_read_back (mkElement "map" ∅ None []) {["author" := "me"]}).
  - apply insert_non_empty.
  - vm_compute. reflexivity.
Defined.

(** ** Tilesets that are references *)

(** The reference [written_tileset] describes, and what it is read as. *)
Lemma read_written_reference (env : Env) (tileset : Tileset)
    (base_path base_path' : option string) (gid : option Z) (source : string) :
  tileset_source tileset = Some source ->
  source <> EmptyString ->
  written_tileset tileset base_path gid
  = plain_element "tileset"
      (if int_truthy gid
       then dict [("firstgid", str (default 0 gid)); ("source", source)]
       else dict [("source", source)])
  /\ read_tileset env (written_tileset tileset base_path gid) base_path'
     = if bool_decide (base_path' = None) && negb (os_path_isabs env source)
       then Raise (ValueError "Cannot load external tileset from relative path")
       else if int_truthy gid then
         try opened <- Tileset_open env (real_source env base_path' source) in
         OK (mkTileset (tileset_name opened) (tileset_tile_size opened)
               (tileset_margin opened) (tileset_spacing opened)
               (tileset_image opened) (tileset_tile_properties opened)
               (Some source) gid)
       else Raise (KeyError "firstgid").
Proof.
  intros Hsource Hne.
  assert (truthy source = true) as Htruthy.
  { unfold truthy. destruct (String.eqb_spec source ""); [contradiction | reflexivity]. }
  unfold written_tileset. rewrite Hsource. split; [reflexivity|].
  unfold read_tileset, pop_default.
  destruct gid as [gid|]; simpl int_truthy.
  - destruct (Z.eqb_spec gid 0) as [->|Hgid]; simpl.
    + unfold dict. simpl. rewrite lookup_insert_eq. simpl. rewrite Htruthy.
      destruct base_path' as [b|]; simpl.
      * destruct (truthy b); simpl;
          rewrite pop_None
          by (rewrite lookup_delete_ne, lookup_insert_ne by done; apply lookup_empty); reflexivity.
      * destruct (os_path_isabs env source); simpl; [|reflexivity].
        rewrite pop_None
          by (rewrite lookup_delete_ne, lookup_insert_ne by done; apply lookup_empty). reflexivity.
    + unfold dict. simpl.
      rewrite lookup_insert_ne by done. rewrite lookup_insert_eq. simpl.
      rewrite Htruthy.
      assert (pop "firstgid"
                (delete "source" (<["firstgid" := str gid]> (<["source" := source]> ∅)))
              = OK (str gid, ∅)) as Hpop.
      { unfold pop. rewrite lookup_delete_ne by done. rewrite lookup_insert_eq.
        assert (delete "firstgid"
                  (delete "source"
                     (<["firstgid" := str gid]> (<["source" := source]> ∅)))
                = (∅ : gmap string string)) as ->; [|reflexivity].
        apply map_eq. intros k. rewrite lookup_empty.
        destruct (decide (k = "firstgid")) as [->|?]; [apply lookup_delete_eq|].
        rewrite lookup_delete_ne by congruence.
        destruct (decide (k = "source")) as [->|?]; [apply lookup_delete_eq|].
        rewrite lookup_delete_ne, !lookup_insert_ne by congruence.
        apply lookup_empty. }
      destruct base_path' as [b|]; simpl.
      * destruct (truthy b); simpl; rewrite Hpop; simpl; rewrite int_str; reflexivity.
      * destruct (os_path_isabs env source); simpl; [|reflexivity].
        rewrite Hpop. simpl. rewrite int_str. reflexivity.
  - unfold dict. simpl. rewrite lookup_insert_eq. simpl. rewrite Htruthy.
    destruct base_path' as [b|]; simpl.
    + destruct (truthy b); simpl;
        rewrite pop_None
          by (rewrite lookup_delete_ne, lookup_insert_ne by done; apply lookup_empty); reflexivity.
    + destruct (os_path_isabs env source); simpl; [|reflexivity].
      rewrite pop_None
          by (rewrite lookup_delete_ne, lookup_insert_ne by done; apply lookup_empty). reflexivity.
Qed.

(** X8: a tileset that has a source is written as a reference, when
    lxml accepts the source: an element with the source and, when it is
    not 0, the first global tile id; [ValueError] is raised otherwise.
    Reading the reference fails with [ValueError] when the source is
    relative and there is no base path, and with [KeyError] when no
    [firstgid] was written; otherwise it opens the file the reference
    names and returns what is in the file, with the source and the first
    global tile id recorded.  The name, image and tile properties of
    the tileset that was written are not in the element. *)
Theorem read_tileset_reference (env : Env) (tileset : Tileset)
    (base_path base_path' : option string) (gid : option Z) (source : string) :
  tileset_source tileset = Some source ->
  source <> EmptyString ->
  write_tileset tileset base_path gid
  = (if xml_compatible source
     then OK (mkElement "tileset"
                (if int_truthy gid
                 then dict [("firstgid", str (default 0 gid)); ("source", source)]
                 else dict [("source", source)])
                None [])
     else Raise not_xml)
  /\ (forall elem,
        write_tileset tileset base_path gid = OK elem ->
        read_tileset env elem base_path'
        = if bool_decide (base_path' = None) && negb (os_path_isabs env source)
          then Raise (ValueError "Cannot load external tileset from relative path")
          else if int_truthy gid then
            try opened <- Tileset_open env (real_source env base_path' source) in
            OK (mkTileset (tileset_name opened) (tileset_tile_size opened)
                  (tileset_margin opened) (tileset_spacing opened)
                  (tileset_image opened) (tileset_tile_properties opened)
                  (Some source) gid)
          else Raise (KeyError "firstgid")).
Proof.
  intros Hsource Hne.
  destruct (read_written_reference env tileset base_path base_path' gid source
              Hsource Hne) as [Hwritten Hread].
  rewrite write_tileset_accepted. unfold accepted_tileset. rewrite Hsource.
  destruct (xml_compatible source).
  - split.
    + rewrite Hwritten. reflexivity.
    + intros elem [= <-]. exact Hread.
  - split; [reflexivity | discriminate].
Qed.

Lemma read_tileset_reference_witness :
  exists elem,
    write_tileset (mkTileset "t" (8, 8) 0 0 None ∅ (Some "t.tsx") None) None (Some 1)
    = OK elem
    /\ elem = mkElement "tileset" (dict [("firstgid", "1"); ("source", "t.tsx")]) None []
    /\ read_tileset (run_env 0) elem None
       = Raise (ValueError "Cannot load external tileset from relative path").
Proof.
  destruct (read_tileset_reference (run_env 0)
              (mkTileset "t" (8, 8) 0 0 None ∅ (Some "t.tsx") None) None None (Some 1)
              "t.tsx" eq_refl) as [Hwrite Hread]; [discriminate|].
  eexists. split; [exact Hwrite|]. split; [reflexivity|].
  apply (Hread _ Hwrite).
Defined.

(** ** Embedded tilesets: the tiles that are written *)

#[local] Instance item_le_transitive : Transitive item_le.
Proof. intros x y z. unfold item_le. lia. Qed.

#[local] Instance item_le_total : Total item_le.
Proof. intros x y. unfold item_le. lia. Qed.

Lemma StronglySorted_filter {A : Type} (R : relation A) (P : A -> Prop)
    `{forall x, Decision (P x)} (l : list A) :
  StronglySorted R l -> StronglySorted R (filter P l).
Proof.
  induction 1 as [|x l _ IH Hx]; [constructor|].
  rewrite filter_cons. destruct (decide (P x)); [|exact IH].
  constructor; [exact IH|].
  apply Forall_forall. intros y [_ Hy]%list_elem_of_filter.
  rewrite Forall_forall in Hx. apply Hx, Hy.
Qed.

(** The items of a dictionary, sorted: their keys go up. *)
Lemma sorted_items_increasing (tp : gmap Z (gmap string string)) :
  StronglySorted (fun x y => fst x < fst y) (sorted_items tp).
Proof.
  assert (NoDup (sorted_items tp).*1) as Hnodup.
  { unfold sorted_items. rewrite merge_sort_Permutation. apply NoDup_fst_map_to_list. }
  assert (StronglySorted item_le (sorted_items tp)) as Hsorted
    by (apply StronglySorted_merge_sort; apply _).
  induction Hsorted as [|x l _ IH Hx]; [constructor|].
  rewrite fmap_cons in Hnodup. apply NoDup_cons in Hnodup as [Hfresh Hnodup].
  constructor; [apply IH, Hnodup|].
  apply Forall_forall. intros y Hy.
  rewrite Forall_forall in Hx. pose proof (Hx y Hy) as Hle. unfold item_le in Hle.
  assert (fst x <> fst y); [|lia].
  intros Heq. apply Hfresh. rewrite Heq.
  apply list_elem_of_fmap. exists y. split; [reflexivity | exact Hy].
Qed.

Lemma StronglySorted_fst (l : list (Z * gmap string string)) :
  StronglySorted (fun x y => fst x < fst y) l -> StronglySorted Z.lt l.*1.
Proof.
  induction 1 as [|x l _ IH Hx]; [constructor|].
  rewrite fmap_cons. constructor; [exact IH|].
  apply Forall_fmap. exact Hx.
Qed.

Lemma with_tiles_filter (items : list (Z * gmap string string)) (element : Element) :
  fold_left with_tile items element
  = mkElement (tag element) (attrib element) (text element)
      (children element ++ map tile_element (filter has_properties items)).
Proof.
  revert element. induction items as [|[tile_no props] items IH]; intros element.
  - simpl. rewrite app_nil_r. destruct element; reflexivity.
  - rewrite filter_cons. simpl fold_left. rewrite IH.
    destruct (decide (has_properties (tile_no, props))) as [Hp|Hp];
      unfold has_properties in Hp; simpl in Hp.
    + apply is_empty_false in Hp. rewrite Hp. simpl.
      rewrite with_properties_eq, Hp. rewrite <- app_assoc. reflexivity.
    + assert (is_empty props = true) as ->.
      { apply is_empty_true. destruct (decide (props = ∅)); [assumption|contradiction]. }
      reflexivity.
Qed.

(** The children of the element [written_tileset] describes. *)
Lemma written_tileset_tiles_in_order (tileset : Tileset) (base_path : option string)
    (gid : option Z) :
  tileset_source tileset = None ->
  exists items,
    children (written_tileset tileset base_path gid)
    = (match tileset_image tileset with
       | Some image => [written_image image None]
       | None => []
       end ++ map tile_element items)%list
    /\ StronglySorted Z.lt items.*1
    /\ (forall id props,
          (id, props) ∈ items
          <-> tileset_tile_properties tileset !! id = Some props /\ props <> ∅).
Proof.
  intros Hsource.
  exists (filter has_properties (sorted_items (tileset_tile_properties tileset))).
  split; [|split].
  - unfold written_tileset. rewrite Hsource, with_tiles_filter. simpl.
    destruct (tileset_image tileset), (negb (tileset_margin tileset =? 0)),
             (negb (tileset_spacing tileset =? 0)); reflexivity.
  - apply StronglySorted_fst, StronglySorted_filter, sorted_items_increasing.
  - intros id props. rewrite list_elem_of_filter.
    unfold sorted_items. rewrite merge_sort_Permutation, elem_of_map_to_list.
    unfold has_properties. simpl. tauto.
Qed.

(** X9: an embedded tileset is written with its image first, if it
    has one, and then one [tile] element for every tile whose bag is not
    empty, and for no other: the tile elements come in increasing order
    of tile number, whatever the order of the dictionary, and each holds
    a [properties] element with the bag of its tile. *)
Theorem write_tileset_tiles_in_order (tileset : Tileset) (base_path : option string)
    (gid : option Z) (element : Element) :
  tileset_source tileset = None ->
  write_tileset tileset base_path gid = OK element ->
  exists images items,
    children element = (images ++ map tile_element items)%list
    /\ match tileset_image tileset with
       | Some image => exists e, write_image image None = OK e /\ images = [e]
       | None => images = []
       end
    /\ StronglySorted Z.lt items.*1
    /\ (forall id props,
          (id, props) ∈ items
          <-> tileset_tile_properties tileset !! id = Some props /\ props <> ∅).
Proof.
  intros Hsource. rewrite write_tileset_accepted.
  destruct (accepted_tileset tileset) eqn:Haccepted; [|discriminate].
  intros [= <-].
  destruct (written_tileset_tiles_in_order tileset base_path gid Hsource)
    as (items & Hchildren & Hsorted & Hitems).
  exists (match tileset_image tileset with
          | Some image => [written_image image None]
          | None => []
          end), items.
  split; [exact Hchildren|]. split; [|split; assumption].
  unfold accepted_tileset in Haccepted. rewrite Hsource in Haccepted.
  destruct (tileset_image tileset) as [image|]; [|reflexivity].
  exists (written_image image None). split; [|reflexivity].
  rewrite write_image_accepted.
  apply andb_prop in Haccepted as [[_ ->]%andb_prop _]. reflexivity.
Qed.

Lemma write_tileset_tiles_in_order_witness :
  exists element images items,
    write_tileset tagged_tiles None (Some 1) = OK element
    /\ children element = (images ++ map tile_element items)%list
    /\ match tileset_image tagged_tiles with
       | Some image => exists e, write_image image None = OK e /\ images = [e]
       | None => images = []
       end
    /\ StronglySorted Z.lt items.*1
    /\ (forall id props,
          (id, props) ∈ items
          <-> tileset_tile_properties tagged_tiles !! id = Some props /\ props <> ∅).
Proof.
  assert (exists element, write_tileset tagged_tiles None (Some 1) = OK element)
    as [element Hwrite] by (eexists; vm_compute; reflexivity).
  destruct (write_tileset_tiles_in_order tagged_tiles None (Some 1) element eq_refl Hwrite)
    as (images & items & H).
  exists element, images, items. split; [exact Hwrite | exact H].
Defined.

(** ** Embedded tilesets: the children that are read *)

Lemma read_tile_child_keeps (subelem : Element) (id : Z) (tileset tileset' : Tileset)
    (subsubelem : Element) :
  read_tile_child subelem id tileset subsubelem = OK tileset' ->
  tileset_image tileset' = tileset_image tileset
  /\ tileset_source tileset' = tileset_source tileset.
Proof.
  unfold read_tile_child.
  destruct (String.eqb (tag subsubelem) "properties"); [|discriminate].
  intros H. apply bind_OK in H as (props & _ & [= <-]). split; reflexivity.
Qed.

(** A step of the loop of [read_tileset] reads the image, which was not
    there, or a tile, which leaves the image alone. *)
Lemma read_tileset_child_OK (base_path : option string) (tileset tileset' : Tileset)
    (subelem : Element) :
  read_tileset_child base_path tileset subelem = OK tileset' ->
  tileset_source tileset' = tileset_source tileset
  /\ ((tag subelem = "image" /\ tileset_image tileset = None
       /\ is_Some (tileset_image tileset'))
      \/ (tag subelem = "tile" /\ tileset_image tileset' = tileset_image tileset)).
Proof.
  unfold read_tileset_child.
  destruct (String.eqb_spec (tag subelem) "image") as [Hi|Hi].
  - intros H. apply bind_OK in H as (? & Hnone%assert_OK & H).
    apply bind_OK in H as (image & _ & [= <-]).
    split; [reflexivity|]. left. split; [exact Hi|]. split; [|simpl; eauto].
    destruct (tileset_image tileset); [discriminate Hnone | reflexivity].
  - destruct (String.eqb_spec (tag subelem) "tile") as [Ht|Ht]; [|discriminate].
    intros H. apply bind_OK in H as ([id a] & _ & H).
    apply bind_OK in H as (n & _ & H).
    apply (for_each_invariant_in
             (fun s => tileset_image s = tileset_image tileset
                       /\ tileset_source s = tileset_source tileset))
      in H as [Himage Hsource].
    + split; [exact Hsource|]. right. split; assumption.
    + intros s x s' _ [Hi1 Hs1] [Hi2 Hs2]%read_tile_child_keeps.
      split; congruence.
    + split; reflexivity.
Qed.

Lemma read_tileset_children_OK (base_path : option string) (l : list Element) :
  forall tileset tileset',
    for_each (read_tileset_child base_path) tileset l = OK tileset' ->
    tileset_source tileset' = tileset_source tileset
    /\ Forall (fun child => tag child = "image" \/ tag child = "tile") l
    /\ (length (filter (fun child => tag child = "image") l)
        + match tileset_image tileset with Some _ => 1 | None => 0 end
        = match tileset_image tileset' with Some _ => 1 | None => 0 end)%nat.
Proof.
  induction l as [|child l IH]; intros tileset tileset' H; simpl in H.
  - injection H as <-. split; [reflexivity|]. split; [constructor | reflexivity].
  - apply bind_OK in H as (tileset1 & Hstep & Hrest).
    apply IH in Hrest as (Hsource & Hall & Hcount).
    apply read_tileset_child_OK in Hstep as [Hsource1 Hstep].
    split; [congruence|]. rewrite filter_cons.
    destruct Hstep as [(Htag & Hnone & [image Hsome]) | (Htag & Hsame)].
    + split; [constructor; auto|].
      rewrite decide_True by exact Htag. rewrite Hnone. rewrite Hsome in Hcount.
      simpl. lia.
    + split; [constructor; auto|].
      rewrite decide_False by (rewrite Htag; discriminate).
      rewrite <- Hsame. exact Hcount.
Qed.

(** X10: an embedded tileset is read only from an element all of
    whose children are [image] or [tile] elements, at most one of them
    an [image]: a second image stops the read.  The tileset has an
    image exactly when the element has an [image] child. *)
Theorem read_tileset_single_image (env : Env) (elem : Element)
    (base_path : option string) (tileset : Tileset) :
  read_tileset env elem base_path = OK tileset ->
  tileset_source tileset = None ->
  Forall (fun child => tag child = "image" \/ tag child = "tile") (children elem)
  /\ (length (filter (fun child => tag child = "image") (children elem)) <= 1)%nat
  /\ (is_Some (tileset_image tileset)
      <-> exists child, child ∈ children elem /\ tag child = "image").
Proof.
  unfold read_tileset, pop_default. intros H Hnone.
  destruct (match attrib elem !! "source" with
            | Some s => truthy s
            | None => false
            end).
  { exfalso.
    apply bind_OK in H as (real & _ & H).
    apply bind_OK in H as ([gid a] & _ & H).
    apply bind_OK in H as (n & _ & H).
    apply bind_OK in H as (? & _ & H).
    apply bind_OK in H as (opened & _ & [= <-]).
    discriminate Hnone. }
  apply bind_OK in H as ([name a1] & _ & H).
  apply bind_OK in H as ([tilewidth a2] & _ & H).
  apply bind_OK in H as (tw & _ & H).
  apply bind_OK in H as ([tileheight a3] & _ & H).
  apply bind_OK in H as (th & _ & H).
  apply bind_OK in H as (margin & _ & H).
  apply bind_OK in H as (spacing & _ & H).
  apply bind_OK in H as (firstgid & _ & H).
  apply bind_OK in H as (? & _ & H).
  apply read_tileset_children_OK in H as (_ & Hall & Hcount).
  simpl in Hcount. split; [exact Hall|].
  split; [destruct (tileset_image tileset); lia|].
  split.
  - intros [image Himage]. rewrite Himage in Hcount.
    destruct (filter (fun child => tag child = "image") (children elem))
      as [|child rest] eqn:Hfilter; [discriminate Hcount|].
    exists child.
    assert (child ∈ filter (fun child => tag child = "image") (children elem)) as Hin
      by (rewrite Hfilter; apply list_elem_of_here).
    apply list_elem_of_filter in Hin as [Htag Hin]. auto.
  - intros (child & Hin & Htag).
    assert (child ∈ filter (fun child => tag child = "image") (children elem)) as Hf
      by (apply list_elem_of_filter; auto).
    destruct (tileset_image tileset) as [image|]; [eauto|].
    exfalso.
    destruct (filter (fun child => tag child = "image") (children elem));
      [apply elem_of_nil in Hf as [] | discriminate Hcount].
Qed.

Lemma read_tileset_single_image_witness :
  Forall (fun child => tag child = "image" \/ tag child = "tile")
    (children tileset_element)
  /\ (length (filter (fun child => tag child = "image") (children tileset_element)) <= 1)%nat
  /\ (is_Some (tileset_image tileset_read)
      <-> exists child, child ∈ children tileset_element /\ tag child = "image").
Proof.
  apply (read_tileset_single_image (run_env 0) tileset_element None tileset_read).
  - vm_compute. reflexivity.
  - reflexivity.
Defined.

(** X11: of a [tile] element the reader looks at the [id] and at the
    children: other attributes and the text are not checked, so a tile
    with attributes the reader does not know is read like one without. *)
Theorem read_tile_attributes_unchecked (base_path : option string) (tileset : Tileset)
    (subelem : Element) (id : string) :
  tag subelem = "tile" ->
  attrib subelem !! "id" = Some id ->
  read_tileset_child base_path tileset subelem
  = read_tileset_child base_path tileset
      (mkElement "tile" (dict [("id", id)]) None (children subelem)).
Proof.
  intros Htag Hid. unfold read_tileset_child. rewrite Htag. simpl.
  rewrite (pop_Some "id" id) by exact Hid.
  rewrite (pop_Some "id" id) by apply lookup_insert_eq.
  reflexivity.
Qed.

Lemma read_tile_attributes_unchecked_witness :
  read_tileset_child None tileset_read
    (mkElement "tile" (dict [("id", "1"); ("terrain", "0,0,0,0")]) (Some "text") [])
  = read_tileset_child None tileset_read
      (mkElement "tile" (dict [("id", "1")]) None []).
Proof.
  apply (read_tile_attributes_unchecked None tileset_read
           (mkElement "tile" (dict [("id", "1"); ("terrain", "0,0,0,0")]) (Some "text") [])
           "1"); reflexivity.
Defined.

(** ** Embedded tilesets: the attributes *)

Lemma read_tile_child_header (subelem : Element) (id : Z) (tileset tileset' : Tileset)
    (subsubelem : Element) :
  read_tile_child subelem id tileset subsubelem = OK tileset' ->
  same_header tileset tileset'.
Proof.
  unfold read_tile_child, same_header.
  destruct (String.eqb (tag subsubelem) "properties"); [|discriminate].
  intros H. apply bind_OK in H as (props & _ & [= <-]). simpl. auto.
Qed.

Lemma same_header_trans (t1 t2 t3 : Tileset) :
  same_header t1 t2 -> same_header t2 t3 -> same_header t1 t3.
Proof.
  unfold same_header. intros (? & ? & ? & ? & ?) (? & ? & ? & ? & ?).
  repeat split; congruence.
Qed.

Lemma read_tileset_child_header (base_path : option string) (tileset tileset' : Tileset)
    (subelem : Element) :
  read_tileset_child base_path tileset subelem = OK tileset' ->
  same_header tileset tileset'.
Proof.
  unfold read_tileset_child.
  destruct (String.eqb (tag subelem) "image").
  { intros H. apply bind_OK in H as (? & _ & H).
    apply bind_OK in H as (image & _ & [= <-]). repeat split. }
  destruct (String.eqb (tag subelem) "tile"); [|discriminate].
  intros H. apply bind_OK in H as ([id a] & _ & H).
  apply bind_OK in H as (n & _ & H).
  apply (for_each_invariant_in (same_header tileset)) in H; [exact H| |repeat split].
  intros s child s' _ Hs Hstep. eapply same_header_trans; [exact Hs|].
  eapply read_tile_child_header, Hstep.
Qed.

(** X12: an embedded tileset is read only from an element that has
    a name, a tile width and a tile height, and no attribute besides
    [source], [name], [tilewidth], [tileheight], [margin], [spacing] and
    [firstgid]; the tileset gets the name and the tile size, and a
    margin, a spacing and a recorded first global tile id that are 0 when
    the element leaves them out. *)
Theorem read_tileset_attributes (env : Env) (elem : Element)
    (base_path : option string) (tileset : Tileset) :
  read_tileset env elem base_path = OK tileset ->
  tileset_source tileset = None ->
  tileset_attributes_say elem tileset.
Proof.
  unfold read_tileset, pop_default. intros H Hnone.
  destruct (match attrib elem !! "source" with
            | Some s => truthy s
            | None => false
            end).
  { exfalso.
    apply bind_OK in H as (real & _ & H).
    apply bind_OK in H as ([gid a] & _ & H).
    apply bind_OK in H as (n & _ & H).
    apply bind_OK in H as (? & _ & H).
    apply bind_OK in H as (opened & _ & [= <-]).
    discriminate Hnone. }
  apply bind_OK in H as ([name a1] & [Hname ->]%pop_OK & H).
  apply bind_OK in H as ([stw a2] & [Hstw ->]%pop_OK & H).
  apply bind_OK in H as (tw & Htw & H).
  apply bind_OK in H as ([sth a3] & [Hsth ->]%pop_OK & H).
  apply bind_OK in H as (th & Hth & H).
  apply bind_OK in H as (margin & Hmargin & H).
  apply bind_OK in H as (spacing & Hspacing & H).
  apply bind_OK in H as (firstgid & Hfirstgid & H).
  apply bind_OK in H as (? & Hempty%assert_OK%is_empty_true & H).
  rewrite !lookup_delete_ne in Hname by done.
  rewrite !lookup_delete_ne in Hstw by done.
  rewrite !lookup_delete_ne in Hsth by done.
  rewrite !lookup_delete_ne in Hmargin by done.
  rewrite !lookup_delete_ne in Hspacing by done.
  rewrite !lookup_delete_ne in Hfirstgid by done.
  apply (for_each_invariant_in
           (same_header (mkTileset name (tw, th) margin spacing None ∅ None
                           (Some firstgid))))
    in H.
  - destruct H as (Hn & Hts & Hm & Hs & Hg). simpl in *.
    unfold tileset_attributes_say. rewrite Hn, Hts, Hm, Hs, Hg. simpl.
    split; [exact Hname|]. split; [exists stw, sth; auto|].
    split; [exact Hmargin|]. split; [exact Hspacing|]. split; [eauto|].
    intros k Hk.
    apply (proj1 (deleted_empty
                    ["firstgid"; "spacing"; "margin"; "tileheight"; "tilewidth";
                     "name"; "source"] _) Hempty) in Hk.
    unfold tileset_attributes. in_list Hk.
  - intros s child s' _ Hs Hstep. eapply same_header_trans; [exact Hs|].
    eapply read_tileset_child_header, Hstep.
  - repeat split.
Qed.

Lemma read_tileset_attributes_witness : tileset_attributes_say tileset_element tileset_read.
Proof.
  apply (read_tileset_attributes (run_env 0) tileset_element None tileset_read).
  - vm_compute. reflexivity.
  - reflexivity.
Defined.

(** ** Embedded tilesets: writing, then reading *)

Lemma NoDup_fst_filter (P : Z * gmap string string -> Prop) `{forall x, Decision (P x)}
    (l : list (Z * gmap string string)) :
  NoDup l.*1 -> NoDup (filter P l).*1.
Proof.
  induction l as [|x l IH]; [intros _; constructor|].
  rewrite fmap_cons. intros [Hx Hl]%NoDup_cons.
  rewrite filter_cons. destruct (decide (P x)); [|apply IH, Hl].
  rewrite fmap_cons. apply NoDup_cons. split; [|apply IH, Hl].
  intros (y & Hy & [_ Hin]%list_elem_of_filter)%list_elem_of_fmap.
  apply Hx. apply list_elem_of_fmap. eauto.
Qed.

Lemma list_to_map_written_bags (tp : gmap Z (gmap string string)) :
  list_to_map (filter has_properties (sorted_items tp)) = written_bags tp.
Proof.
  unfold written_bags. rewrite map_filter_alt.
  apply list_to_map_proper.
  - apply NoDup_fst_filter. unfold sorted_items.
    rewrite merge_sort_Permutation. apply NoDup_fst_map_to_list.
  - unfold sorted_items. rewrite merge_sort_Permutation. reflexivity.
Qed.

Lemma written_image_tag (image : Image) (base_path : option string) :
  tag (written_image image base_path) = "image".
Proof.
  unfold written_image.
  destruct (image_trans image) as [[|c rgb]|],
           (negb (fst (image_size image) =? 0)),
           (negb (snd (image_size image) =? 0)); reflexivity.
Qed.

(** What the element [written_tileset] describes is read as. *)
Lemma read_written_tileset (env : Env) (tileset : Tileset)
    (base_path base_path' : option string) (gid : Z) :
  tileset_source tileset = None ->
  read_tileset env (written_tileset tileset base_path (Some gid)) base_path'
  = try image <-
      match tileset_image tileset with
      | Some image =>
          try i <- read_image (written_image image None) base_path' in OK (Some i)
      | None => OK None
      end in
    OK (mkTileset (tileset_name tileset) (tileset_tile_size tileset)
          (tileset_margin tileset) (tileset_spacing tileset) image
          (written_bags (tileset_tile_properties tileset)) None (Some gid)).
Proof.
  intros Hsource.
  destruct (written_tileset_lookup tileset base_path gid Hsource)
    as (Hs & Hname & Htw & Hth & Hmargin & Hspacing & Hgid & Hall).
  rewrite (read_tileset_lookup env _ base_path' _ _ _ _ _ Hs Hname Htw (int_str _)
             Hth (int_str _) Hall).
  rewrite Hmargin, Hspacing, Hgid, !int_default_str. simpl.
  assert (children (written_tileset tileset base_path (Some gid))
          = (match tileset_image tileset with
             | Some image => [written_image image None]
             | None => []
             end
             ++ map tile_element
                  (filter has_properties (sorted_items (tileset_tile_properties tileset))))%list)
    as ->.
  { unfold written_tileset. rewrite Hsource, with_tiles_filter. simpl.
    destruct (tileset_image tileset), (negb (tileset_margin tileset =? 0)),
             (negb (tileset_spacing tileset =? 0)); reflexivity. }
  rewrite for_each_app.
  assert (NoDup (filter has_properties
                   (sorted_items (tileset_tile_properties tileset))).*1) as Hnodup.
  { apply NoDup_fst_filter. unfold sorted_items.
    rewrite merge_sort_Permutation. apply NoDup_fst_map_to_list. }
  destruct tileset as [name [tw th] margin spacing image tp source rgid].
  simpl in *. subst source.
  destruct image as [image|]; simpl.
  - unfold read_tileset_child at 1. rewrite written_image_tag. simpl.
    destruct (read_image (written_image image None) base_path') as [i|e]; simpl;
      [|reflexivity].
    rewrite read_tile_elements; [|exact Hnodup|intros; apply lookup_empty].
    simpl. rewrite (right_id_L ∅ (∪)), list_to_map_written_bags. reflexivity.
  - rewrite read_tile_elements; [|exact Hnodup|intros; apply lookup_empty].
    simpl. rewrite (right_id_L ∅ (∪)), list_to_map_written_bags. reflexivity.
Qed.

(** X13: what comes back of an embedded tileset that is written and
    read, when lxml accepts its strings.  The name, tile size, margin and
    spacing come back, and the first global tile id that was written is
    recorded; the image is what [read_image] reads from the element
    [write_image] wrote; the tiles come back with their bags, but for
    those whose bag is empty, which are not written. *)
Theorem read_tileset_written (env : Env) (tileset : Tileset)
    (base_path base_path' : option string) (gid : Z) :
  tileset_source tileset = None ->
  accepted_tileset tileset = true ->
  exists elem,
    write_tileset tileset base_path (Some gid) = OK elem
    /\ read_tileset env elem base_path'
       = try image <-
           match tileset_image tileset with
           | Some image =>
               try e <- write_image image None in
               try i <- read_image e base_path' in
               OK (Some i)
           | None => OK None
           end in
         OK (mkTileset (tileset_name tileset) (tileset_tile_size tileset)
               (tileset_margin tileset) (tileset_spacing tileset) image
               (written_bags (tileset_tile_properties tileset)) None (Some gid)).
Proof.
  intros Hsource Haccepted.
  exists (written_tileset tileset base_path (Some gid)).
  rewrite write_tileset_accepted, Haccepted. split; [reflexivity|].
  rewrite (read_written_tileset env tileset base_path base_path' gid Hsource).
  unfold accepted_tileset in Haccepted. rewrite Hsource in Haccepted.
  destruct (tileset_image tileset) as [image|]; [|reflexivity].
  rewrite write_image_accepted.
  apply andb_prop in Haccepted as [[_ ->]%andb_prop _]. reflexivity.
Qed.

Lemma read_tileset_written_witness :
  exists elem,
    write_tileset tagged_tiles None (Some 1) = OK elem
    /\ read_tileset (run_env 0) elem None
       = try image <-
           match tileset_image tagged_tiles with
           | Some image =>
               try e <- write_image image None in
               try i <- read_image e None in
               OK (Some i)
           | None => OK None
           end in
         OK (mkTileset (tileset_name tagged_tiles) (tileset_tile_size tagged_tiles)
               (tileset_margin tagged_tiles) (tileset_spacing tagged_tiles) image
               (written_bags (tileset_tile_properties tagged_tiles)) None (Some 1)).
Proof.
  apply (read_tileset_written (run_env 0) tagged_tiles None None 1).
  - reflexivity.
  - vm_compute. reflexivity.
Defined.

(** ** Tile ids: packing, then unpacking *)

Lemma pack_I_length (v : Z) (b : string) : pack_I v = OK b -> String.length b = 4%nat.
Proof.
  unfold pack_I. destruct ((0 <=? v) && (v <=? 4294967295)); [|discriminate].
  intros [= <-]. reflexivity.
Qed.

Lemma length_append (s t : string) :
  String.length (s +:+ t) = (String.length s + String.length t)%nat.
Proof.
  induction s as [|c s IH]; [reflexivity|].
  rewrite append_String. simpl. rewrite IH. reflexivity.
Qed.

(** X14: the bytes the writer packs hold four bytes for every tile
    id, and the arithmetic of the reader on these bytes gives the tile ids
    back, in order. *)
Theorem tile_ids_struct_pack (data : list Z) (packed : string) :
  struct_pack data = OK packed ->
  tile_ids packed = data /\ String.length packed = (4 * length data)%nat.
Proof.
  revert packed. induction data as [|v data IH]; intros packed H; simpl in H.
  - injection H as <-. split; reflexivity.
  - apply bind_OK in H as (b & Hb & H).
    apply bind_OK in H as (r & Hr & [= <-]).
    destruct (IH r Hr) as [Hids Hlen]. split.
    + rewrite (pack_I_tile_ids v b r Hb), Hids. reflexivity.
    + rewrite length_append, (pack_I_length v b Hb), Hlen. simpl. lia.
Qed.

Lemma tile_ids_struct_pack_witness :
  tile_ids (bytes [1; 0; 0; 0; 2; 0; 0; 0]) = [1; 2]
  /\ String.length (bytes [1; 0; 0; 0; 2; 0; 0; 0]) = (4 * length [1; 2])%nat.
Proof. apply (tile_ids_struct_pack [1; 2]). reflexivity. Defined.

(** ** Tile layers: the children that are read *)

Lemma read_data_bytes_OK (env : Env) (subelem : Element) (b : string)
    (c : option string) :
  read_data_bytes env subelem = OK (b, c) -> supported c.
Proof.
  unfold read_data_bytes, pop_default, supported. intros H.
  apply bind_OK in H as ([encoding a] & _ & H).
  apply bind_OK in H as (data & _ & H).
  destruct (a !! "compression") as [s|]; [|injection H as _ <-; auto].
  destruct (String.eqb s "gzip").
  { apply bind_OK in H as (d & _ & [= _ <-]). auto. }
  destruct (String.eqb s "zlib").
  { apply bind_OK in H as (d & _ & [= _ <-]). auto. }
  destruct (truthy s); [discriminate H|].
  injection H as _ <-. auto.
Qed.

Lemma read_data_as_read (env : Env) (subelem : Element) (layer layer' : ArrayMapLayer) :
  read_data env subelem layer = OK layer' ->
  as_read layer' /\ tiles_mtime layer' = tiles_mtime layer.
Proof.
  unfold read_data. intros H.
  apply bind_OK in H as ([b c] & Hbytes%read_data_bytes_OK & H).
  apply bind_OK in H as (ids & ->%array_l_OK & [= <-]).
  split; [|reflexivity]. split; [reflexivity|]. split; [eauto|].
  simpl. apply tile_ids_range.
Qed.

(** A step of the loop of [tile_layer_from_element]: a [properties]
    child leaves data, encoding, compression and [data_set] alone; a
    [data] child is read once. *)
Lemma read_tile_layer_child_step (env : Env) (layer layer' : ArrayMapLayer)
    (data_set data_set' : bool) (subelem : Element) :
  read_tile_layer_child env (layer, data_set) subelem = OK (layer', data_set') ->
  tiles_mtime layer' = tiles_mtime layer
  /\ ((tag subelem = "properties" /\ data_set' = data_set
       /\ (as_read layer -> as_read layer'))
      \/ (tag subelem = "data" /\ data_set = false /\ data_set' = true
          /\ as_read layer')).
Proof.
  unfold read_tile_layer_child.
  destruct (String.eqb_spec (tag subelem) "properties") as [Hp|Hp].
  - intros H. apply bind_OK in H as (props & _ & [= <- <-]).
    split; [reflexivity|]. left. auto.
  - destruct (String.eqb_spec (tag subelem) "data") as [Hd|Hd]; [|discriminate].
    intros H. apply bind_OK in H as (? & Hset%assert_OK & H).
    apply bind_OK in H as (l & [Hread Hmtime]%read_data_as_read & [= <- <-]).
    split; [exact Hmtime|]. right.
    destruct data_set; [discriminate Hset|]. auto.
Qed.

Lemma read_tile_layer_children (env : Env) (l : list Element) :
  forall layer data_set layer' data_set',
    for_each (read_tile_layer_child env) (layer, data_set) l = OK (layer', data_set') ->
    Forall (fun child => tag child = "properties" \/ tag child = "data") l
    /\ (length (filter (fun child => tag child = "data") l)
        + (if data_set then 1 else 0)
        = if data_set' then 1 else 0)%nat
    /\ tiles_mtime layer' = tiles_mtime layer
    /\ ((data_set = true -> as_read layer) -> data_set' = true -> as_read layer').
Proof.
  induction l as [|child l IH]; intros layer data_set layer' data_set' H; simpl in H.
  - injection H as <- <-.
    split; [constructor|]. split; [reflexivity|]. split; [reflexivity|]. auto.
  - apply bind_OK in H as ([layer1 data_set1] & Hstep & Hrest).
    apply IH in Hrest as (Hall & Hcount & Hmtime & Hread).
    apply read_tile_layer_child_step in Hstep as [Hmtime1 Hstep].
    rewrite filter_cons.
    destruct Hstep as [(Htag & -> & Hkeep) | (Htag & -> & -> & Hnew)].
    + split; [constructor; auto|].
      rewrite decide_False by (rewrite Htag; discriminate).
      split; [exact Hcount|]. split; [congruence|]. auto.
    + split; [constructor; auto|].
      rewrite decide_True by exact Htag.
      split; [simpl in *; lia|]. split; [congruence|]. auto.
Qed.

(** X15: a tile layer is read only from an element with exactly one
    [data] child, all other children being [properties] elements; the
    layer that is read has the encoding base64, no compression or zlib
    or gzip, tile ids of 32 bits, and no [mtime]. *)
Theorem tile_layer_from_element_children (env : Env) (elem : Element) (map : Map)
    (layer : ArrayMapLayer) :
  tile_layer_from_element env elem map = OK layer ->
  Forall (fun child => tag child = "properties" \/ tag child = "data") (children elem)
  /\ length (filter (fun child => tag child = "data") (children elem)) = 1%nat
  /\ as_read layer
  /\ tiles_mtime layer = None.
Proof.
  unfold tile_layer_from_element. intros H.
  apply bind_OK in H as ([[name opacity] visible] & _ & H).
  apply bind_OK in H as ([layer1 data_set] & Hloop & H).
  apply bind_OK in H as (? & ->%assert_OK & [= <-]).
  apply read_tile_layer_children in Hloop as (Hall & Hcount & Hmtime & Hread).
  split; [exact Hall|]. split; [simpl in Hcount; lia|].
  split; [apply Hread; [discriminate | reflexivity] | exact Hmtime].
Qed.

Lemma tile_layer_from_element_children_witness :
  Forall (fun child => tag child = "properties" \/ tag child = "data")
    (children (layer_of "2" "1" "AQAAAAIAAAA="))
  /\ length (filter (fun child => tag child = "data")
               (children (layer_of "2" "1" "AQAAAAIAAAA="))) = 1%nat
  /\ as_read (layer_read [1; 2])
  /\ tiles_mtime (layer_read [1; 2]) = None.
Proof.
  apply (tile_layer_from_element_children (run_env 0) (layer_of "2" "1" "AQAAAAIAAAA=")
           (Map_new (2, 1) (8, 8) "orthogonal" None) (layer_read [1; 2])).
  reflexivity.
Defined.

(** ** Tile layers: when they can be written *)

Lemma pack_I_OK_iff (v : Z) : is_OK (pack_I v) = true <-> 0 <= v < 4294967296.
Proof.
  unfold pack_I.
  destruct (Z.leb_spec 0 v), (Z.leb_spec v 4294967295); simpl;
    split; try discriminate; try lia; reflexivity.
Qed.

Lemma struct_pack_OK_iff (data : list Z) :
  is_OK (struct_pack data) = true <-> Forall (fun v => 0 <= v < 4294967296) data.
Proof.
  induction data as [|v data IH]; simpl.
  - split; [constructor | reflexivity].
  - rewrite Forall_cons, <- IH, <- pack_I_OK_iff.
    destruct (pack_I v), (struct_pack data); simpl; split; auto; intros [? ?]; auto.
Qed.

Lemma gzip_write_OK_iff (env : Env) (mtime : option Z) (data : string) :
  is_OK (gzip_write env mtime data) = true
  <-> 0 <= default (time_time env) mtime < 4294967296.
Proof.
  unfold gzip_write, gzip_header. rewrite <- pack_I_OK_iff.
  destruct (pack_I (default (time_time env) mtime)); simpl; tauto.
Qed.

(** When what is left of the writer, once the layer element is built,
    goes through. *)
Lemma written_tile_layer_OK_iff (env : Env) (map : Map) (layer : ArrayMapLayer) :
  is_OK (written_tile_layer env map layer) = true
  <-> Forall (fun v => 0 <= v < 4294967296) (tiles_data layer)
      /\ ~ bad_compression layer
      /\ (is_str (compression_of layer) "gzip" = true ->
          0 <= default (time_time env) (tiles_mtime layer) < 4294967296)
      /\ is_str (encoding_of layer) "base64" = true.
Proof.
  rewrite <- struct_pack_OK_iff.
  unfold bad_compression, compression_of, encoding_of, written_tile_layer.
  destruct (struct_pack (tiles_data layer)) as [packed|e]; simpl;
    [|split; [discriminate | intros [? _]; discriminate]].
  destruct (is_str (default (Some "zlib") (tiles_compression layer)) "gzip") eqn:Hgzip.
  - rewrite <- (gzip_write_OK_iff env (tiles_mtime layer) packed).
    destruct (gzip_write env (tiles_mtime layer) packed) as [data|e]; simpl.
    + destruct (is_str (default (Some "base64") (tiles_encoding layer)) "base64"); simpl.
      * split; [|reflexivity]. intros _. repeat split. intros (H & _); discriminate H.
      * split; [discriminate | intros (_ & _ & _ & H); discriminate H].
    + split; [discriminate|]. intros (_ & _ & H & _). discriminate (H eq_refl).
  - destruct (is_str (default (Some "zlib") (tiles_compression layer)) "zlib") eqn:Hzlib; simpl.
    + destruct (is_str (default (Some "base64") (tiles_encoding layer)) "base64"); simpl.
      * split; [|reflexivity]. intros _. repeat split; try discriminate.
        intros (_ & H & _); discriminate H.
      * split; [discriminate | intros (_ & _ & _ & H); discriminate H].
    + destruct (opt_truthy (default (Some "zlib") (tiles_compression layer))) eqn:Htruthy;
        simpl.
      * split; [discriminate|]. intros (_ & H & _). exfalso. apply H. auto.
      * destruct (is_str (default (Some "base64") (tiles_encoding layer)) "base64"); simpl.
        -- split; [|reflexivity]. intros _. repeat split; try discriminate.
           intros (_ & _ & H); discriminate H.
        -- split; [discriminate | intros (_ & _ & _ & H); discriminate H].
Qed.

(** X16: [tile_layer_to_element] returns an element exactly when
    lxml accepts the name of the layer, its opacity as [str] prints it
    (unless it is 1) and the keys and values of its properties, every
    tile id is in 0..2^32-1, the compression is gzip, zlib, the empty
    string or [None] (zlib when the layer has no such attribute), the
    time stamp of a gzip layer (its [mtime], or the clock) fits 32 bits,
    and the encoding is base64 (also when the layer has no such
    attribute). *)
Theorem tile_layer_to_element_OK_iff (env : Env) (map : Map) (layer : ArrayMapLayer) :
  is_OK (tile_layer_to_element env map layer) = true
  <-> accepted_layer env (tiles_name layer) (tiles_opacity layer)
        (tiles_properties layer) = true
      /\ Forall (fun v => 0 <= v < 4294967296) (tiles_data layer)
      /\ ~ bad_compression layer
      /\ (is_str (compression_of layer) "gzip" = true ->
          0 <= default (time_time env) (tiles_mtime layer) < 4294967296)
      /\ is_str (encoding_of layer) "base64" = true.
Proof.
  rewrite tile_layer_to_element_accepted. unfold accepted_tile_layer.
  destruct (accepted_layer env (tiles_name layer) (tiles_opacity layer)
              (tiles_properties layer)).
  - rewrite written_tile_layer_OK_iff. tauto.
  - split; [discriminate | intros [H _]; discriminate H].
Qed.

(** A layer as the reader leaves it is written when the clock fits the
    gzip header. *)
Lemma tile_layer_as_read_written (env : Env) (map : Map) (layer : ArrayMapLayer) :
  as_read layer ->
  tiles_mtime layer = None ->
  0 <= time_time env < 4294967296 ->
  exists elem, written_tile_layer env map layer = OK elem.
Proof.
  intros (Henc & (c & Hc & Hsupported) & Hdata) Hmtime Hclock.
  apply struct_pack_OK_iff in Hdata.
  unfold written_tile_layer.
  destruct (struct_pack (tiles_data layer)) as [packed|e]; [|discriminate Hdata].
  rewrite Henc, Hc, Hmtime. simpl.
  destruct Hsupported as [-> | [-> | ->]]; simpl; eauto.
  unfold gzip_write. simpl.
  destruct (gzip_header_OK (time_time env) Hclock) as [header ->]. simpl. eauto.
Qed.

(** ** Tile layers: the data that are read *)

(** X17: the bytes of a [data] element are read exactly when its
    encoding is base64 (a [data] element without encoding, or with
    another one, is never read), its text is base64 text, and its
    compression is left out, empty, or gzip or zlib with a stream that
    decompresses.  Other attributes of the element are not looked at. *)
Theorem read_data_bytes_accepts (env : Env) (subelem : Element) :
  is_OK (read_data_bytes env subelem) = true
  <-> attrib subelem !! "encoding" = Some "base64"
      /\ exists raw,
           b64decode (text subelem) = OK raw
           /\ match attrib subelem !! "compression" with
              | None => True
              | Some c =>
                  if String.eqb c "gzip" then is_OK (gzip_read env raw) = true
                  else if String.eqb c "zlib"
                       then is_OK (zlib_decompress env raw) = true
                       else c = EmptyString
              end.
Proof.
  unfold read_data_bytes, pop_default, pop.
  destruct (attrib subelem !! "encoding") as [encoding|]; simpl;
    [|split; [discriminate | intros [? _]; discriminate]].
  rewrite lookup_delete_ne by done.
  destruct (String.eqb_spec encoding "base64") as [->|Hne]; simpl;
    [|split; [discriminate | intros [[= ?] _]; contradiction]].
  destruct (b64decode (text subelem)) as [raw|e]; simpl;
    [|split; [discriminate | intros (_ & raw & Hraw & _); discriminate]].
  destruct (attrib subelem !! "compression") as [c|]; simpl;
    [|split; [intros _; split; [reflexivity|]; exists raw; split; [reflexivity | exact I]
             | reflexivity]].
  destruct (String.eqb c "gzip").
  { destruct (gzip_read env raw) as [data|e] eqn:Hgzip; simpl.
    - split; [|reflexivity].
      intros _. split; [reflexivity|]. exists raw.
      split; [reflexivity | rewrite Hgzip; reflexivity].
    - split; [discriminate|]. intros (_ & raw' & [= <-] & H).
      rewrite Hgzip in H. discriminate H. }
  destruct (String.eqb c "zlib").
  { destruct (zlib_decompress env raw) as [data|e] eqn:Hzlib; simpl.
    - split; [|reflexivity].
      intros _. split; [reflexivity|]. exists raw.
      split; [reflexivity | rewrite Hzlib; reflexivity].
    - split; [discriminate|]. intros (_ & raw' & [= <-] & H).
      rewrite Hzlib in H. discriminate H. }
  unfold truthy. destruct (String.eqb_spec c "") as [->|Hc]; simpl.
  - split; [|reflexivity].
    intros _. split; [reflexivity|]. exists raw. split; reflexivity.
  - split; [discriminate | intros (_ & raw' & _ & ?); contradiction].
Qed.

(** ** Layer attributes *)

Lemma read_layer_attrib_OK (env : Env) (kind : string) (elem : Element) (map : Map)
    (name : string) (opacity : float) (visible : bool) :
  read_layer_attrib env kind elem map = OK (name, opacity, visible) ->
  layer_attributes_say env elem map name opacity visible.
Proof.
  unfold read_layer_attrib, pop_default. intros H.
  apply bind_OK in H as ([name' a1] & [Hname ->]%pop_OK & H).
  apply bind_OK in H as (opacity' & Hopacity & H).
  apply bind_OK in H as (v & Hvisible & H).
  apply bind_OK in H as ([sw a2] & [Hsw ->]%pop_OK & H).
  apply bind_OK in H as (w & Hw & H).
  apply bind_OK in H as ([sh a3] & [Hsh ->]%pop_OK & H).
  apply bind_OK in H as (h & Hh & H).
  apply bind_OK in H as (? & Hsize%assert_OK%bool_decide_eq_true & H).
  apply bind_OK in H as (? & Hempty%assert_OK%is_empty_true & [= <- <- <-]).
  rewrite !lookup_delete_ne in Hopacity by done.
  rewrite !lookup_delete_ne in Hvisible by done.
  rewrite !lookup_delete_ne in Hsw by done.
  rewrite !lookup_delete_ne in Hsh by done.
  split; [exact Hname|]. split; [exact Hopacity|]. split; [eauto|].
  split.
  - exists sw, sh. rewrite <- Hsize. auto.
  - intros k Hk.
    apply (proj1 (deleted_empty ["height"; "width"; "visible"; "opacity"; "name"] _)
             Hempty) in Hk.
    unfold layer_attributes. in_list Hk.
Qed.

Lemma read_tile_layer_child_attributes (env : Env) (layer layer' : ArrayMapLayer)
    (data_set data_set' : bool) (subelem : Element) :
  read_tile_layer_child env (layer, data_set) subelem = OK (layer', data_set') ->
  tiles_name layer' = tiles_name layer
  /\ tiles_opacity layer' = tiles_opacity layer
  /\ tiles_visible layer' = tiles_visible layer.
Proof.
  unfold read_tile_layer_child.
  destruct (String.eqb (tag subelem) "properties").
  { intros H. apply bind_OK in H as (props & _ & [= <- <-]). auto. }
  destruct (String.eqb (tag subelem) "data"); [|discriminate].
  intros H. apply bind_OK in H as (? & _ & H).
  apply bind_OK in H as (l & Hl & [= <- <-]).
  unfold read_data in Hl.
  apply bind_OK in Hl as ([b c] & _ & Hl).
  apply bind_OK in Hl as (ids & _ & [= <-]). auto.
Qed.

(** ** Object layers *)

(** A step of the loop of [object_layer_from_element]: an [object]
    child adds the object it is read as, any other child adds none. *)
Lemma read_object_layer_child_OK (layer layer' : ObjectLayer) (subelem : Element) :
  read_object_layer_child layer subelem = OK layer' ->
  objects_name layer' = objects_name layer
  /\ objects_opacity layer' = objects_opacity layer
  /\ objects_visible layer' = objects_visible layer
  /\ if decide (tag subelem = "object")
     then exists object,
            read_object subelem = OK object
            /\ objects layer' = (objects layer ++ [object])%list
     else objects layer' = objects layer.
Proof.
  unfold read_object_layer_child.
  destruct (String.eqb_spec (tag subelem) "properties") as [Hp|Hp].
  - intros H. apply bind_OK in H as (props & _ & [= <-]).
    rewrite decide_False by (rewrite Hp; discriminate). auto.
  - destruct (String.eqb_spec (tag subelem) "object") as [Ho|Ho].
    + intros H. apply bind_OK in H as (object & Hobject & [= <-]).
      rewrite decide_True by exact Ho. simpl. eauto 6.
    + intros [= <-]. rewrite decide_False by exact Ho. auto.
Qed.

Lemma read_object_layer_children (l : list Element) :
  forall layer layer',
    for_each read_object_layer_child layer l = OK layer' ->
    objects_name layer' = objects_name layer
    /\ objects_opacity layer' = objects_opacity layer
    /\ objects_visible layer' = objects_visible layer
    /\ exists objs,
         objects layer' = (objects layer ++ objs)%list
         /\ Forall2 (fun child object => read_object child = OK object)
              (filter (fun child => tag child = "object") l) objs.
Proof.
  induction l as [|child l IH]; intros layer layer' H; simpl in H.
  - injection H as <-. repeat split. exists []. rewrite app_nil_r.
    split; [reflexivity | constructor].
  - apply bind_OK in H as (layer1 & Hstep & Hrest).
    apply IH in Hrest as (Hn & Ho & Hv & objs & Hobjs & Hall).
    apply read_object_layer_child_OK in Hstep as (Hn1 & Ho1 & Hv1 & Hstep).
    split; [congruence|]. split; [congruence|]. split; [congruence|].
    rewrite filter_cons.
    destruct (decide (tag child = "object")) as [Htag|Htag].
    + destruct Hstep as (object & Hobject & Hadd).
      exists (object :: objs). split.
      * rewrite Hobjs, Hadd, <- app_assoc. reflexivity.
      * constructor; assumption.
    + exists objs. split; [congruence | exact Hall].
Qed.

(** X18: a layer element, for tiles or for objects, is read only if
    it has a name, a width and a height that are those of the map, and no
    attribute besides [name], [opacity], [visible], [width] and
    [height].  The layer that is read has the name; its opacity is that
    of the attribute, 1 when it is left out; it is visible unless
    [visible] is there and reads as 0. *)
Theorem layer_attributes_read (env : Env) (elem : Element) (map : Map) :
  (forall layer,
     tile_layer_from_element env elem map = OK layer ->
     layer_attributes_say env elem map
       (tiles_name layer) (tiles_opacity layer) (tiles_visible layer))
  /\ (forall layer,
        object_layer_from_element env elem map = OK layer ->
        layer_attributes_say env elem map
          (objects_name layer) (objects_opacity layer) (objects_visible layer)).
Proof.
  split; intros layer H.
  - unfold tile_layer_from_element in H.
    apply bind_OK in H as ([[name opacity] visible] & Hattrib%read_layer_attrib_OK & H).
    apply bind_OK in H as ([layer1 data_set] & Hloop & H).
    apply bind_OK in H as (? & _ & [= <-]).
    apply (for_each_invariant_in
             (fun s => tiles_name (fst s) = name /\ tiles_opacity (fst s) = opacity
                       /\ tiles_visible (fst s) = visible))
      in Hloop.
    + simpl in Hloop. destruct Hloop as (Hn & Ho & Hv). subst. exact Hattrib.
    + intros [l ds] child [l' ds'] _ (Hn & Ho & Hv) Hstep.
      apply read_tile_layer_child_attributes in Hstep as (Hn' & Ho' & Hv').
      simpl in *. split; [congruence|]. split; congruence.
    + auto.
  - unfold object_layer_from_element in H.
    apply bind_OK in H as ([[name opacity] visible] & Hattrib%read_layer_attrib_OK & H).
    apply read_object_layer_children in H as (-> & -> & -> & _). exact Hattrib.
Qed.

(** X19: the objects of an object layer that was read are the
    [object] children of its element, each as [read_object] reads it, in
    document order. *)
Theorem objects_in_document_order (env : Env) (elem : Element) (map : Map)
    (layer : ObjectLayer) :
  object_layer_from_element env elem map = OK layer ->
  Forall2 (fun child object => read_object child = OK object)
    (filter (fun child => tag child = "object") (children elem)) (objects layer).
Proof.
  unfold object_layer_from_element. intros H.
  apply bind_OK in H as ([[name opacity] visible] & _ & H).
  apply read_object_layer_children in H as (_ & _ & _ & objs & -> & Hall).
  exact Hall.
Qed.

Lemma objects_in_document_order_witness :
  Forall2 (fun child object => read_object child = OK object)
    (filter (fun child => tag child = "object") (children objectgroup_element))
    (objects objectgroup_read).
Proof.
  apply (objects_in_document_order (run_env 0) objectgroup_element
           (Map_new (2, 1) (8, 8) "orthogonal" None) objectgroup_read).
  vm_compute. reflexivity.
Defined.

Lemma for_each_filter {S A : Type} (P : A -> Prop) `{forall x, Decision (P x)}
    (body : S -> A -> result S) (l : list A) :
  (forall s x, ~ P x -> body s x = OK s) ->
  forall s, for_each body s (filter P l) = for_each body s l.
Proof.
  intros Hskip. induction l as [|x l IH]; intros s; [reflexivity|].
  rewrite filter_cons. destruct (decide (P x)) as [Hx|Hx]; simpl.
  - destruct (body s x); simpl; [apply IH | reflexivity].
  - rewrite (Hskip s x Hx). simpl. apply IH.
Qed.

(** X20: in an object layer element the reader passes over every
    child that is neither a [properties] nor an [object] element: the
    element is read as it would be without those children. *)
Theorem object_layer_skips_other_children (env : Env) (elem : Element) (map : Map) :
  object_layer_from_element env
    (mkElement (tag elem) (attrib elem) (text elem)
       (filter object_layer_child (children elem))) map
  = object_layer_from_element env elem map.
Proof.
  unfold object_layer_from_element.
  change (read_layer_attrib env "object layer"
            (mkElement (tag elem) (attrib elem) (text elem)
               (filter object_layer_child (children elem))) map)
    with (read_layer_attrib env "object layer" elem map).
  destruct (read_layer_attrib env "object layer" elem map) as [[[name opacity] visible]|e];
    [|reflexivity].
  simpl. apply for_each_filter.
  intros layer child Hchild. unfold read_object_layer_child.
  destruct (String.eqb_spec (tag child) "properties") as [Hp|Hp].
  { exfalso. apply Hchild. left. exact Hp. }
  destruct (String.eqb_spec (tag child) "object") as [Ho|Ho].
  { exfalso. apply Hchild. right. exact Ho. }
  reflexivity.
Qed.

(** ** Objects *)

(** X21: an [object] element is read only if it has [x] and [y],
    both or neither of [width] and [height], and no attribute besides
    [x], [y], [gid], [name], [type], [width] and [height].  The object
    gets its name and type as they are written, or none; its size is
    0 x 0 when the element gives none. *)
Theorem read_object_attributes (subelem : Element) (object : MapObject) :
  read_object subelem = OK object ->
  (exists sx sy,
      attrib subelem !! "x" = Some sx /\ attrib subelem !! "y" = Some sy
      /\ int sx = OK (fst (object_pos object))
      /\ int sy = OK (snd (object_pos object)))
  /\ (is_Some (attrib subelem !! "width") <-> is_Some (attrib subelem !! "height"))
  /\ (attrib subelem !! "width" = None -> object_size object = (0, 0))
  /\ object_name object = attrib subelem !! "name"
  /\ object_type object = attrib subelem !! "type"
  /\ (forall k, is_Some (attrib subelem !! k) -> k ∈ object_attributes).
Proof.
  unfold read_object, pop_default. intros H.
  apply bind_OK in H as ([sx a1] & [Hsx ->]%pop_OK & H).
  apply bind_OK in H as (x & Hx & H).
  apply bind_OK in H as ([sy a2] & [Hsy ->]%pop_OK & H).
  apply bind_OK in H as (y & Hy & H).
  apply bind_OK in H as (value & _ & H).
  apply bind_OK in H as (size & Hsize & H).
  apply bind_OK in H as (? & Hempty%assert_OK%is_empty_true & [= <-]).
  rewrite !lookup_delete_ne in Hsy by done.
  rewrite !lookup_delete_ne in Hsize by done.
  rewrite !lookup_delete_ne by done. simpl.
  split; [exists sx, sy; auto|].
  split.
  { destruct (attrib subelem !! "width") as [w|], (attrib subelem !! "height") as [h|].
    - split; eauto.
    - apply bind_OK in Hsize as (? & _ & Hsize). discriminate Hsize.
    - discriminate Hsize.
    - split; intros [? ?]; discriminate. }
  split.
  { intros Hnone. rewrite Hnone in Hsize.
    destruct (attrib subelem !! "height"); [discriminate Hsize|].
    injection Hsize as <-. reflexivity. }
  split; [reflexivity|]. split; [reflexivity|].
  intros k Hk.
  apply (proj1 (deleted_empty ["height"; "width"; "type"; "name"; "gid"; "y"; "x"] _)
           Hempty) in Hk.
  unfold object_attributes. in_list Hk.
Qed.

Lemma read_object_attributes_witness :
  (exists sx sy,
      attrib door_element !! "x" = Some sx /\ attrib door_element !! "y" = Some sy
      /\ int sx = OK (fst (object_pos door))
      /\ int sy = OK (snd (object_pos door)))
  /\ (is_Some (attrib door_element !! "width") <-> is_Some (attrib door_element !! "height"))
  /\ (attrib door_element !! "width" = None -> object_size door = (0, 0))
  /\ object_name door = attrib door_element !! "name"
  /\ object_type door = attrib door_element !! "type"
  /\ (forall k, is_Some (attrib door_element !! k) -> k ∈ object_attributes).
Proof. apply (read_object_attributes door_element door). reflexivity. Defined.

(** ** Objects: writing, then reading *)

(** Every object is read back from the element it is written to, as
    [object_as_read] has it. *)
Lemma read_object_element_as_read (env : Env) (map : Map) (object : MapObject) :
  read_object (object_element env map object) = OK (object_as_read env map object).
Proof.
  destruct (object_element_lookup env map object)
    as (_ & Hx & Hy & Hgid & Hn & Ht & Hw & Hh & Hall).
  rewrite (read_object_lookup _ _ _ _ _ Hx (int_str _) Hy (int_str _) Hall).
  rewrite Hgid, Hn, Ht, Hw, Hh. unfold object_as_read.
  destruct object as [[x y] [w h] value name type]. simpl.
  assert (match (if int_truthy value then Some (str (default 0 value)) else None) with
          | Some g => try v <- int g in OK (Some v)
          | None => OK None
          end = OK (if int_truthy value then value else None)) as ->.
  { destruct value as [v|]; simpl; [|reflexivity].
    destruct (negb (v =? 0)); [|reflexivity]. rewrite int_str. reflexivity. }
  simpl.
  assert (forall o : option string,
            (if opt_truthy o then Some (default EmptyString o) else None)
            = (if opt_truthy o then o else None)) as Hopt.
  { intros [s|]; simpl; reflexivity. }
  rewrite !Hopt.
  destruct (size_written env map (mkMapObject (x, y) (w, h) value name type)).
  - rewrite !int_str. reflexivity.
  - reflexivity.
Qed.

Lemma read_object_elements_as_read (env : Env) (map : Map) (objs : list MapObject) :
  forall layer,
    for_each read_object_layer_child layer (List.map (object_element env map) objs)
    = OK (mkObjectLayer (objects_name layer) (objects_opacity layer)
            (objects_visible layer) (objects_properties layer)
            (objects layer ++ (object_as_read env map <$> objs))).
Proof.
  induction objs as [|object objs IH]; intros layer; simpl.
  - rewrite app_nil_r. destruct layer; reflexivity.
  - unfold read_object_layer_child at 1.
    destruct (object_element_lookup env map object) as (-> & _). simpl.
    rewrite read_object_element_as_read. simpl.
    rewrite IH. simpl. rewrite <- app_assoc. reflexivity.
Qed.

(** What the element [written_object_layer] describes is read as. *)
Lemma read_written_object_layer (env : Env) (map map' : Map) (layer : ObjectLayer) :
  map_size map' = map_size map ->
  opacity_prints env (objects_opacity layer) ->
  object_layer_from_element env (written_object_layer env map layer) map'
  = OK (mkObjectLayer (objects_name layer) (objects_opacity layer)
          (objects_visible layer) (objects_properties layer)
          (object_as_read env map <$> objects layer)).
Proof.
  intros Hsize Hopacity.
  rewrite written_object_layer_eq. unfold object_layer_from_element.
  rewrite (read_layer_attrib_size env _ _
             (written_layer env "objectgroup" (objects_name layer) map
                (objects_visible layer) (objects_opacity layer) ∅) map' map)
    by (try rewrite written_layer_eq; auto).
  rewrite read_layer_attrib_written by exact Hopacity.
  simpl.
  destruct layer as [name opacity visible props objs]. simpl in *.
  destruct (is_empty props) eqn:Hprops; simpl.
  - apply is_empty_true in Hprops. subst props.
    rewrite read_object_elements_as_read. reflexivity.
  - unfold read_object_layer_child at 1. simpl.
    rewrite read_properties_element. simpl.
    rewrite read_object_elements_as_read. simpl.
    unfold set_object_properties. simpl.
    rewrite (right_id_L ∅ (∪)). reflexivity.
Qed.

(** X22: an object layer is written when lxml accepts the strings of
    the layer and the name and the type of every object are ASCII text
    without control characters; it is not written when the name or the
    type of an object is not such text: [str] or lxml raises an
    exception.  What comes back of a layer that is written and read,
    when its opacity is 1 or printed in a way [float] reads back: the
    name, the visibility, the opacity and the properties, and the
    objects in order, each with its position; with its tile id, name and
    type unless they are 0 or empty, which are not written and come back
    as none; and with its size unless that is 0 x 0 or the size of its
    tile, which is not written and comes back as 0 x 0. *)
Theorem object_layer_written (env : Env) (map map' : Map) (layer : ObjectLayer) :
  map_size map' = map_size map ->
  opacity_prints env (objects_opacity layer) ->
  (accepted_object_layer env layer = true ->
   exists elem,
     object_layer_to_element env map layer = OK elem
     /\ object_layer_from_element env elem map'
        = OK (mkObjectLayer (objects_name layer) (objects_opacity layer)
                (objects_visible layer) (objects_properties layer)
                (object_as_read env map <$> objects layer)))
  /\ (forallb accepted_object (objects layer) = false ->
      is_OK (object_layer_to_element env map layer) = false).
Proof.
  intros Hsize Hopacity. split.
  - intros Haccepted. exists (written_object_layer env map layer).
    split; [apply object_layer_to_element_accepted, Haccepted|].
    apply read_written_object_layer; assumption.
  - intros Hobjects. unfold object_layer_to_element.
    destruct (layer_element env "objectgroup" (objects_name layer) map
                (objects_visible layer) (objects_opacity layer)
                (objects_properties layer)) as [element|e]; [|reflexivity].
    cbn [bind]. apply write_objects_refused, Hobjects.
Qed.

Lemma object_layer_written_witness :
  exists elem,
    object_layer_to_element (run_env 0) small_map loose_objects = OK elem
    /\ object_layer_from_element (run_env 0) elem small_map
       = OK (mkObjectLayer (objects_name loose_objects) (objects_opacity loose_objects)
               (objects_visible loose_objects) (objects_properties loose_objects)
               (object_as_read (run_env 0) small_map <$> objects loose_objects)).
Proof.
  apply (object_layer_written (run_env 0) small_map small_map loose_objects).
  - reflexivity.
  - reflexivity.
  - vm_compute. reflexivity.
Defined.

(** ** Maps: what is read *)

Lemma object_layer_from_element_size (env : Env) (elem : Element) (map map' : Map) :
  map_size map = map_size map' ->
  object_layer_from_element env elem map = object_layer_from_element env elem map'.
Proof.
  intros Hsize. unfold object_layer_from_element.
  rewrite (read_layer_attrib_size env _ elem elem map map' eq_refl Hsize).
  reflexivity.
Qed.

Lemma reads_layer_size (env : Env) (map map' : Map) (child : Element) (layer : Layer) :
  map_size map = map_size map' ->
  reads_layer env map child layer -> reads_layer env map' child layer.
Proof.
  intros Hsize. destruct layer as [layer|layer]; simpl.
  - rewrite (tile_layer_from_element_size env child map map' Hsize). auto.
  - rewrite (object_layer_from_element_size env child map map' Hsize). auto.
Qed.

(** A step of the loop of [read_map]. *)
Lemma read_map_child_OK (env : Env) (base_path : option string) (map map' : Map)
    (child : Element) :
  read_map_child env base_path map child = OK map' ->
  same_frame map map'
  /\ ((tag child = "properties"
       /\ map_tilesets map' = map_tilesets map /\ map_layers map' = map_layers map)
      \/ (tag child = "tileset"
          /\ (exists tileset,
                 read_tileset env child base_path = OK tileset
                 /\ map_tilesets map' = (map_tilesets map ++ [tileset])%list)
          /\ map_layers map' = map_layers map)
      \/ (layer_child child
          /\ map_tilesets map' = map_tilesets map
          /\ exists layer,
               reads_layer env map child layer
               /\ map_layers map' = (map_layers map ++ [layer])%list)).
Proof.
  unfold read_map_child, same_frame, layer_child.
  destruct (String.eqb_spec (tag child) "properties") as [Hp|Hp].
  { intros H. apply bind_OK in H as (props & _ & [= <-]). simpl. auto 10. }
  destruct (String.eqb_spec (tag child) "tileset") as [Ht|Ht].
  { intros H. apply bind_OK in H as (tileset & Hread & H).
    apply bind_OK in H as (? & _ & [= <-]). simpl.
    split; [auto|]. right. left. eauto 10. }
  destruct (String.eqb_spec (tag child) "layer") as [Hl|Hl].
  { intros H. apply bind_OK in H as (layer & Hread & [= <-]). simpl.
    split; [auto|]. right. right. split; [auto|]. split; [reflexivity|].
    exists (Tiles layer). simpl. auto. }
  destruct (String.eqb_spec (tag child) "objectgroup") as [Ho|Ho]; [|discriminate].
  intros H. apply bind_OK in H as (layer & Hread & [= <-]). simpl.
  split; [auto|]. right. right. split; [auto|]. split; [reflexivity|].
  exists (Objects layer). simpl. auto.
Qed.

Lemma read_map_children_OK (env : Env) (base_path : option string) (l : list Element) :
  forall map map',
    for_each (read_map_child env base_path) map l = OK map' ->
    same_frame map map'
    /\ Forall (fun child => tag child = "properties" \/ tag child = "tileset"
                            \/ layer_child child) l
    /\ exists tilesets layers,
         map_tilesets map' = (map_tilesets map ++ tilesets)%list
         /\ map_layers map' = (map_layers map ++ layers)%list
         /\ Forall2 (fun child tileset => read_tileset env child base_path = OK tileset)
              (filter (fun child => tag child = "tileset") l) tilesets
         /\ Forall2 (reads_layer env map) (filter layer_child l) layers.
Proof.
  induction l as [|child l IH]; intros map map' H; simpl in H.
  - injection H as <-. split; [repeat split|]. split; [constructor|].
    exists [], []. rewrite !app_nil_r. repeat split; constructor.
  - apply bind_OK in H as (map1 & Hstep & Hrest).
    apply IH in Hrest as (Hframe & Hall & tilesets & layers & Hts & Hls & Hrt & Hrl).
    apply read_map_child_OK in Hstep as [Hframe1 Hstep].
    assert (map_size map1 = map_size map) as Hsize by apply Hframe1.
    assert (Forall2 (reads_layer env map) (filter layer_child l) layers) as Hrl'.
    { eapply Forall2_impl; [exact Hrl|].
      intros c layer. apply reads_layer_size. exact Hsize. }
    split.
    { destruct Hframe as (? & ? & ? & ?), Hframe1 as (? & ? & ? & ?).
      repeat split; congruence. }
    rewrite !filter_cons.
    destruct Hstep as [(Htag & Ht1 & Hl1)
                      | [(Htag & (tileset & Hread & Ht1) & Hl1)
                        | (Htag & Ht1 & layer & Hread & Hl1)]].
    + split; [constructor; auto|].
      rewrite decide_False by (rewrite Htag; discriminate).
      rewrite decide_False by (unfold layer_child; rewrite Htag; intros [?|?]; discriminate).
      exists tilesets, layers. repeat split; try assumption; congruence.
    + split; [constructor; auto|].
      rewrite decide_True by exact Htag.
      rewrite decide_False by (unfold layer_child; rewrite Htag; intros [?|?]; discriminate).
      exists (tileset :: tilesets), layers. split; [|split; [|split]].
      * rewrite Hts, Ht1, <- app_assoc. reflexivity.
      * congruence.
      * constructor; assumption.
      * exact Hrl'.
    + split; [constructor; auto|].
      rewrite decide_False
        by (destruct Htag as [Htag|Htag]; rewrite Htag; discriminate).
      rewrite decide_True by exact Htag.
      exists tilesets, (layer :: layers). split; [|split; [|split]].
      * congruence.
      * rewrite Hls, Hl1, <- app_assoc. reflexivity.
      * exact Hrt.
      * constructor; assumption.
Qed.

Lemma read_map_args_say (root : Element) (base_path : option string) (map : Map) :
  read_map_args root base_path = OK map ->
  map_attributes_say root map
  /\ map_base_path map = base_path
  /\ map_tilesets map = [] /\ map_layers map = [] /\ map_properties map = ∅.
Proof.
  unfold read_map_args, map_attributes_say. intros H.
  apply bind_OK in H as (? & Htag%assert_OK%String.eqb_eq & H).
  apply bind_OK in H as ([version a1] & [Hversion ->]%pop_OK & H).
  apply bind_OK in H as (? & Hv%assert_OK%String.eqb_eq & H).
  apply bind_OK in H as ([sw a2] & [Hsw ->]%pop_OK & H).
  apply bind_OK in H as (w & Hw & H).
  apply bind_OK in H as ([sh a3] & [Hsh ->]%pop_OK & H).
  apply bind_OK in H as (h & Hh & H).
  apply bind_OK in H as ([stw a4] & [Hstw ->]%pop_OK & H).
  apply bind_OK in H as (tw & Htw & H).
  apply bind_OK in H as ([sth a5] & [Hsth ->]%pop_OK & H).
  apply bind_OK in H as (th & Hth & H).
  apply bind_OK in H as ([orientation a6] & [Ho ->]%pop_OK & H).
  apply bind_OK in H as (? & _ & [= <-]).
  rewrite !lookup_delete_ne in Hsw by done.
  rewrite !lookup_delete_ne in Hsh by done.
  rewrite !lookup_delete_ne in Hstw by done.
  rewrite !lookup_delete_ne in Hsth by done.
  rewrite !lookup_delete_ne in Ho by done.
  subst version. simpl.
  split; [|auto].
  split; [exact Htag|]. split; [exact Hversion|]. split; [|exact Ho].
  exists sw, sh, stw, sth. auto 10.
Qed.

(** X23: [read_map] accepts a root whose children are [properties],
    [tileset], [layer] and [objectgroup] elements, in any order, and no
    other.  The tilesets of the map are the [tileset] children as
    [read_tileset] reads them, in document order; its layers are the
    [layer] and [objectgroup] children as the two layer readers read
    them, in document order. *)
Theorem read_map_children (env : Env) (root : Element) (base_path : option string)
    (map : Map) :
  read_map env root base_path = OK map ->
  Forall (fun child => tag child = "properties" \/ tag child = "tileset"
                       \/ layer_child child) (children root)
  /\ Forall2 (fun child tileset => read_tileset env child base_path = OK tileset)
       (filter (fun child => tag child = "tileset") (children root)) (map_tilesets map)
  /\ Forall2 (reads_layer env map) (filter layer_child (children root)) (map_layers map).
Proof.
  unfold read_map. intros H.
  apply bind_OK in H as (map0 & (_ & _ & Ht0 & Hl0 & _)%read_map_args_say & Hloop).
  apply read_map_children_OK in Hloop
    as ((Hsize & _) & Hall & tilesets & layers & Hts & Hls & Hrt & Hrl).
  rewrite Ht0 in Hts. rewrite Hl0 in Hls. simpl in Hts, Hls. subst tilesets layers.
  split; [exact Hall|]. split; [exact Hrt|].
  eapply Forall2_impl; [exact Hrl|].
  intros c layer. apply reads_layer_size. symmetry. exact Hsize.
Qed.

Lemma read_map_children_witness :
  Forall (fun child => tag child = "properties" \/ tag child = "tileset"
                       \/ layer_child child) (children small_root)
  /\ Forall2 (fun child tileset => read_tileset (run_env 0) child None = OK tileset)
       (filter (fun child => tag child = "tileset") (children small_root))
       (map_tilesets small_map)
  /\ Forall2 (reads_layer (run_env 0) small_map) (filter layer_child (children small_root))
       (map_layers small_map).
Proof.
  apply (read_map_children (run_env 0) small_root None small_map).
  vm_compute. reflexivity.
Defined.

(** X24: the map that [read_map] returns has the size, the tile size
    and the orientation that the attributes of the root give, whatever
    the orientation is, and the base path that [read_map] was given; the
    root is a [map] element of version 1.0. *)
Theorem read_map_attributes (env : Env) (root : Element) (base_path : option string)
    (map : Map) :
  read_map env root base_path = OK map ->
  map_attributes_say root map /\ map_base_path map = base_path.
Proof.
  unfold read_map. intros H.
  apply bind_OK in H as (map0 & (Hsay & Hbase & _)%read_map_args_say & Hloop).
  apply read_map_children_OK in Hloop as ((Hsize & Htile & Ho & Hb) & _).
  unfold map_attributes_say in *. rewrite Hsize, Htile, Ho, Hb. auto.
Qed.

Lemma read_map_attributes_witness :
  map_attributes_say small_root small_map /\ map_base_path small_map = None.
Proof.
  apply (read_map_attributes (run_env 0) small_root None small_map).
  vm_compute. reflexivity.
Defined.

(** ** Maps: what is written *)

Lemma written_layers_OK (env : Env) (map : Map) (layers : list Layer) :
  forall e e',
    for_each (fun elem layer => try x <- written_map_layer env map layer in
                                OK (append elem x)) e layers = OK e' ->
    exists elems,
      e' = mkElement (tag e) (attrib e) (text e) (children e ++ elems)
      /\ Forall2 (fun layer elem => written_map_layer env map layer = OK elem)
           layers elems.
Proof.
  induction layers as [|layer layers IH]; intros e e' H; simpl in H.
  - injection H as <-. exists []. rewrite app_nil_r.
    split; [destruct e; reflexivity | constructor].
  - apply bind_OK in H as (e1 & Hstep & Hrest).
    apply bind_OK in Hstep as (x & Hx & [= <-]).
    apply IH in Hrest as (elems & -> & Hall).
    exists (x :: elems). simpl. rewrite <- app_assoc.
    split; [reflexivity | constructor; assumption].
Qed.

(** The element [written_map] describes. *)
Lemma written_map_children (env : Env) (map : Map) (base_path : option string)
    (elem : Element) :
  written_map env map base_path = OK elem ->
  exists layer_elems,
    elem
    = mkElement "map" (map_attrib map) None
        ((if is_empty (map_properties map) then []
          else [properties_element (map_properties map)])
         ++ imap (fun i tileset =>
                    written_tileset tileset base_path (Some (first_gid env map i)))
              (map_tilesets map)
         ++ layer_elems)
    /\ Forall2 (fun layer elem => written_map_layer env map layer = OK elem)
         (map_layers map) layer_elems.
Proof.
  unfold written_map. fold (map_attrib map).
  rewrite with_properties_eq, fold_append_eq.
  intros H. apply written_layers_OK in H as (elems & -> & Hall).
  exists elems. split; [|exact Hall].
  destruct (is_empty (map_properties map)); simpl; rewrite <- ?app_assoc; reflexivity.
Qed.

Lemma written_layers_Forall2 (env : Env) (map : Map) (layers : list Layer)
    (elems : list Element) :
  forallb (accepted_map_layer env) layers = true ->
  Forall2 (fun layer e => written_map_layer env map layer = OK e) layers elems ->
  Forall2 (fun layer e => layer_to_element env map layer = OK e) layers elems.
Proof.
  intros Hall H. induction H as [|layer e layers elems He _ IH]; [constructor|].
  cbn [forallb] in Hall. apply andb_prop in Hall as [Hlayer Hall].
  constructor; [|apply IH, Hall].
  rewrite layer_to_element_accepted by exact Hlayer. exact He.
Qed.

Lemma write_tilesets_Forall2 (env : Env) (map : Map) (base_path : option string)
    (tilesets : list Tileset) :
  forallb accepted_tileset tilesets = true ->
  forall f : nat -> nat,
    Forall2
      (fun '(i, tileset) e =>
         write_tileset tileset base_path (Some (first_gid env map i)) = OK e)
      (imap (fun i tileset => (f i, tileset)) tilesets)
      (imap (fun i tileset =>
               written_tileset tileset base_path (Some (first_gid env map (f i))))
         tilesets).
Proof.
  induction tilesets as [|tileset tilesets IH]; intros Hall f; [constructor|].
  cbn [forallb] in Hall. apply andb_prop in Hall as [Htileset Hall].
  rewrite !imap_cons. constructor.
  - rewrite write_tileset_accepted, Htileset. reflexivity.
  - apply (IH Hall (f ∘ S)).
Qed.

(** X25: the element [write_map] returns is a [map] element with the
    six attributes of the map (version 1.0); its children are the
    [properties] element of the map, if its bag is not empty, then one
    element for every tileset, in order, written with its first global
    tile id, then one element for every layer, in order. *)
Theorem write_map_children (env : Env) (map : Map) (base_path : option string)
    (elem : Element) :
  write_map env map base_path = OK elem ->
  exists tileset_elems layer_elems,
    elem
    = mkElement "map" (map_attrib map) None
        ((if is_empty (map_properties map) then []
          else [properties_element (map_properties map)])
         ++ tileset_elems ++ layer_elems)
    /\ Forall2
         (fun '(i, tileset) e =>
            write_tileset tileset base_path (Some (first_gid env map i)) = OK e)
         (imap pair (map_tilesets map)) tileset_elems
    /\ Forall2 (fun layer e => layer_to_element env map layer = OK e)
         (map_layers map) layer_elems.
Proof.
  intros Hwrite.
  destruct (accepted_map env map) eqn:Haccepted.
  2:{ pose proof (write_map_refused env map base_path Haccepted) as Hrefused.
      rewrite Hwrite in Hrefused. discriminate Hrefused. }
  rewrite write_map_accepted in Hwrite by exact Haccepted.
  apply written_map_children in Hwrite as (layer_elems & -> & Hlayers).
  unfold accepted_map in Haccepted.
  apply andb_prop in Haccepted as [[_ Htilesets]%andb_prop Haccepted].
  exists (imap (fun i tileset =>
                  written_tileset tileset base_path (Some (first_gid env map i)))
            (map_tilesets map)), layer_elems.
  split; [reflexivity|]. split.
  - exact (write_tilesets_Forall2 env map base_path (map_tilesets map) Htilesets
             (fun i => i)).
  - apply written_layers_Forall2; assumption.
Qed.

Lemma write_map_children_witness :
  exists elem tileset_elems layer_elems,
    write_map (run_env 0) small_map None = OK elem
    /\ elem
       = mkElement "map" (map_attrib small_map) None
           ((if is_empty (map_properties small_map) then []
             else [properties_element (map_properties small_map)])
            ++ tileset_elems ++ layer_elems)
    /\ Forall2
         (fun '(i, tileset) e =>
            write_tileset tileset None (Some (first_gid (run_env 0) small_map i)) = OK e)
         (imap pair (map_tilesets small_map)) tileset_elems
    /\ Forall2 (fun layer e => layer_to_element (run_env 0) small_map layer = OK e)
         (map_layers small_map) layer_elems.
Proof.
  assert (exists elem, write_map (run_env 0) small_map None = OK elem) as [elem Hwrite]
    by (eexists; vm_compute; reflexivity).
  destruct (write_map_children (run_env 0) small_map None elem Hwrite)
    as (tileset_elems & layer_elems & Helem & Htilesets & Hlayers).
  exists elem, tileset_elems, layer_elems. auto.
Defined.

Lemma append_loop_is_OK {A : Type} (f : A -> result Element) (l : list A) :
  forall e,
    is_OK (for_each (fun elem x => try y <- f x in OK (append elem y)) e l) = true
    <-> Forall (fun x => is_OK (f x) = true) l.
Proof.
  induction l as [|x l IH]; intros e; simpl.
  - split; [constructor | reflexivity].
  - rewrite Forall_cons.
    destruct (f x) as [y|err]; simpl.
    + rewrite IH. tauto.
    + split; [discriminate | intros [? _]; discriminate].
Qed.

Lemma write_tileset_is_OK (tileset : Tileset) (base_path : option string)
    (gid : option Z) :
  is_OK (write_tileset tileset base_path gid) = accepted_tileset tileset.
Proof. rewrite write_tileset_accepted. destruct (accepted_tileset tileset); reflexivity. Qed.

(** X26: [write_map] returns an element exactly when lxml accepts the
    orientation of the map and the keys and values of its properties,
    [write_tileset] returns an element for every tileset, and
    [layer_to_element] returns one for every layer. *)
Theorem write_map_OK_iff (env : Env) (map : Map) (base_path : option string) :
  is_OK (write_map env map base_path) = true
  <-> xml_compatible (map_orientation map) = true
      /\ accepted_bag (map_properties map) = true
      /\ (forall i tileset,
            map_tilesets map !! i = Some tileset ->
            is_OK (write_tileset tileset base_path (Some (first_gid env map i))) = true)
      /\ (forall layer,
            layer ∈ map_layers map ->
            is_OK (layer_to_element env map layer) = true).
Proof.
  rewrite write_map_eq.
  assert (forallb accepted_tileset (map_tilesets map) = true
          <-> forall i tileset,
                map_tilesets map !! i = Some tileset ->
                is_OK (write_tileset tileset base_path (Some (first_gid env map i)))
                = true) as Htilesets.
  { rewrite forallb_forall. split.
    - intros Hall i tileset Hi. rewrite write_tileset_is_OK.
      apply Hall, list_elem_of_In. eapply list_elem_of_lookup_2, Hi.
    - intros Hall tileset [i Hi]%list_elem_of_In%list_elem_of_lookup.
      rewrite <- (write_tileset_is_OK tileset base_path (Some (first_gid env map i))).
      apply (Hall i tileset Hi). }
  rewrite <- Htilesets, <- Forall_forall.
  rewrite <- (append_loop_is_OK (layer_to_element env map) (map_layers map)
                (fold_left append
                   (imap (fun i tileset =>
                            written_tileset tileset base_path
                              (Some (first_gid env map i)))
                      (map_tilesets map))
                   (with_properties (plain_element "map" (map_attrib map))
                      (map_properties map)))).
  destruct (xml_compatible (map_orientation map)), (accepted_bag (map_properties map)),
           (forallb accepted_tileset (map_tilesets map)); cbn [andb];
    first [ tauto
          | split; [discriminate | intros (? & ? & ? & _); discriminate] ].
Qed.

(** ** Maps: reading, then writing *)

Lemma tile_layer_read_as_read (env : Env) (elem : Element) (map : Map)
    (layer : ArrayMapLayer) :
  tile_layer_from_element env elem map = OK layer ->
  as_read layer /\ tiles_mtime layer = None.
Proof.
  unfold tile_layer_from_element. intros H.
  apply bind_OK in H as ([[name opacity] visible] & _ & H).
  apply bind_OK in H as ([layer1 data_set] & Hloop & H).
  apply bind_OK in H as (? & ->%assert_OK & [= <-]).
  apply read_tile_layer_children in Hloop as (_ & _ & Hmtime & Hread).
  split; [apply Hread; [discriminate | reflexivity] | exact Hmtime].
Qed.

(** X27: the tile layers of a map that was read can be written
    again when lxml accepts their name, their opacity as it is printed
    and their properties: their tile ids fit 32 bits, their encoding is
    base64 and their compression one the writer knows, so that, when the
    clock fits the 32 bits of a gzip header, [tile_layer_to_element]
    raises neither [struct.error] nor [ValueError] for the compression
    or the encoding, on any platform and with any compressor. *)
Theorem read_map_layers_written (env : Env) (root : Element)
    (base_path : option string) (map : Map) :
  read_map env root base_path = OK map ->
  0 <= time_time env < 4294967296 ->
  forall layer,
    Tiles layer ∈ map_layers map ->
    accepted_layer env (tiles_name layer) (tiles_opacity layer)
      (tiles_properties layer) = true ->
    exists elem, tile_layer_to_element env map layer = OK elem.
Proof.
  intros Hread Hclock layer Hin Haccepted.
  rewrite tile_layer_to_element_accepted. unfold accepted_tile_layer.
  rewrite Haccepted.
  unfold read_map in Hread.
  apply bind_OK in Hread as (map0 & (_ & _ & _ & Hl0 & _)%read_map_args_say & Hloop).
  apply read_map_children_OK in Hloop as (_ & _ & tilesets & layers & _ & Hls & _ & Hrl).
  rewrite Hl0 in Hls. simpl in Hls. subst layers.
  apply list_elem_of_lookup in Hin as [i Hi].
  destruct (Forall2_lookup_r _ _ _ _ _ Hrl Hi) as (child & _ & Hchild).
  simpl in Hchild. destruct Hchild as [_ Hchild].
  apply tile_layer_read_as_read in Hchild as [Has Hmtime].
  apply tile_layer_as_read_written; assumption.
Qed.

Lemma read_map_layers_written_witness :
  exists elem, tile_layer_to_element (run_env 0) small_map (layer_read [1; 2]) = OK elem.
Proof.
  apply (read_map_layers_written (run_env 0) small_root None small_map).
  - vm_compute. reflexivity.
  - simpl. lia.
  - apply list_elem_of_here.
  - vm_compute. reflexivity.
Defined.
